(** * pyMOR discretizations: [pymor/discretizations/basic.py]

    A shallow embedding of [DiscretizationBase], [StationaryDiscretization]
    and [InstationaryDiscretization].  Python objects are attribute
    dictionaries, exceptions are an error monad, and the collaborators the
    module only consumes (operators, vector arrays, vector spaces,
    time-steppers) are an interface class. *)

From stdpp Require Import gmap strings list fin_maps.
From Stdlib Require Import ZArith Ascii.

Open Scope string_scope.

(** ** Exceptions *)

Inductive exception :=
| AssertionError
| AttributeError
| KeyError
| TypeError
| NotImplementedError (msg : string)
| Raised (what : string).

Inductive result (A : Type) :=
| Ok (a : A)
| Err (e : exception).
Arguments Ok {A} a.
Arguments Err {A} e.

#[global] Instance result_ret : MRet result := fun A a => Ok a.
#[global] Instance result_bind : MBind result := fun A B k m =>
  match m with
  | Ok a => k a
  | Err e => Err e
  end.

#[global] Instance result_fmap : FMap result := fun A B f m =>
  match m with
  | Ok a => Ok (f a)
  | Err e => Err e
  end.

(** [assert b]: Python's [assert] statement. *)
Definition assert (b : bool) : result unit :=
  if b then Ok tt else Err AssertionError.

Definition is_ok {A} (m : result A) : bool :=
  match m with Ok _ => true | Err _ => false end.

(** Outcomes can be compared when the returned values can. *)
#[global] Instance exception_eq_dec : EqDecision exception.
Proof. solve_decision. Defined.
#[global] Instance result_eq_dec `{EqDecision A} : EqDecision (result A).
Proof. solve_decision. Defined.

(** ** Parameters

    A |Parameter| maps names to numeric scalars or arrays.  No arithmetic
    is done on the numbers here, they are kept as integers. *)

Inductive pvalue :=
| Scalar (z : Z)
| Array (l : list Z).

Abbreviation Param := (gmap string pvalue).

(** ** The consumed interfaces

    Operators, vector arrays, vector spaces and time-steppers are defined
    outside this module, which only calls them.  Elements of [Operator] and
    [TimeStepper] are object identities, so that Python's [is] and the
    default [==] are both Leibniz equality. *)

Class Collaborators := {
  Operator : Type;
  VectorArray : Type;
  VectorSpace : Type;
  TimeStepper : Type;
  ParameterType : Type;
  Trajectory : Type;
  Operator_eq_dec :: EqDecision Operator;
  VectorArray_eq_dec :: EqDecision VectorArray;
  VectorSpace_eq_dec :: EqDecision VectorSpace;
  TimeStepper_eq_dec :: EqDecision TimeStepper;
  ParameterType_eq_dec :: EqDecision ParameterType;
  (* pymor.vectorarrays.numpy *)
  NumpyVectorSpace : nat -> VectorSpace;
  (* OperatorInterface *)
  source : Operator -> VectorSpace;
  range : Operator -> VectorSpace;
  linear : Operator -> bool;
  apply_inverse : Operator -> VectorArray -> Param -> result VectorArray;
  as_source_array : Operator -> Param -> result VectorArray;
  as_range_array : Operator -> Param -> result VectorArray;
  (* pymor.operators.constructions *)
  VectorOperator : VectorArray -> string -> Operator;
  (* the [nt] attribute of a time-stepper that has one *)
  nt : TimeStepper -> option Z;
}.

(** ** Python values

    [atom] are the values an attribute, a keyword argument or a dictionary
    entry holds; [PyObject] stands for an object with none of the attributes
    this module reads ([linear], [source], [range], [nt], ...), such as an
    estimator, a visualizer or a parameter space.  A [FrozenDict] is a [dict]
    that refuses updates; nothing here updates one, so both are [PyDict]. *)

Section values.
Context `{Collaborators}.

Inductive atom :=
| PyNone
| PyBool (b : bool)
| PyNum (z : Z)
| PyStr (s : string)
| PyOperator (o : Operator)
| PyVectorArray (U : VectorArray)
| PyVectorSpace (V : VectorSpace)
| PyTimeStepper (t : TimeStepper)
| PyParameterType (pt : ParameterType)
| PyInducedNorm (product : atom)
| PyObject (id : string).

#[global] Instance atom_eq_dec : EqDecision atom.
Proof. solve_decision. Defined.

Inductive pyval :=
| Atom (a : atom)
| PyDict (d : gmap string atom)
| PySet (s : gset string).

#[global] Instance pyval_eq_dec : EqDecision pyval.
Proof. solve_decision. Defined.

Inductive class := Stationary | Instationary.

#[global] Instance class_eq_dec : EqDecision class.
Proof. solve_decision. Defined.

(** An instance: its class and its attribute dictionary. *)
Record instance := {
  type_of : class;
  __dict__ : gmap string pyval;
}.

#[global] Instance instance_eq_dec : EqDecision instance.
Proof. solve_decision. Defined.

(** Members found on the class rather than on the instance.  Only
    [add_with_arguments] (initially [frozenset()]) is read as a value;
    the others matter to [hasattr] alone and are opaque. *)
Definition class_dict : gmap string pyval :=
  list_to_map
    [("add_with_arguments", PySet ∅);
     ("sid_ignore", Atom (PyObject "frozenset"));
     ("special_operators", Atom (PyObject "frozenset"));
     ("with_arguments", Atom (PyObject "property"));
     ("logging_disabled", Atom (PyObject "property"));
     ("logger", Atom (PyObject "property"));
     ("__init__", Atom (PyObject "method"));
     ("with_", Atom (PyObject "method"));
     ("visualize", Atom (PyObject "method"));
     ("estimate", Atom (PyObject "method"));
     ("solve", Atom (PyObject "method"));
     ("_solve", Atom (PyObject "method"));
     ("enable_caching", Atom (PyObject "method"));
     ("build_parameter_type", Atom (PyObject "method"));
     ("parse_parameter", Atom (PyObject "method"))].

Definition new (c : class) : instance :=
  {| type_of := c; __dict__ := ∅ |}.

Definition hasattr (self : instance) (name : string) : bool :=
  bool_decide (is_Some (__dict__ self !! name))
  || bool_decide (is_Some (class_dict !! name)).

Definition getattr (self : instance) (name : string) : result pyval :=
  match __dict__ self !! name with
  | Some v => Ok v
  | None =>
      match class_dict !! name with
      | Some v => Ok v
      | None => Err AttributeError
      end
  end.

Definition setattr (self : instance) (name : string) (v : pyval) : instance :=
  {| type_of := type_of self; __dict__ := <[name := v]> (__dict__ self) |}.

(** [d[key]] *)
Definition getitem {V} (d : gmap string V) (key : string) : result V :=
  match d !! key with
  | Some v => Ok v
  | None => Err KeyError
  end.

(** Attribute reads on a value: only an |Operator| has these. *)
Definition attr_source (v : pyval) : result VectorSpace :=
  match v with
  | Atom (PyOperator o) => Ok (source o)
  | _ => Err AttributeError
  end.

Definition attr_range (v : pyval) : result VectorSpace :=
  match v with
  | Atom (PyOperator o) => Ok (range o)
  | _ => Err AttributeError
  end.

Definition attr_linear (a : atom) : result bool :=
  match a with
  | PyOperator o => Ok (linear o)
  | _ => Err AttributeError
  end.

Definition attr_linear_of (v : pyval) : result bool :=
  match v with
  | Atom a => attr_linear a
  | _ => Err AttributeError
  end.

(** [v is None] *)
Definition is_None (v : pyval) : bool :=
  match v with Atom PyNone => true | _ => false end.

Definition is_none (a : atom) : bool :=
  match a with PyNone => true | _ => false end.

Definition isinstance_OperatorInterface (a : atom) : bool :=
  match a with PyOperator _ => true | _ => false end.

Definition isinstance_TimeStepperInterface (a : atom) : bool :=
  match a with PyTimeStepper _ => true | _ => false end.

Definition isinstance_VectorArrayInterface (a : atom) : bool :=
  match a with PyVectorArray _ => true | _ => false end.

(** [x and y], [x or y] on fallible boolean expressions: the right operand
    is evaluated, and may raise, only when the left one does not decide. *)
Definition py_and (x y : result bool) : result bool :=
  b ← x; if b : bool then y else Ok false.

Definition py_or (x y : result bool) : result bool :=
  b ← x; if b : bool then Ok true else y.
End values.

(** ** Inherited services

    Modelled from the spec: the members the three classes inherit from
    [DiscretizationInterface] and its bases, whose code is not part of the
    embedded files.  [build_parameter_type] derives the declared parameter
    type from the given operators (and the entries the discretization
    provides itself); [parse_parameter] validates [mu], which is [None] or a
    reference to a mapping object, against the instance's parameter type and
    yields either an object that exists already or the contents of a new
    one, reading the store without changing it; [logging_disabled] is the
    logging switch and the two [str_] functions render the log line. *)

Abbreviation loc := nat.

Class Framework `{Collaborators} := {
  build_parameter_type : list pyval -> Param -> ParameterType;
  parse_parameter : instance -> gmap loc Param -> option loc -> result (loc + Param);
  logging_disabled : instance -> bool;
  str_value : pyval -> string;
  str_parameter : Param -> string;
  (* time_stepper.with_(nt=value) *)
  TimeStepper_with_ : TimeStepper -> pyval -> result TimeStepper;
  (* time_stepper.solve(operator, rhs, initial_data, mass, initial_time,
     end_time, mu, num_values) *)
  TimeStepper_solve :
    TimeStepper -> pyval -> pyval -> VectorArray -> pyval -> Z -> pyval ->
    Param -> pyval -> result Trajectory;
}.

Section DiscretizationBase.
Context `{Framework}.

(** Modelled from the spec: [enable_caching] keeps the requested cache
    region as the instance's cache-region reference. *)
Definition enable_caching (self : instance) (region : atom) : instance :=
  setattr self "cache_region" (Atom region).

(** Modelled from the spec: the derived parameter type is kept on the
    instance as [parameter_type]. *)
Definition Parametric_build_parameter_type
    (self : instance) (args : list pyval) (provides : Param) : instance :=
  setattr self "parameter_type"
    (Atom (PyParameterType (build_parameter_type args provides))).

(** [induced_norm(product)] builds the norm function of a product; only
    its identity matters here. *)
Definition induced_norm (product : atom) : atom := PyInducedNorm product.

(** ['{}_product'.format(k)] and ['{}_norm'.format(k)] *)
Definition product_attr (k : string) : string := k +:+ "_product".
Definition norm_attr (k : string) : string := k +:+ "_norm".

(** One round of the loop over [special_operators] in [__init__]; the loop
    state is the instance and the local dictionary [operators]. *)
Definition handle_special_operator (kwargs : gmap string atom)
    (st : instance * gmap string atom) (on : string)
    : result (instance * gmap string atom) :=
  let '(self, operators) := st in
  (* special operators may not already exist as attributes *)
  assert (negb (hasattr self on));;
  (* special operators must be uniquely given *)
  kw ← getitem kwargs on;
  assert (is_none kw
          || negb (bool_decide (is_Some (operators !! on)))
          || bool_decide (operators !! on = Some kw));;
  let op := if is_none kw then default PyNone (operators !! on) else kw in
  assert (is_none op || isinstance_OperatorInterface op);;
  Ok (setattr self on (Atom op), <[on := op]> operators).

Fixpoint handle_special_operators (kwargs : gmap string atom)
    (special_operators : list string) (st : instance * gmap string atom)
    : result (instance * gmap string atom) :=
  match special_operators with
  | [] => Ok st
  | on :: rest =>
      st' ← handle_special_operator kwargs st on;
      handle_special_operators kwargs rest st'
  end.

(** [all(op is None or op.linear for op in ...)]: stops at the first
    operator that is not linear. *)
Fixpoint all_linear (ops : list atom) : result bool :=
  match ops with
  | [] => Ok true
  | op :: rest =>
      b ← py_or (Ok (is_none op)) (attr_linear op);
      if b : bool then all_linear rest else Ok false
  end.

(** [dict.values()].  The entries come in the order of the keys, while
    Python yields them in the order of insertion; the two orders can give
    different outcomes of [all_linear] only for a mapping that holds both
    a value that is neither [None] nor an |Operator| and an |Operator|
    that is not linear. *)
Definition values (d : gmap string atom) : list atom :=
  (map_to_list d).*2.

(** The loop over [products.items()]. *)
Definition register_product (self : instance) (kv : string * atom) : instance :=
  let '(k, v) := kv in
  setattr (setattr self (product_attr k) (Atom v))
          (norm_attr k) (Atom (induced_norm v)).

(** Truth value of the [products] argument, [None] or a mapping. *)
Definition truthy (products : option (gmap string atom)) : bool :=
  match products with
  | Some d => negb (bool_decide (d = ∅))
  | None => false
  end.

(** [DiscretizationBase.__init__], run on [self] for a class whose
    [special_operators] are iterated in the given order. *)
Definition DiscretizationBase__init__
    (special_operators : list string) (self : instance)
    (operators products : option (gmap string atom))
    (estimator visualizer cache_region name : atom)
    (kwargs : gmap string atom) : result instance :=
  let operators := match operators with None => ∅ | Some d => d end in
  (* handle special operators *)
  '(self, operators) ←
    handle_special_operators kwargs special_operators (self, operators);
  let self := setattr self "operators" (PyDict operators) in
  lin ← all_linear (values operators);
  let self := setattr self "linear" (Atom (PyBool lin)) in
  let self :=
    setattr self "products"
      (PyDict (if truthy products then default ∅ products else ∅)) in
  let self := setattr self "estimator" (Atom estimator) in
  let self := setattr self "visualizer" (Atom visualizer) in
  let self := enable_caching self cache_region in
  let self := setattr self "name" (Atom name) in
  Ok (if truthy products
      then foldl register_product self (map_to_list (default ∅ products))
      else self).

(** The iteration order of the two [special_operators] frozensets is not
    fixed by Python; the source's literal order is taken. *)
Definition special_operators (c : class) : list string :=
  match c with
  | Stationary => ["operator"; "rhs"]
  | Instationary => ["operator"; "mass"; "rhs"; "initial_data"]
  end.

Definition eq_space (a b : VectorSpace) : bool := bool_decide (a = b).

(** [StationaryDiscretization.__init__] *)
Definition StationaryDiscretization__init__
    (operator rhs : atom) (products operators : option (gmap string atom))
    (parameter_space estimator visualizer cache_region name : atom)
    : result instance :=
  self ← DiscretizationBase__init__ (special_operators Stationary)
            (new Stationary) operators products
            estimator visualizer cache_region name
            {[ "operator" := operator; "rhs" := rhs ]};
  space ← getattr self "operator" ≫= attr_source;
  let self := setattr self "solution_space" (Atom (PyVectorSpace space)) in
  a1 ← getattr self "operator";
  a2 ← getattr self "rhs";
  let self := Parametric_build_parameter_type self [a1; a2] ∅ in
  let self := setattr self "parameter_space" (Atom parameter_space) in
  (* operator.source == operator.range == rhs.source *)
  c1 ← (a ← getattr self "operator" ≫= attr_source;
        b ← getattr self "operator" ≫= attr_range;
        py_and (Ok (eq_space a b))
               (c ← getattr self "rhs" ≫= attr_source; Ok (eq_space b c)));
  assert c1;;
  c2 ← py_and
         (a ← getattr self "rhs" ≫= attr_source;
          b ← getattr self "operator" ≫= attr_source;
          Ok (eq_space a b))
         (py_and
            (a ← getattr self "rhs" ≫= attr_range;
             Ok (eq_space a (NumpyVectorSpace 1)))
            (getattr self "rhs" ≫= attr_linear_of));
  assert c2;;
  Ok self.

(** [hasattr(time_stepper, 'nt')] *)
Definition hasattr_nt (a : atom) : bool :=
  match a with
  | PyTimeStepper t => bool_decide (is_Some (nt t))
  | _ => false
  end.

Definition set_of (v : pyval) : result (gset string) :=
  match v with
  | PySet s => Ok s
  | _ => Err TypeError
  end.

Definition dict_of (v : pyval) : result (gmap string atom) :=
  match v with
  | PyDict d => Ok d
  | _ => Err TypeError
  end.

(** [InstationaryDiscretization.__init__] *)
Definition InstationaryDiscretization__init__
    (T initial_data operator rhs mass time_stepper num_values : atom)
    (products operators : option (gmap string atom))
    (parameter_space estimator visualizer cache_region name : atom)
    : result instance :=
  let initial_data :=
    match initial_data with
    | PyVectorArray U => PyOperator (VectorOperator U "initial_data")
    | _ => initial_data
    end in
  self ← DiscretizationBase__init__ (special_operators Instationary)
            (new Instationary) operators products
            estimator visualizer cache_region name
            {[ "initial_data" := initial_data; "operator" := operator;
               "rhs" := rhs; "mass" := mass ]};
  let self := setattr self "T" (Atom T) in
  space ← getattr self "operator" ≫= attr_source;
  let self := setattr self "solution_space" (Atom (PyVectorSpace space)) in
  let self := setattr self "time_stepper" (Atom time_stepper) in
  let self := setattr self "num_values" (Atom num_values) in
  a1 ← getattr self "initial_data";
  a2 ← getattr self "operator";
  a3 ← getattr self "rhs";
  a4 ← getattr self "mass";
  let self :=
    Parametric_build_parameter_type self [a1; a2; a3; a4]
      {[ "_t" := Scalar 0 ]} in
  let self := setattr self "parameter_space" (Atom parameter_space) in
  self ← (if hasattr_nt time_stepper
          then s ← getattr self "add_with_arguments" ≫= set_of;
               Ok (setattr self "add_with_arguments"
                     (PySet (s ∪ {[ "time_stepper_nt" ]})))
          else Ok self);
  assert (isinstance_TimeStepperInterface time_stepper);;
  c1 ← (a ← getattr self "initial_data" ≫= attr_source;
        Ok (eq_space a (NumpyVectorSpace 1)));
  assert c1;;
  c2 ← (a ← getattr self "operator" ≫= attr_source;
        b ← getattr self "operator" ≫= attr_range;
        py_and (Ok (eq_space a b))
               (c ← getattr self "initial_data" ≫= attr_range;
                Ok (eq_space b c)));
  assert c2;;
  c3 ← py_or (is_None <$> getattr self "rhs")
         (py_and (getattr self "rhs" ≫= attr_linear_of)
            (py_and
               (a ← getattr self "rhs" ≫= attr_source;
                b ← getattr self "operator" ≫= attr_source;
                Ok (eq_space a b))
               (a ← getattr self "rhs" ≫= attr_range;
                Ok (eq_space a (NumpyVectorSpace 1)))));
  assert c3;;
  c4 ← py_or (is_None <$> getattr self "mass")
         (py_and (getattr self "mass" ≫= attr_linear_of)
            (a ← getattr self "mass" ≫= attr_source;
             b ← getattr self "mass" ≫= attr_range;
             py_and (Ok (eq_space a b))
                    (c ← getattr self "operator" ≫= attr_source;
                     Ok (eq_space b c))));
  assert c4;;
  Ok self.

(** The parameters of the two [__init__] signatures. *)
Definition init_arguments (c : class) : list string :=
  match c with
  | Stationary =>
      ["operator"; "rhs"; "products"; "operators"; "parameter_space";
       "estimator"; "visualizer"; "cache_region"; "name"]
  | Instationary =>
      ["T"; "initial_data"; "operator"; "rhs"; "mass"; "time_stepper";
       "num_values"; "products"; "operators"; "parameter_space";
       "estimator"; "visualizer"; "cache_region"; "name"]
  end.

(** Binding a keyword argument to a parameter whose default is [None].
    The signatures take a plain value, or [None] or a mapping for
    [products] and [operators]; a value of the other kind is outside them
    and is refused. *)
Definition arg_atom (kwargs : gmap string pyval) (name : string) : result atom :=
  match kwargs !! name with
  | None => Ok PyNone
  | Some (Atom a) => Ok a
  | Some _ => Err TypeError
  end.

Definition arg_dict (kwargs : gmap string pyval) (name : string)
    : result (option (gmap string atom)) :=
  match kwargs !! name with
  | None | Some (Atom PyNone) => Ok None
  | Some (PyDict d) => Ok (Some d)
  | Some _ => Err TypeError
  end.

(** [type(self)] called with the keywords [kwargs]: a keyword that is no
    parameter, or a missing [T], is a [TypeError]. *)
Definition construct (c : class) (kwargs : gmap string pyval) : result instance :=
  (if bool_decide (dom kwargs ⊆ list_to_set (init_arguments c))
   then Ok tt else Err TypeError);;
  products ← arg_dict kwargs "products";
  operators ← arg_dict kwargs "operators";
  parameter_space ← arg_atom kwargs "parameter_space";
  estimator ← arg_atom kwargs "estimator";
  visualizer ← arg_atom kwargs "visualizer";
  cache_region ← arg_atom kwargs "cache_region";
  name ← arg_atom kwargs "name";
  operator ← arg_atom kwargs "operator";
  rhs ← arg_atom kwargs "rhs";
  match c with
  | Stationary =>
      StationaryDiscretization__init__ operator rhs products operators
        parameter_space estimator visualizer cache_region name
  | Instationary =>
      (if bool_decide (is_Some (kwargs !! "T")) then Ok tt else Err TypeError);;
      T ← arg_atom kwargs "T";
      initial_data ← arg_atom kwargs "initial_data";
      mass ← arg_atom kwargs "mass";
      time_stepper ← arg_atom kwargs "time_stepper";
      num_values ← arg_atom kwargs "num_values";
      InstationaryDiscretization__init__ T initial_data operator rhs mass
        time_stepper num_values products operators
        parameter_space estimator visualizer cache_region name
  end.

(** Modelled from the spec: the declared reconfigurable set of an
    instance, the parameters of its constructor extended by its
    [add_with_arguments]. *)
Definition with_arguments (self : instance) : result (gset string) :=
  s ← getattr self "add_with_arguments" ≫= set_of;
  Ok (list_to_set (init_arguments (type_of self)) ∪ s).

(** [kwargs.setdefault(key, v)] *)
Definition setdefault (kwargs : gmap string pyval) (key : string) (v : pyval)
    : gmap string pyval :=
  match kwargs !! key with
  | Some _ => kwargs
  | None => <[key := v]> kwargs
  end.

Fixpoint fill_arguments (self : instance) (args : list string)
    (kwargs : gmap string pyval) : result (gmap string pyval) :=
  match args with
  | [] => Ok kwargs
  | arg :: rest =>
      kwargs ← match kwargs !! arg with
                | Some _ => Ok kwargs
                | None => v ← getattr self arg; Ok (<[arg := v]> kwargs)
                end;
      fill_arguments self rest kwargs
  end.

(** Modelled from the spec: the generic clone operation that
    [DiscretizationBase.with_] delegates to by [super().with_].  It
    refuses an override outside the reconfigurable set, takes every
    constructor argument that is not overridden from the attribute of the
    same name, and constructs a new instance of the same class. *)
Definition ImmutableInterface_with_
    (self : instance) (kwargs : gmap string pyval) : result instance :=
  allowed ← with_arguments self;
  (if bool_decide (dom kwargs ⊆ allowed)
   then Ok tt else Err (Raised "ConstError"));;
  kwargs ← fill_arguments self (init_arguments (type_of self)) kwargs;
  construct (type_of self) kwargs.

(** A dictionary entry of this model is an [atom]: an override of a
    special operator by a mapping or a set, which the constructor would
    refuse by its [isinstance] assertion, is refused here already. *)
Definition atom_of (v : pyval) : result atom :=
  match v with
  | Atom a => Ok a
  | _ => Err AssertionError
  end.

(** [{on: kwargs.get(on, getattr(self, on)) for on in special_operators}];
    the default [getattr(self, on)] is evaluated in every round. *)
Fixpoint special_overrides (self : instance) (kwargs : gmap string pyval)
    (special_operators : list string) : result (gmap string atom) :=
  match special_operators with
  | [] => Ok ∅
  | on :: rest =>
      current ← getattr self on;
      a ← atom_of (default current (kwargs !! on));
      m ← special_overrides self kwargs rest;
      Ok (<[on := a]> m)
  end.

(** [DiscretizationBase.with_] *)
Definition DiscretizationBase_with_
    (self : instance) (kwargs : gmap string pyval) : result instance :=
  allowed ← with_arguments self;
  assert (bool_decide (dom kwargs ⊆ allowed));;
  (* when an operators is not specified but a special operator contained
     in operators, make sure that we use the old operators dict but with
     updated special operators *)
  current ← getattr self "operators";
  overrides ← special_overrides self kwargs (special_operators (type_of self));
  operators ← dict_of current;
  let kwargs := setdefault kwargs "operators" (PyDict (overrides ∪ operators)) in
  (* make sure we do not use old special operators in case operators is
     specified *)
  let kwargs :=
    foldl (fun kw on => setdefault kw on (Atom PyNone)) kwargs
          (special_operators (type_of self)) in
  ImmutableInterface_with_ self kwargs.

(** The bound method [time_stepper.with_]. *)
Definition method_with_ (v : pyval) : result (pyval -> result TimeStepper) :=
  match v with
  | Atom (PyTimeStepper t) => Ok (TimeStepper_with_ t)
  | _ => Err AttributeError
  end.

(** [InstationaryDiscretization.with_] *)
Definition InstationaryDiscretization_with_
    (self : instance) (kwargs : gmap string pyval) : result instance :=
  allowed ← with_arguments self;
  assert (bool_decide (dom kwargs ⊆ allowed));;
  assert (negb (bool_decide (is_Some (kwargs !! "time_stepper_nt")))
          || negb (bool_decide (is_Some (kwargs !! "time_stepper"))));;
  kwargs ← match kwargs !! "time_stepper_nt" with
            | Some value =>
                with_nt ← getattr self "time_stepper" ≫= method_with_;
                stepper ← with_nt value;
                Ok (<["time_stepper" := Atom (PyTimeStepper stepper)]>
                      (delete "time_stepper_nt" kwargs))
            | None => Ok kwargs
            end;
  DiscretizationBase_with_ self kwargs.

(** [self.with_(...)]: the method of the instance's class. *)
Definition with_ (self : instance) (kwargs : gmap string pyval) : result instance :=
  match type_of self with
  | Stationary => DiscretizationBase_with_ self kwargs
  | Instationary => InstationaryDiscretization_with_ self kwargs
  end.
End DiscretizationBase.

(** ** Solving

    [_solve] logs and works on |Parameter| objects, which are mutable: the
    state is the store of these objects and the log written so far. *)

Record state := {
  store : gmap loc Param;
  log : list string;
}.

Definition M (A : Type) : Type := state -> result A * state.

#[global] Instance M_ret : MRet M := fun A a σ => (Ok a, σ).
#[global] Instance M_bind : MBind M := fun A B k m σ =>
  match m σ with
  | (Ok a, σ') => k a σ'
  | (Err e, σ') => (Err e, σ')
  end.

Definition lift {A} (r : result A) : M A := fun σ => (r, σ).

(** A new object with contents [p]. *)
Definition alloc (p : Param) : M loc := fun σ =>
  let l := fresh (dom (store σ)) in
  (Ok l, {| store := <[l := p]> (store σ); log := log σ |}).

(** The contents of an object; a reference always has a target in Python,
    a location outside the store is an error of the model. *)
Definition deref (l : loc) : M Param := fun σ =>
  (match store σ !! l with
   | Some p => Ok p
   | None => Err (Raised "dangling reference")
   end, σ).

(** [mu.copy()] *)
Definition copy (l : loc) : M loc := p ← deref l; alloc p.

(** [mu[key] = v], in place. *)
Definition setitem (l : loc) (key : string) (v : pvalue) : M unit := fun σ =>
  match store σ !! l with
  | Some p =>
      (Ok tt, {| store := <[l := <[key := v]> p]> (store σ); log := log σ |})
  | None => (Err (Raised "dangling reference"), σ)
  end.

(** [self.logger.info(msg)] *)
Definition logger_info (msg : string) : M unit := fun σ =>
  (Ok tt, {| store := store σ; log := log σ ++ [msg] |}).

Section Solve.
Context `{Framework}.

(** [self.parse_parameter(mu)]: the parsed object, allocated when it is a
    new one. *)
Definition Parametric_parse_parameter (self : instance) (mu : option loc) : M loc :=
  fun σ =>
    match parse_parameter self (store σ) mu with
    | Ok (inl l) => (Ok l, σ)
    | Ok (inr p) => alloc p σ
    | Err e => (Err e, σ)
    end.

(** ['Solving {} for {} ...'.format(self.name, mu)] *)
Definition solving_message (self : instance) (mu : loc) : M string :=
  name ← lift (getattr self "name");
  p ← deref mu;
  mret ("Solving " +:+ str_value name +:+ " for " +:+ str_parameter p +:+ " ...").

Definition log_solving (self : instance) (mu : loc) : M unit :=
  if negb (logging_disabled self)
  then solving_message self mu ≫= logger_info
  else mret tt.

(** Bound methods of an |Operator| and of a time-stepper. *)
Definition method_apply_inverse (v : pyval)
    : result (VectorArray -> Param -> result VectorArray) :=
  match v with
  | Atom (PyOperator o) => Ok (apply_inverse o)
  | _ => Err AttributeError
  end.

Definition method_as_source_array (v : pyval) : result (Param -> result VectorArray) :=
  match v with
  | Atom (PyOperator o) => Ok (as_source_array o)
  | _ => Err AttributeError
  end.

Definition method_as_range_array (v : pyval) : result (Param -> result VectorArray) :=
  match v with
  | Atom (PyOperator o) => Ok (as_range_array o)
  | _ => Err AttributeError
  end.

Definition method_solve (v : pyval) :=
  match v with
  | Atom (PyTimeStepper t) => Ok (TimeStepper_solve t)
  | _ => Err AttributeError
  end.

(** [StationaryDiscretization._solve] *)
Definition StationaryDiscretization__solve
    (self : instance) (mu : option loc) : M VectorArray :=
  mu ← Parametric_parse_parameter self mu;
  (* explicitly checking if logging is disabled saves the str(mu) call *)
  log_solving self mu;;
  apply_inverse ← lift (getattr self "operator" ≫= method_apply_inverse);
  as_source_array ← lift (getattr self "rhs" ≫= method_as_source_array);
  p ← deref mu;
  V ← lift (as_source_array p);
  lift (apply_inverse V p).

(** [InstationaryDiscretization._solve] *)
Definition InstationaryDiscretization__solve
    (self : instance) (mu : option loc) : M Trajectory :=
  mu ← Parametric_parse_parameter self mu ≫= copy;
  (* explicitly checking if logging is disabled saves the expensive
     str(mu) call *)
  log_solving self mu;;
  setitem mu "_t" (Scalar 0);;
  as_range_array ← lift (getattr self "initial_data" ≫= method_as_range_array);
  p ← deref mu;
  U0 ← lift (as_range_array p);
  solve ← lift (getattr self "time_stepper" ≫= method_solve);
  operator ← lift (getattr self "operator");
  rhs ← lift (getattr self "rhs");
  mass ← lift (getattr self "mass");
  T ← lift (getattr self "T");
  p ← deref mu;
  num_values ← lift (getattr self "num_values");
  lift (solve operator rhs U0 mass 0%Z T p num_values).

(** [self._solve(mu)]: the method of the instance's class. *)
Definition _solve (self : instance) (mu : option loc)
    : M (VectorArray + Trajectory) :=
  match type_of self with
  | Stationary => U ← StationaryDiscretization__solve self mu; mret (inl U)
  | Instationary => Us ← InstationaryDiscretization__solve self mu; mret (inr Us)
  end.
End Solve.

(** ** Visualizing and estimating

    The methods of the objects a discretization hands work to:
    [visualizer.visualize(U, discretization, **kwargs)] and
    [estimator.estimate(U, mu=mu, discretization=discretization)].  Both
    are arbitrary code: they may raise, log and change parameter objects. *)

Class Delegates `{Collaborators} := {
  Visualizer_visualize :
    pyval -> VectorArray -> instance -> gmap string pyval -> M pyval;
  Estimator_estimate :
    pyval -> VectorArray -> option loc -> instance -> M pyval;
}.

Section Delegation.
Context `{Delegates}.

(** [DiscretizationBase.visualize]; the method has no [return], so it
    yields [None] when the visualizer returns. *)
Definition visualize (self : instance) (U : VectorArray)
    (kwargs : gmap string pyval) : M pyval :=
  visualizer ← lift (getattr self "visualizer");
  if negb (is_None visualizer)
  then Visualizer_visualize visualizer U self kwargs;; mret (Atom PyNone)
  else lift (Err (NotImplementedError "Discretization has no visualizer.")).

(** [DiscretizationBase.estimate] *)
Definition estimate (self : instance) (U : VectorArray) (mu : option loc)
    : M pyval :=
  estimator ← lift (getattr self "estimator");
  if negb (is_None estimator)
  then Estimator_estimate estimator U mu self
  else lift (Err (NotImplementedError "Discretization has no estimator.")).
End Delegation.

(** ** Vocabulary of the statements *)

Section Vocabulary.
Context `{Framework}.

Fixpoint last_char (s : string) : option Ascii.ascii :=
  match s with
  | EmptyString => None
  | String c EmptyString => Some c
  | String _ s' => last_char s'
  end.

(** A name that ends neither like a product attribute nor like a norm
    attribute. *)
Definition plain (name : string) : Prop :=
  last_char name <> Some "t"%char /\ last_char name <> Some "m"%char.

(** The value a special operator is resolved to: the keyword if it is
    not [None], else the entry of the mapping, else [None]. *)
Definition resolved (kwargs operators : gmap string atom) (on : string) : atom :=
  match kwargs !! on with
  | Some kw => if is_none kw then default PyNone (operators !! on) else kw
  | None => PyNone
  end.

(** The instance [DiscretizationBase.__init__] leaves, from the state
    [(self, operators)] after the loop. *)
Definition base_instance (self : instance) (operators : gmap string atom)
    (lin : bool) (products : gmap string atom)
    (estimator visualizer cache_region name : atom) : instance :=
  foldl register_product
    (setattr
       (enable_caching
          (setattr
             (setattr
                (setattr
                   (setattr
                      (setattr self "operators" (PyDict operators))
                      "linear" (Atom (PyBool lin)))
                   "products" (PyDict products))
                "estimator" (Atom estimator))
             "visualizer" (Atom visualizer))
          cache_region)
       "name" (Atom name))
    (map_to_list products).

(** The attributes the base constructor sets under a fixed name. *)
Definition base_names : list string :=
  ["operators"; "linear"; "products"; "estimator"; "visualizer";
   "cache_region"; "name"].

(** [kwargs[on] is None or on not in operators or kwargs[on] == operators[on]] *)
Definition uniquely_given (kw : atom) (operators : gmap string atom)
    (on : string) : bool :=
  is_none kw
  || negb (bool_decide (is_Some (operators !! on)))
  || bool_decide (operators !! on = Some kw).

(** The value of a special operator given as keyword [kw]. *)
Definition resolve (kw : atom) (operators : gmap string atom) (on : string) : atom :=
  if is_none kw then default PyNone (operators !! on) else kw.

(** The space and linearity requirements of a stationary problem. *)
Definition stationary_invariants (L F : Operator) : bool :=
  eq_space (source L) (range L) && eq_space (range L) (source F)
  && eq_space (range F) (NumpyVectorSpace 1) && linear F.

(** The state of the instance when [DiscretizationBase.__init__]
    returns to the stationary constructor. *)
Definition stationary_base (operator rhs : atom) (operators : gmap string atom)
    (lin : bool) (products : gmap string atom)
    (estimator visualizer cache_region name : atom) : instance :=
  base_instance
    (setattr (setattr (new Stationary) "operator" (Atom operator))
             "rhs" (Atom rhs))
    operators lin products estimator visualizer cache_region name.

Definition stationary_instance (L F : Operator) (operators : gmap string atom)
    (lin : bool) (products : gmap string atom)
    (parameter_space estimator visualizer cache_region name : atom) : instance :=
  setattr
    (Parametric_build_parameter_type
       (setattr
          (stationary_base (PyOperator L) (PyOperator F) operators lin
             products estimator visualizer cache_region name)
          "solution_space" (Atom (PyVectorSpace (source L))))
       [Atom (PyOperator L); Atom (PyOperator F)] ∅)
    "parameter_space" (Atom parameter_space).

(** [initial_data] after the wrapping of a raw |VectorArray|. *)
Definition wrap_initial_data (initial_data : atom) : atom :=
  match initial_data with
  | PyVectorArray U => PyOperator (VectorOperator U "initial_data")
  | _ => initial_data
  end.

(** What is required of [rhs] and of [mass] when they are given. *)
Definition rhs_invariant (L : Operator) (rhs : atom) : bool :=
  match rhs with
  | PyNone => true
  | PyOperator F =>
      linear F && eq_space (source F) (source L)
      && eq_space (range F) (NumpyVectorSpace 1)
  | _ => false
  end.

Definition mass_invariant (L : Operator) (mass : atom) : bool :=
  match mass with
  | PyNone => true
  | PyOperator M =>
      linear M && eq_space (source M) (range M)
      && eq_space (range M) (source L)
  | _ => false
  end.

Definition instationary_invariants (L I : Operator) (rhs mass : atom) : bool :=
  eq_space (source I) (NumpyVectorSpace 1)
  && eq_space (source L) (range L) && eq_space (range L) (range I)
  && rhs_invariant L rhs && mass_invariant L mass.

(** The state of the instance when [DiscretizationBase.__init__]
    returns to the instationary constructor. *)
Definition instationary_base (operator mass rhs initial_data : atom)
    (operators : gmap string atom) (lin : bool) (products : gmap string atom)
    (estimator visualizer cache_region name : atom) : instance :=
  base_instance
    (setattr
       (setattr
          (setattr (setattr (new Instationary) "operator" (Atom operator))
                   "mass" (Atom mass))
          "rhs" (Atom rhs))
       "initial_data" (Atom initial_data))
    operators lin products estimator visualizer cache_region name.

Definition instationary_instance (L I : Operator) (rhs mass : atom)
    (stepper : TimeStepper) (operators : gmap string atom) (lin : bool)
    (products : gmap string atom)
    (T num_values parameter_space estimator visualizer cache_region name : atom)
    : instance :=
  let self :=
    setattr
      (Parametric_build_parameter_type
         (setattr
            (setattr
               (setattr
                  (setattr
                     (instationary_base (PyOperator L) mass rhs (PyOperator I)
                        operators lin products
                        estimator visualizer cache_region name)
                     "T" (Atom T))
                  "solution_space" (Atom (PyVectorSpace (source L))))
               "time_stepper" (Atom (PyTimeStepper stepper)))
            "num_values" (Atom num_values))
         [Atom (PyOperator I); Atom (PyOperator L); Atom rhs; Atom mass]
         {[ "_t" := Scalar 0 ]})
      "parameter_space" (Atom parameter_space) in
  if bool_decide (is_Some (nt stepper))
  then setattr self "add_with_arguments" (PySet (∅ ∪ {[ "time_stepper_nt" ]}))
  else self.

(** An entry of the mapping counts as linear when it is [None] or a linear
    operator. *)
Definition counts_as_linear (a : atom) : bool :=
  match a with
  | PyNone => true
  | PyOperator o => linear o
  | _ => false
  end.

(** The requirements as the constructor's assertions state them. *)
Definition stationary_requirements (operator rhs : atom) : Prop :=
  exists L F,
    operator = PyOperator L /\ rhs = PyOperator F /\
    source L = range L /\ range L = source F /\
    range F = NumpyVectorSpace 1 /\ linear F = true.

(** An instance that one of the two constructors returned. *)
Inductive constructed : instance -> Prop :=
| constructed_stationary operator rhs products operators
    parameter_space estimator visualizer cache_region name d :
    StationaryDiscretization__init__ operator rhs products operators
      parameter_space estimator visualizer cache_region name = Ok d ->
    constructed d
| constructed_instationary T initial_data operator rhs mass time_stepper
    num_values products operators
    parameter_space estimator visualizer cache_region name d :
    InstationaryDiscretization__init__ T initial_data operator rhs mass
      time_stepper num_values products operators
      parameter_space estimator visualizer cache_region name = Ok d ->
    constructed d.

(** The two shapes of a constructed instance. *)
Inductive canonical : instance -> Prop :=
| canonical_stationary L F ops lin P ps est vis cr nm :
    ops !! "operator" = Some (PyOperator L) ->
    ops !! "rhs" = Some (PyOperator F) ->
    all_linear (values ops) = Ok lin ->
    stationary_invariants L F = true ->
    canonical (stationary_instance L F ops lin P ps est vis cr nm)
| canonical_instationary L I r m stepper ops lin P T nv ps est vis cr nm :
    ops !! "operator" = Some (PyOperator L) ->
    ops !! "mass" = Some m ->
    ops !! "rhs" = Some r ->
    ops !! "initial_data" = Some (PyOperator I) ->
    all_linear (values ops) = Ok lin ->
    instationary_invariants L I r m = true ->
    canonical (instationary_instance L I r m stepper ops lin P T nv ps est vis cr nm).

(** The operators mapping of [d] and the like-named attribute agree on the
    special operator [on]. *)
Definition special_operator_agrees (d : instance) (on : string) : Prop :=
  exists ops a,
    getattr d "operators" = Ok (PyDict ops) /\
    ops !! on = Some a /\
    getattr d on = Ok (Atom a).

(** [products[k]] is exposed as the attributes [k_product] and [k_norm]. *)
Definition product_exposed (d : instance) (k : string) (v : atom) : Prop :=
  getattr d (product_attr k) = Ok (Atom v) /\
  getattr d (norm_attr k) = Ok (Atom (induced_norm v)) /\
  exists P, getattr d "products" = Ok (PyDict P) /\ P !! k = Some v.

(** The keywords of [with_(rhs=new_rhs)], or of [with_()]. *)
Definition rhs_override (new_rhs : option atom) : gmap string pyval :=
  match new_rhs with
  | Some N => {[ "rhs" := Atom N ]}
  | None => ∅
  end.

(** The keywords of a [with_] call that overrides [rhs], [time_stepper],
    both or nothing. *)
Definition instationary_override (new_rhs new_stepper : option atom)
    : gmap string pyval :=
  match new_rhs, new_stepper with
  | Some N, Some t => {[ "rhs" := Atom N; "time_stepper" := Atom t ]}
  | Some N, None => {[ "rhs" := Atom N ]}
  | None, Some t => {[ "time_stepper" := Atom t ]}
  | None, None => ∅
  end.

(** [d] is what a constructor returned when called with the given
    estimator and visualizer, whatever the other arguments. *)
Definition constructed_with (estimator visualizer : atom) (d : instance) : Prop :=
  (exists operator rhs products operators parameter_space cache_region name,
     StationaryDiscretization__init__ operator rhs products operators
       parameter_space estimator visualizer cache_region name = Ok d) \/
  (exists T initial_data operator rhs mass time_stepper num_values
          products operators parameter_space cache_region name,
     InstationaryDiscretization__init__ T initial_data operator rhs mass
       time_stepper num_values products operators
       parameter_space estimator visualizer cache_region name = Ok d).

(** What [InstationaryDiscretization.__init__] asserts of [rhs] and of
    [mass], each of which may be [None]. *)
Definition rhs_admissible (L : Operator) (rhs : atom) : Prop :=
  rhs = PyNone \/
  exists F, rhs = PyOperator F /\ linear F = true /\
            source F = source L /\ range F = NumpyVectorSpace 1.

Definition mass_admissible (L : Operator) (mass : atom) : Prop :=
  mass = PyNone \/
  exists Mo, mass = PyOperator Mo /\ linear Mo = true /\
             source Mo = range Mo /\ range Mo = source L.

(** What [InstationaryDiscretization.__init__] asserts of its arguments
    when every special operator is given by its keyword; [I] is the
    initial data as an operator, wrapped when a |VectorArray| is given. *)
Definition instationary_requirements
    (initial_data operator rhs mass time_stepper : atom) : Prop :=
  exists L I stepper,
    operator = PyOperator L /\
    (initial_data = PyOperator I \/
     exists U, initial_data = PyVectorArray U /\
               I = VectorOperator U "initial_data") /\
    time_stepper = PyTimeStepper stepper /\
    source I = NumpyVectorSpace 1 /\
    source L = range L /\ range L = range I /\
    rhs_admissible L rhs /\ mass_admissible L mass.

(** A special operator given by keyword and, differently, in the
    [operators] argument. *)
Definition conflicting (kw : atom) (operators : gmap string atom)
    (on : string) : Prop :=
  kw <> PyNone /\ exists a, operators !! on = Some a /\ a <> kw.

(** A value that is neither [None] nor an |Operator|. *)
Definition not_an_operator (a : atom) : Prop :=
  a <> PyNone /\ forall o, a <> PyOperator o.
End Vocabulary.

(** ** A small concrete world

    Spaces are their dimensions and vector arrays are lists of integers. *)

Module Example.
Inductive operator :=
| Identity (dim : nat)
| Functional (dim : nat) (c : Z)
| Vector (dim : nat) (c : Z)
| Cubic (dim : nat)
| Wrapped (U : list Z) (name : string).

Inductive stepper :=
| FixedSteps (n : Z)
| Adaptive.

#[global] Instance operator_eq_dec : EqDecision operator.
Proof. solve_decision. Defined.
#[global] Instance stepper_eq_dec : EqDecision stepper.
Proof. solve_decision. Defined.

Definition op_source (o : operator) : nat :=
  match o with
  | Identity n | Functional n _ | Cubic n => n
  | Vector _ _ | Wrapped _ _ => 1
  end.

Definition op_range (o : operator) : nat :=
  match o with
  | Identity n | Cubic n | Vector n _ => n
  | Functional _ _ => 1
  | Wrapped U _ => length U
  end.

Definition op_linear (o : operator) : bool :=
  match o with Cubic _ => false | _ => true end.

Definition op_apply_inverse (o : operator) (V : list Z) (mu : Param)
    : result (list Z) :=
  match o with
  | Identity _ => Ok V
  | _ => Err (Raised "InversionError")
  end.

Definition op_as_source_array (o : operator) (mu : Param) : result (list Z) :=
  match o with
  | Functional n c => Ok (replicate n c)
  | _ => Err TypeError
  end.

Definition op_as_range_array (o : operator) (mu : Param) : result (list Z) :=
  match o with
  | Vector n c => Ok (replicate n c)
  | Wrapped U _ => Ok U
  | _ => Err TypeError
  end.

#[global] Instance collaborators : Collaborators := {|
  Operator := operator;
  VectorArray := list Z;
  VectorSpace := nat;
  TimeStepper := stepper;
  ParameterType := list string;
  Trajectory := list (list Z);
  NumpyVectorSpace := fun dim => dim;
  source := op_source;
  range := op_range;
  linear := op_linear;
  apply_inverse := op_apply_inverse;
  as_source_array := op_as_source_array;
  as_range_array := op_as_range_array;
  VectorOperator := Wrapped;
  nt := fun t => match t with FixedSteps n => Some n | Adaptive => None end;
|}.

(** The stepper of this world returns the initial data and the time it
    was started at, as it finds it in [mu]. *)
Definition stepper_solve (t : stepper) (operator rhs : pyval) (U0 : list Z)
    (mass : pyval) (initial_time : Z) (end_time : pyval) (mu : Param)
    (num_values : pyval) : result (list (list Z)) :=
  match mu !! "_t" with
  | Some (Scalar t0) => Ok [U0; [t0]]
  | _ => Err KeyError
  end.

#[global] Instance framework : Framework := {|
  build_parameter_type := fun _ provides => (map_to_list provides).*1;
  parse_parameter := fun _ _ mu =>
    match mu with
    | Some l => Ok (inl l)
    | None => Ok (inr ∅)
    end;
  logging_disabled := fun _ => false;
  str_value := fun v => match v with Atom (PyStr s) => s | _ => "None" end;
  str_parameter := fun _ => "{}";
  TimeStepper_with_ := fun _ v =>
    match v with
    | Atom (PyNum n) => Ok (FixedSteps n)
    | _ => Err TypeError
    end;
  TimeStepper_solve := stepper_solve;
|}.

Definition L : atom := PyOperator (Identity 2).
Definition F : atom := PyOperator (Functional 2 7).
Definition G : atom := PyOperator (Functional 2 9).
Definition u0 : atom := PyOperator (Vector 2 5).

(** [StationaryDiscretization(L, F, name='d')] *)
Definition stationary : result instance :=
  StationaryDiscretization__init__ L F None None
    PyNone PyNone PyNone PyNone (PyStr "d").

(** The instance a constructor call returned. *)
Definition returned (c : class) (r : result instance) : instance :=
  match r with
  | Ok d => d
  | Err _ => new c
  end.

Definition d_stationary : instance := returned Stationary stationary.

(** [InstationaryDiscretization(1, u0, L, F, time_stepper=stepper,
    products={'h1': L}, name='i')] *)
Definition instationary (stepper : stepper) : result instance :=
  InstationaryDiscretization__init__ (PyNum 1) u0 L F PyNone
    (PyTimeStepper stepper) PyNone (Some {[ "h1" := L ]}) None
    PyNone PyNone PyNone PyNone (PyStr "i").

Definition fixed : atom := PyTimeStepper (FixedSteps 10).
Definition adaptive : atom := PyTimeStepper Adaptive.
Definition h1 : gmap string atom := {[ "h1" := L ]}.

(** [d.with_(rhs=G)] *)
Definition d_stationary_G : instance :=
  returned Stationary
    (StationaryDiscretization__init__ L G None None
       PyNone PyNone PyNone PyNone (PyStr "d")).

Definition d_fixed : instance := returned Instationary (instationary (FixedSteps 10)).
Definition d_adaptive : instance := returned Instationary (instationary Adaptive).

(** A visualizer that logs and returns the length of [U], and an
    estimator that returns 0; no other object has these methods. *)
#[global] Instance delegates : Delegates := {|
  Visualizer_visualize := fun v U d kwargs =>
    if decide (v = Atom (PyObject "plot"))
    then logger_info "plot";; mret (Atom (PyNum (Z.of_nat (length U))))
    else lift (Err AttributeError);
  Estimator_estimate := fun v U mu d =>
    if decide (v = Atom (PyObject "residual"))
    then mret (Atom (PyNum 0))
    else lift (Err AttributeError);
|}.

Definition plot : atom := PyObject "plot".
Definition residual : atom := PyObject "residual".

(** [StationaryDiscretization(L, F, estimator=residual, visualizer=plot,
    name='p')] *)
Definition d_plotted : instance :=
  returned Stationary
    (StationaryDiscretization__init__ L F None None
       PyNone residual plot PyNone (PyStr "p")).

(** [InstationaryDiscretization(1, [5, 5], L, time_stepper=fixed,
    name='w')], the initial data given as a |VectorArray| *)
Definition d_wrapped : instance :=
  returned Instationary
    (InstationaryDiscretization__init__ (PyNum 1) (PyVectorArray [5; 5]%Z)
       L PyNone PyNone fixed PyNone None None
       PyNone PyNone PyNone PyNone (PyStr "w")).

(** [StationaryDiscretization(L, F, operators={'extra': G}, name='e')] *)
Definition extra : gmap string atom := {[ "extra" := G ]}.
Definition d_extra : instance :=
  returned Stationary
    (StationaryDiscretization__init__ L F None (Some extra)
       PyNone PyNone PyNone PyNone (PyStr "e")).

(** The state before any solve: no parameter object, an empty log. *)
Definition initial : state := {| store := ∅; log := [] |}.

(** The operators mapping of [d_stationary]. *)
Definition both : gmap string atom :=
  <["rhs" := F]> (<["operator" := L]> ∅).
End Example.

(** * Properties *)

(** ** The error monad *)

Lemma bind_Ok {A B} (m : result A) (k : A -> result B) (b : B) :
  m ≫= k = Ok b <-> exists a, m = Ok a /\ k a = Ok b.
Proof.
  destruct m as [a|e]; simpl; split.
  - intros Hk. by exists a.
  - by intros (a' & [= <-] & Hk).
  - done.
  - by intros (a' & ? & _).
Qed.

Lemma fmap_Ok {A B} (f : A -> B) (m : result A) (b : B) :
  f <$> m = Ok b <-> exists a, m = Ok a /\ b = f a.
Proof.
  destruct m as [a|e]; simpl; split.
  - intros [= <-]. by exists a.
  - by intros (a' & [= <-] & ->).
  - done.
  - by intros (a' & ? & _).
Qed.

Lemma assert_Ok (b : bool) (u : unit) : assert b = Ok u <-> b = true.
Proof. destruct b, u; simpl; split; done. Qed.

Lemma py_and_Ok (x y : result bool) (b : bool) :
  py_and x y = Ok b <->
  (x = Ok true /\ y = Ok b) \/ (x = Ok false /\ b = false).
Proof.
  unfold py_and. destruct x as [[]|e]; simpl; intuition congruence.
Qed.

Lemma py_or_Ok (x y : result bool) (b : bool) :
  py_or x y = Ok b <->
  (x = Ok true /\ b = true) \/ (x = Ok false /\ y = Ok b).
Proof.
  unfold py_or. destruct x as [[]|e]; simpl; intuition congruence.
Qed.

Ltac inv_result :=
  repeat match goal with
  | H : Ok _ = Ok _ |- _ => injection H as H; try subst
  | H : Ok _ = Err _ |- _ => discriminate H
  | H : Err _ = Ok _ |- _ => discriminate H
  | H : _ ≫= _ = Ok _ |- _ =>
      let a := fresh "a" in let Ha := fresh "Ha" in
      apply bind_Ok in H as (a & Ha & H)
  | H : assert _ = Ok _ |- _ => apply assert_Ok in H
  end.

(** ** Attribute names *)

Lemma last_char_app (s : string) (c : Ascii.ascii) (t : string) :
  last_char (s +:+ String c t) = last_char (String c t).
Proof.
  induction s as [|a s IH]; [done|].
  change (String a s +:+ String c t) with (String a (s +:+ String c t)).
  rewrite <- IH. simpl. by destruct s.
Qed.

Lemma length_append (s t : string) :
  String.length (s +:+ t) = String.length s + String.length t.
Proof. induction s as [|a s IH]; simpl; [done|]. by rewrite <- IH. Qed.

Lemma append_inj_l (s s' t : string) : s +:+ t = s' +:+ t -> s = s'.
Proof.
  revert s'. induction s as [|a s IH]; intros [|a' s'] Heq; [done| | |].
  - apply (f_equal String.length) in Heq.
    rewrite !length_append in Heq. simpl in Heq. lia.
  - apply (f_equal String.length) in Heq.
    rewrite !length_append in Heq. simpl in Heq. lia.
  - injection Heq as -> Heq. f_equal. by apply IH.
Qed.

Lemma product_attr_last (k : string) : last_char (product_attr k) = Some "t"%char.
Proof. unfold product_attr. by rewrite last_char_app. Qed.

Lemma norm_attr_last (k : string) : last_char (norm_attr k) = Some "m"%char.
Proof. unfold norm_attr. by rewrite last_char_app. Qed.

Lemma plain_not_product (name k : string) : plain name -> product_attr k <> name.
Proof. intros [Ht _] <-. by rewrite product_attr_last in Ht. Qed.

Lemma plain_not_norm (name k : string) : plain name -> norm_attr k <> name.
Proof. intros [_ Hm] <-. by rewrite norm_attr_last in Hm. Qed.

Lemma product_not_norm (k k' : string) : product_attr k <> norm_attr k'.
Proof.
  intros Heq. apply (f_equal last_char) in Heq.
  by rewrite product_attr_last, norm_attr_last in Heq.
Qed.

Lemma product_attr_inj (k k' : string) : product_attr k = product_attr k' -> k = k'.
Proof. apply append_inj_l. Qed.

Lemma norm_attr_inj (k k' : string) : norm_attr k = norm_attr k' -> k = k'.
Proof. apply append_inj_l. Qed.

Ltac plain := split; vm_compute; congruence.

Section Attributes.
Context `{Framework}.

(** ** Attributes *)

Lemma getattr_dict (self : instance) (name : string) (v : pyval) :
  __dict__ self !! name = Some v -> getattr self name = Ok v.
Proof. unfold getattr. by intros ->. Qed.

Lemma dict_setattr (self : instance) (name n : string) (v : pyval) :
  __dict__ (setattr self name v) !! n
  = if decide (name = n) then Some v else __dict__ self !! n.
Proof. simpl. apply lookup_insert. Qed.

Lemma dict_setattr_eq (self : instance) (name : string) (v : pyval) :
  __dict__ (setattr self name v) !! name = Some v.
Proof. simpl. apply lookup_insert_eq. Qed.

Lemma dict_setattr_ne (self : instance) (name n : string) (v : pyval) :
  name <> n -> __dict__ (setattr self name v) !! n = __dict__ self !! n.
Proof. intros Hne. simpl. by apply lookup_insert_ne. Qed.

Lemma hasattr_setattr (self : instance) (name : string) (v : pyval) :
  hasattr (setattr self name v) name = true.
Proof.
  unfold hasattr. rewrite dict_setattr_eq.
  rewrite bool_decide_eq_true_2; [done | by eexists].
Qed.

Lemma hasattr_setattr_ne (self : instance) (name n : string) (v : pyval) :
  name <> n -> hasattr (setattr self name v) n = hasattr self n.
Proof. intros Hne. unfold hasattr. by rewrite dict_setattr_ne. Qed.

(** ** The loop over the special operators *)

Lemma handle_special_operator_Ok kwargs self ops on self' ops' :
  handle_special_operator kwargs (self, ops) on = Ok (self', ops') ->
  hasattr self on = false /\
  is_Some (kwargs !! on) /\
  is_none (resolved kwargs ops on)
    || isinstance_OperatorInterface (resolved kwargs ops on) = true /\
  self' = setattr self on (Atom (resolved kwargs ops on)) /\
  ops' = <[on := resolved kwargs ops on]> ops.
Proof.
  unfold handle_special_operator, resolved, getitem. intros Hstep.
  inv_result. destruct (kwargs !! on) as [kw|]; [|done].
  inv_result. repeat split; try done. by apply negb_true_iff.
Qed.

Lemma handle_special_operators_spec kwargs sp : forall self ops self' ops',
  handle_special_operators kwargs sp (self, ops) = Ok (self', ops') ->
  type_of self' = type_of self /\
  NoDup sp /\
  (forall on, on ∈ sp ->
     hasattr self on = false /\
     is_Some (kwargs !! on) /\
     is_none (resolved kwargs ops on)
       || isinstance_OperatorInterface (resolved kwargs ops on) = true /\
     __dict__ self' !! on = Some (Atom (resolved kwargs ops on)) /\
     ops' !! on = Some (resolved kwargs ops on)) /\
  (forall n, n ∉ sp ->
     __dict__ self' !! n = __dict__ self !! n /\ ops' !! n = ops !! n).
Proof.
  induction sp as [|on sp IH]; intros self ops self' ops' Hloop; simpl in Hloop.
  - inv_result. repeat split; try done; [apply NoDup_nil_2 | set_solver..].
  - apply bind_Ok in Hloop as ([self1 ops1] & Ha & Hloop).
    apply handle_special_operator_Ok in Ha as (Hfresh & Hkw & Hop & -> & ->).
    apply IH in Hloop as (Hty & Hnd & Hin & Hout).
    assert (Hnotin : on ∉ sp).
    { intros Hon. destruct (Hin on Hon) as (Hf & _).
      by rewrite hasattr_setattr in Hf. }
    split; [done|]. split; [by constructor|]. split.
    + intros on' [->|Hon']%elem_of_cons.
      * destruct (Hout on Hnotin) as (Hd & Ho).
        rewrite Hd, Ho, dict_setattr_eq, lookup_insert_eq. done.
      * assert (on <> on') by congruence.
        destruct (Hin on' Hon') as (Hf & ? & Hr & Hd & Ho).
        rewrite hasattr_setattr_ne in Hf by done.
        assert (resolved kwargs (<[on:=resolved kwargs ops on]> ops) on'
                = resolved kwargs ops on') as Hsame.
        { unfold resolved. by rewrite lookup_insert_ne. }
        rewrite Hsame in *. done.
    + intros n [Hne Hn]%not_elem_of_cons.
      destruct (Hout n Hn) as (Hd & Ho).
      rewrite Hd, Ho, dict_setattr_ne, lookup_insert_ne; done.
Qed.

(** ** Registering the products *)

Lemma register_products_type l : forall self,
  type_of (foldl register_product self l) = type_of self.
Proof.
  induction l as [|[k v] l IH]; intros self; simpl; [done|]. by rewrite IH.
Qed.

Lemma register_products_plain l name : forall self,
  plain name ->
  __dict__ (foldl register_product self l) !! name = __dict__ self !! name.
Proof.
  induction l as [|[k v] l IH]; intros self Hplain; [done|].
  cbn [foldl]. rewrite IH by done. unfold register_product.
  rewrite !dict_setattr_ne;
    [done | by apply plain_not_product | by apply plain_not_norm].
Qed.

Lemma register_products_other l k : forall self,
  k ∉ l.*1 ->
  __dict__ (foldl register_product self l) !! product_attr k
    = __dict__ self !! product_attr k /\
  __dict__ (foldl register_product self l) !! norm_attr k
    = __dict__ self !! norm_attr k.
Proof.
  induction l as [|[k' v'] l IH]; intros self Hk; [done|].
  simpl in Hk. apply not_elem_of_cons in Hk as [Hne Hk].
  cbn [foldl]. destruct (IH (register_product self (k', v')) Hk) as [-> ->].
  unfold register_product. split.
  - rewrite !dict_setattr_ne; [done | | ].
    + intros ?%product_attr_inj. by subst.
    + intros Heq. by apply (product_not_norm k k').
  - rewrite !dict_setattr_ne; [done | | ].
    + apply product_not_norm.
    + intros ?%norm_attr_inj. by subst.
Qed.

Lemma register_products_lookup l k v : forall self,
  NoDup l.*1 -> (k, v) ∈ l ->
  __dict__ (foldl register_product self l) !! product_attr k = Some (Atom v) /\
  __dict__ (foldl register_product self l) !! norm_attr k
    = Some (Atom (induced_norm v)).
Proof.
  induction l as [|[k' v'] l IH]; intros self Hnd Hin.
  - by apply elem_of_nil in Hin.
  - simpl in Hnd. apply NoDup_cons in Hnd as [Hk' Hnd].
    apply elem_of_cons in Hin as [[= <- <-]|Hin].
    + cbn [foldl]. destruct (register_products_other l k
        (register_product self (k, v)) Hk') as [-> ->].
      unfold register_product. split.
      * rewrite dict_setattr_ne, dict_setattr_eq; [done|].
        intros Heq. by apply (product_not_norm k k).
      * by rewrite dict_setattr_eq.
    + cbn [foldl]. by apply IH.
Qed.

(** ** The base constructor *)

Lemma truthy_default (products : option (gmap string atom)) :
  (if truthy products then default ∅ products else ∅) = default ∅ products.
Proof.
  destruct products as [d|]; simpl; [|done].
  case_bool_decide; simpl; by subst.
Qed.

Lemma truthy_register (products : option (gmap string atom)) (s : instance) :
  (if truthy products
   then foldl register_product s (map_to_list (default ∅ products))
   else s)
  = foldl register_product s (map_to_list (default ∅ products)).
Proof.
  destruct products as [P|]; simpl; [|by rewrite map_to_list_empty].
  case_bool_decide; simpl; [|done]. subst. by rewrite map_to_list_empty.
Qed.

Lemma DiscretizationBase__init__iff sp self operators products
    estimator visualizer cache_region name kwargs d :
  DiscretizationBase__init__ sp self operators products
    estimator visualizer cache_region name kwargs = Ok d
  <-> exists self1 ops1 lin,
    handle_special_operators kwargs sp (self, default ∅ operators)
      = Ok (self1, ops1) /\
    all_linear (values ops1) = Ok lin /\
    d = base_instance self1 ops1 lin (default ∅ products)
          estimator visualizer cache_region name.
Proof.
  unfold DiscretizationBase__init__, base_instance.
  replace (match operators with Some d0 => d0 | None => ∅ end)
    with (default ∅ operators) by by destruct operators.
  split.
  - intros Hinit. apply bind_Ok in Hinit as ([self1 ops1] & Hloop & Hinit).
    apply bind_Ok in Hinit as (lin & Hlin & [= <-]).
    exists self1, ops1, lin. by rewrite truthy_register, truthy_default.
  - intros (self1 & ops1 & lin & -> & Hlin & ->). simpl.
    rewrite Hlin. simpl. by rewrite truthy_register, truthy_default.
Qed.

(** ** Evaluating attribute reads *)

Lemma getattr_class (self : instance) (name : string) (v : pyval) :
  __dict__ self !! name = None -> class_dict !! name = Some v ->
  getattr self name = Ok v.
Proof. unfold getattr. by intros -> ->. Qed.

Lemma class_dict_add_with_arguments :
  class_dict !! "add_with_arguments" = Some (PySet ∅).
Proof. reflexivity. Qed.

Lemma hasattr_new (c : class) (name : string) :
  class_dict !! name = None -> hasattr (new c) name = false.
Proof.
  intros Hcls. unfold hasattr. rewrite Hcls. simpl.
  rewrite lookup_empty. rewrite !bool_decide_eq_false_2; [done|..];
    by intros [? ?].
Qed.

Lemma class_dict_special (c : class) (on : string) :
  on ∈ special_operators c -> class_dict !! on = None.
Proof.
  destruct c; simpl; rewrite !elem_of_cons, elem_of_nil;
    intros Hon; destruct_or!; subst; done.
Qed.

Lemma py_and_pure (x y : bool) : py_and (Ok x) (Ok y) = Ok (x && y).
Proof. by destruct x. Qed.

Lemma py_or_pure (x y : bool) : py_or (Ok x) (Ok y) = Ok (x || y).
Proof. by destruct x. Qed.

Lemma base_instance_other self ops lin P est vis cr nm (n : string) :
  plain n -> n ∉ base_names ->
  __dict__ (base_instance self ops lin P est vis cr nm) !! n
  = __dict__ self !! n.
Proof.
  intros Hplain Hn. unfold base_instance, enable_caching.
  rewrite register_products_plain by done.
  unfold base_names in Hn. rewrite !not_elem_of_cons in Hn.
  destruct Hn as (? & ? & ? & ? & ? & ? & ? & _).
  by rewrite !dict_setattr_ne by done.
Qed.

Lemma base_instance_table self ops lin P est vis cr nm :
  let d := base_instance self ops lin P est vis cr nm in
  __dict__ d !! "operators" = Some (PyDict ops) /\
  __dict__ d !! "linear" = Some (Atom (PyBool lin)) /\
  __dict__ d !! "products" = Some (PyDict P) /\
  __dict__ d !! "estimator" = Some (Atom est) /\
  __dict__ d !! "visualizer" = Some (Atom vis) /\
  __dict__ d !! "cache_region" = Some (Atom cr) /\
  __dict__ d !! "name" = Some (Atom nm).
Proof.
  unfold base_instance, enable_caching. cbn zeta.
  rewrite !register_products_plain by plain.
  repeat split;
    repeat first [ rewrite dict_setattr_eq
                 | rewrite dict_setattr_ne by discriminate ]; done.
Qed.

Lemma base_instance_type self ops lin P est vis cr nm :
  type_of (base_instance self ops lin P est vis cr nm) = type_of self.
Proof. unfold base_instance. by rewrite register_products_type. Qed.

End Attributes.

(** Solves [__dict__ X !! name = Some _] or [= None] for [X] a stack of
    [setattr] on an instance whose entry is among the hypotheses. *)
Ltac dict_lookup :=
  unfold enable_caching, Parametric_build_parameter_type;
  repeat first
    [ rewrite dict_setattr_eq
    | rewrite dict_setattr_ne by discriminate ];
  first [ eassumption | reflexivity ].

(** Rewrites the reads [getattr X name] of the goal. *)
Ltac eval_getattr :=
  repeat match goal with
  | |- context [getattr ?X ?n] =>
      erewrite (getattr_dict X n) by dict_lookup
  end.

Ltac run :=
  repeat progress
    (eval_getattr;
     cbn [mbind result_bind fmap result_fmap
          attr_source attr_range attr_linear_of attr_linear is_None]).

Ltac eval_hasattr :=
  repeat first
    [ rewrite hasattr_setattr_ne by discriminate
    | rewrite hasattr_new by reflexivity ].

Ltac kw_lookup :=
  repeat first
    [ rewrite lookup_insert_eq
    | rewrite lookup_singleton_eq
    | rewrite lookup_insert_ne by discriminate ];
  try reflexivity.

(** Splits the boolean tests of the goal one after the other. *)
Ltac split_tests :=
  repeat (match goal with
          | |- context [if ?b then _ else _] => destruct b eqn:?
          end;
          cbn [mbind result_bind andb orb
               attr_source attr_range attr_linear_of attr_linear];
          try done).

Section LoopRounds.
Context `{Framework}.

Lemma handle_special_operator_iff kwargs self ops on st :
  handle_special_operator kwargs (self, ops) on = Ok st
  <-> hasattr self on = false /\
      (exists kw, kwargs !! on = Some kw /\ uniquely_given kw ops on = true) /\
      is_none (resolved kwargs ops on)
        || isinstance_OperatorInterface (resolved kwargs ops on) = true /\
      st = (setattr self on (Atom (resolved kwargs ops on)),
            <[on := resolved kwargs ops on]> ops).
Proof.
  unfold handle_special_operator, resolved, uniquely_given, getitem. split.
  - intros Hstep. inv_result. destruct (kwargs !! on) as [kw|]; [|done].
    inv_result. repeat split; try done; [by apply negb_true_iff | by eexists].
  - intros (Hfresh & (kw & -> & Hu) & Hop & ->).
    rewrite Hfresh. simpl. rewrite Hu. simpl. by rewrite Hop.
Qed.

Lemma resolved_resolve kwargs ops on kw :
  kwargs !! on = Some kw -> resolved kwargs ops on = resolve kw ops on.
Proof. unfold resolved, resolve. by intros ->. Qed.

Lemma resolve_insert_ne kw ops on on' x :
  on' <> on -> resolve kw (<[on' := x]> ops) on = resolve kw ops on.
Proof. intros Hne. unfold resolve. by rewrite lookup_insert_ne. Qed.

Lemma uniquely_given_insert_ne kw ops on on' x :
  on' <> on -> uniquely_given kw (<[on' := x]> ops) on = uniquely_given kw ops on.
Proof. intros Hne. unfold uniquely_given. by rewrite lookup_insert_ne. Qed.

End LoopRounds.

(** Inverts one round of the loop in [H]. *)
Ltac loop_step H :=
  let st := fresh "st" in let Hstep := fresh "Hstep" in
  let kw := fresh "kw" in let Hkw := fresh "Hkw" in
  apply bind_Ok in H as (st & Hstep & H);
  apply handle_special_operator_iff in Hstep as (_ & (kw & Hkw & ?) & ? & ->);
  rewrite (resolved_resolve _ _ _ _ Hkw) in *;
  revert Hkw; kw_lookup; intros [= <-].

(** Runs one round of the loop forwards; [Hres] is the value the special
    operator resolves to. *)
Ltac loop_run Hres :=
  erewrite (proj2 (handle_special_operator_iff _ _ _ _ _)); cycle 1;
  [ split; [by eval_hasattr|]; split;
    [ eexists; split; [by kw_lookup|];
      by rewrite ?uniquely_given_insert_ne by discriminate
    | erewrite resolved_resolve by kw_lookup;
      rewrite ?resolve_insert_ne by discriminate; rewrite Hres;
      split; [done | reflexivity] ]
  | cbn [mbind result_bind] ].

Ltac not_base :=
  unfold base_names; rewrite !not_elem_of_cons;
  repeat split; try discriminate; apply not_elem_of_nil.

Section Constructors.
Context `{Framework}.

(** ** The stationary constructor *)

Lemma stationary_base_table a b ops lin P est vis cr nm :
  let d := stationary_base a b ops lin P est vis cr nm in
  __dict__ d !! "operator" = Some (Atom a) /\
  __dict__ d !! "rhs" = Some (Atom b) /\
  __dict__ d !! "add_with_arguments" = None.
Proof.
  unfold stationary_base. cbn zeta.
  rewrite !base_instance_other by first [plain | not_base].
  repeat split; dict_lookup.
Qed.

Lemma StationaryDiscretization__init__iff operator rhs products operators
    parameter_space estimator visualizer cache_region name d :
  StationaryDiscretization__init__ operator rhs products operators
    parameter_space estimator visualizer cache_region name = Ok d
  <-> exists L F lin,
    let O := default ∅ operators in
    let ops1 := <["rhs" := PyOperator F]> (<["operator" := PyOperator L]> O) in
    uniquely_given operator O "operator" = true /\
    uniquely_given rhs O "rhs" = true /\
    resolve operator O "operator" = PyOperator L /\
    resolve rhs O "rhs" = PyOperator F /\
    all_linear (values ops1) = Ok lin /\
    stationary_invariants L F = true /\
    d = stationary_instance L F ops1 lin (default ∅ products)
          parameter_space estimator visualizer cache_region name.
Proof.
  unfold StationaryDiscretization__init__. rewrite bind_Ok.
  setoid_rewrite DiscretizationBase__init__iff.
  cbn [special_operators handle_special_operators].
  split.
  - intros (self & (self1 & ops1 & lin & Hloop & Hlin & ->) & Hrest).
    loop_step Hloop. loop_step Hloop. injection Hloop as <- <-.
    rewrite ?resolve_insert_ne, ?uniquely_given_insert_ne in * by discriminate.
    set (O := default ∅ operators) in *.
    remember (resolve operator O "operator") as a eqn:Ea.
    remember (resolve rhs O "rhs") as b eqn:Eb.
    fold (stationary_base a b (<["rhs":=b]> (<["operator":=a]> O)) lin
            (default ∅ products) estimator visualizer cache_region name)
      in Hrest.
    destruct (stationary_base_table a b (<["rhs":=b]> (<["operator":=a]> O))
                lin (default ∅ products) estimator visualizer cache_region
                name) as (Hop & Hrhs & _).
    assert (exists self0, self0 = stationary_base a b
              (<["rhs":=b]> (<["operator":=a]> O)) lin
              (default ∅ products) estimator visualizer cache_region name)
      as (self0 & Hself0) by by eexists.
    rewrite <- Hself0 in *.
    revert Hrest. run.
    destruct a as [| | | |L| | | | | |]; try done. run.
    destruct b as [| | | |F| | | | | |];
      unfold py_and, assert; cbn [mbind result_bind]; try by split_tests.
    intros Hrest. exists L, F, lin.
    repeat (split; [done|]). revert Hrest. unfold stationary_invariants.
    split_tests. intros [= <-]. split; [done|by subst self0].
  - intros (L & F & lin & Hu1 & Hu2 & Ha & Hb & Hlin & Hinv & ->).
    eexists. split.
    + eexists _, _, lin. split; [|split; [exact Hlin|reflexivity]].
      loop_run Ha. loop_run Hb. reflexivity.
    + fold (stationary_base (PyOperator L) (PyOperator F)
            (<["rhs":=PyOperator F]>
               (<["operator":=PyOperator L]> (default ∅ operators))) lin
            (default ∅ products) estimator visualizer cache_region name).
      unfold stationary_instance.
      destruct (stationary_base_table (PyOperator L) (PyOperator F)
            (<["rhs":=PyOperator F]>
               (<["operator":=PyOperator L]> (default ∅ operators))) lin
            (default ∅ products) estimator visualizer cache_region name)
        as (Hop & Hrhs & _).
      generalize dependent (stationary_base (PyOperator L) (PyOperator F)
            (<["rhs":=PyOperator F]>
               (<["operator":=PyOperator L]> (default ∅ operators))) lin
            (default ∅ products) estimator visualizer cache_region name).
      intros self0 Hop Hrhs. run.
      apply andb_prop in Hinv as [Hinv Hl].
      apply andb_prop in Hinv as [Hinv E3].
      apply andb_prop in Hinv as [E1 E2].
      assert (E4 : eq_space (source F) (source L) = true).
      { unfold eq_space in *. apply bool_decide_eq_true in E1, E2.
        apply bool_decide_eq_true. congruence. }
      unfold py_and, assert.
      repeat (first [rewrite E1 | rewrite E2 | rewrite E3 | rewrite E4
                    | rewrite Hl];
              cbn [mbind result_bind attr_linear_of attr_linear]).
      done.
Qed.

(** ** The instationary constructor *)

Lemma rhs_invariant_valid (L : Operator) (r : atom) :
  rhs_invariant L r = true ->
  is_none r || isinstance_OperatorInterface r = true.
Proof. by destruct r. Qed.

Lemma mass_invariant_valid (L : Operator) (m : atom) :
  mass_invariant L m = true ->
  is_none m || isinstance_OperatorInterface m = true.
Proof. by destruct m. Qed.

Lemma instationary_base_table a m r i ops lin P est vis cr nm :
  let d := instationary_base a m r i ops lin P est vis cr nm in
  __dict__ d !! "operator" = Some (Atom a) /\
  __dict__ d !! "mass" = Some (Atom m) /\
  __dict__ d !! "rhs" = Some (Atom r) /\
  __dict__ d !! "initial_data" = Some (Atom i) /\
  __dict__ d !! "add_with_arguments" = None.
Proof.
  unfold instationary_base. cbn zeta.
  rewrite !base_instance_other by first [plain | not_base].
  repeat split; dict_lookup.
Qed.

Lemma InstationaryDiscretization__init__iff T initial_data operator rhs mass
    time_stepper num_values products operators
    parameter_space estimator visualizer cache_region name d :
  InstationaryDiscretization__init__ T initial_data operator rhs mass
    time_stepper num_values products operators
    parameter_space estimator visualizer cache_region name = Ok d
  <-> exists L I r m stepper lin,
    let O := default ∅ operators in
    let ops1 :=
      <["initial_data" := PyOperator I]>
        (<["rhs" := r]> (<["mass" := m]> (<["operator" := PyOperator L]> O))) in
    uniquely_given operator O "operator" = true /\
    uniquely_given mass O "mass" = true /\
    uniquely_given rhs O "rhs" = true /\
    uniquely_given (wrap_initial_data initial_data) O "initial_data" = true /\
    resolve operator O "operator" = PyOperator L /\
    resolve mass O "mass" = m /\
    resolve rhs O "rhs" = r /\
    resolve (wrap_initial_data initial_data) O "initial_data" = PyOperator I /\
    all_linear (values ops1) = Ok lin /\
    time_stepper = PyTimeStepper stepper /\
    instationary_invariants L I r m = true /\
    d = instationary_instance L I r m stepper ops1 lin (default ∅ products)
          T num_values parameter_space estimator visualizer cache_region name.
Proof.
  unfold InstationaryDiscretization__init__.
  fold (wrap_initial_data initial_data). rewrite bind_Ok.
  setoid_rewrite DiscretizationBase__init__iff.
  cbn [special_operators handle_special_operators].
  split.
  - intros (self & (self1 & ops1 & lin & Hloop & Hlin & ->) & Hrest).
    loop_step Hloop. loop_step Hloop. loop_step Hloop. loop_step Hloop.
    injection Hloop as <- <-.
    rewrite ?resolve_insert_ne, ?uniquely_given_insert_ne in * by discriminate.
    set (O := default ∅ operators) in *.
    remember (resolve operator O "operator") as a eqn:Ea.
    remember (resolve mass O "mass") as m eqn:Em.
    remember (resolve rhs O "rhs") as r eqn:Er.
    remember (resolve (wrap_initial_data initial_data) O "initial_data")
      as i eqn:Ei.
    match type of Hrest with
    | context [base_instance _ ?ops _ _ _ _ _ _] =>
        fold (instationary_base a m r i ops lin (default ∅ products)
                estimator visualizer cache_region name) in Hrest;
        destruct (instationary_base_table a m r i ops lin (default ∅ products)
                    estimator visualizer cache_region name)
          as (Hop & Hmass & Hrhs & Hid & Hawa);
        assert (exists self0, self0 = instationary_base a m r i ops lin
                  (default ∅ products) estimator visualizer cache_region name)
          as (self0 & Hself0) by by eexists
    end.
    rewrite <- Hself0 in *.
    revert Hrest. run.
    destruct a as [| | | |L| | | | | |]; try done. run.
    destruct time_stepper as [| | | | | | |stepper| | |];
      cbn [hasattr_nt isinstance_TimeStepperInterface assert mbind result_bind];
      run; try done.
    match goal with
    | |- context [getattr ?X "add_with_arguments"] =>
        erewrite (getattr_class X "add_with_arguments");
          [| dict_lookup | apply class_dict_add_with_arguments]
    end.
    cbn [set_of mbind result_bind].
    destruct (bool_decide (is_Some (nt stepper))) eqn:Hnt;
      cbn [mbind result_bind]; run.
    all: destruct i as [| | | |I| | | | | |]; try done; run.
    all: unfold py_and, py_or, assert; cbn [mbind result_bind].
    all: destruct r as [| | | |R| | | | | |]; try done.
    all: destruct m as [| | | |M| | | | | |]; try done.
    all: cbn [mbind result_bind
              attr_source attr_range attr_linear_of attr_linear is_None].
    all: intros Hrest.
    all: match goal with
         | Er : ?r = resolve _ _ "rhs", Em : ?m = resolve _ _ "mass" |- _ =>
             exists L, I, r, m, stepper, lin
         end.
    all: repeat (split; [done|]).
    all: revert Hrest;
         unfold instationary_invariants, rhs_invariant, mass_invariant.
    all: split_tests.
    all: intros [= <-]; split; [done|].
    all: unfold instationary_instance; rewrite Hnt; by subst self0.
  - intros (L & I & r & m & stepper & lin & Hu1 & Hu2 & Hu3 & Hu4
              & Ha & Hm & Hr & Hi & Hlin & -> & Hinv & ->).
    apply andb_prop in Hinv as [Hinv Hmass].
    apply andb_prop in Hinv as [Hinv Hrhs].
    apply andb_prop in Hinv as [Hinv E3].
    apply andb_prop in Hinv as [E1 E2].
    assert (Hrv := rhs_invariant_valid _ _ Hrhs).
    assert (Hmv := mass_invariant_valid _ _ Hmass).
    eexists. split.
    + eexists _, _, lin. split; [|split; [exact Hlin|reflexivity]].
      loop_run Ha. loop_run Hm. loop_run Hr. loop_run Hi. reflexivity.
    + unfold instationary_instance.
      match goal with
      | |- context [base_instance _ ?ops _ _ _ _ _ _] =>
          fold (instationary_base (PyOperator L) m r (PyOperator I) ops lin
                  (default ∅ products) estimator visualizer cache_region name);
          destruct (instationary_base_table (PyOperator L) m r (PyOperator I)
                      ops lin (default ∅ products)
                      estimator visualizer cache_region name)
            as (Hop & Hma & Hrh & Hid & Hawa);
          generalize dependent
            (instationary_base (PyOperator L) m r (PyOperator I) ops lin
               (default ∅ products) estimator visualizer cache_region name)
      end.
      intros self0 Hop Hma Hrh Hid Hawa. run.
      cbn [hasattr_nt isinstance_TimeStepperInterface].
      match goal with
      | |- context [getattr ?X "add_with_arguments"] =>
          erewrite (getattr_class X "add_with_arguments");
            [| dict_lookup | apply class_dict_add_with_arguments]
      end.
      cbn [set_of mbind result_bind].
      destruct (bool_decide (is_Some (nt stepper)));
        cbn [assert mbind result_bind]; run.
      all: rewrite E1; cbn [assert mbind result_bind].
      all: unfold py_and; cbn [mbind result_bind]; rewrite E2, E3;
           cbn [assert mbind result_bind].
      all: destruct r as [| | | |R| | | | | |]; try done.
      all: destruct m as [| | | |M| | | | | |]; try done.
      all: unfold py_or, py_and;
           cbn [mbind result_bind
                attr_source attr_range attr_linear_of attr_linear is_None].
      all: revert Hrhs Hmass; unfold rhs_invariant, mass_invariant, assert.
      all: split_tests.
Qed.

(** ** The linear flag *)

Lemma all_linear_forallb (ops : list atom) (lin : bool) :
  all_linear ops = Ok lin -> lin = forallb counts_as_linear ops.
Proof.
  revert lin. induction ops as [|a ops IH]; intros lin; simpl.
  - by intros [= <-].
  - destruct a; try done; cbn; try (apply IH).
    destruct (linear o); cbn; [apply IH | by intros [= <-]].
Qed.

Lemma all_linear_total (ops : list atom) :
  Forall (fun a => is_none a || isinstance_OperatorInterface a = true) ops ->
  all_linear ops = Ok (forallb counts_as_linear ops).
Proof.
  induction 1 as [|a ops Ha _ IH]; [done|].
  simpl. destruct a; try done; cbn; try apply IH.
  destruct (linear o); cbn; [apply IH | done].
Qed.

Lemma Forall_values (P : atom -> Prop) (m : gmap string atom) :
  Forall P (values m) <-> forall k a, m !! k = Some a -> P a.
Proof.
  unfold values. rewrite Forall_fmap, Forall_forall. split.
  - intros Hall k a Hka. apply (Hall (k, a)). by apply elem_of_map_to_list.
  - intros Hall [k a] Hka. apply (Hall k). by apply elem_of_map_to_list.
Qed.

Lemma forallb_values (f : atom -> bool) (m : gmap string atom) :
  forallb f (values m) = true <-> forall k a, m !! k = Some a -> f a = true.
Proof.
  rewrite forallb_forall, <- Forall_values, Forall_forall.
  split; intros Hall a Ha; apply Hall;
    by apply list_elem_of_In.
Qed.
End Constructors.

Section Construction.
Context `{Framework}.

(** ** Construction of a stationary discretization *)

Lemma uniquely_given_empty (kw : atom) (on : string) :
  uniquely_given kw ∅ on = true.
Proof.
  unfold uniquely_given. rewrite lookup_empty.
  rewrite (bool_decide_eq_false_2 (is_Some None)) by by intros [? ?].
  by destruct (is_none kw).
Qed.

Lemma resolve_empty (kw : atom) (on : string) : resolve kw ∅ on = kw.
Proof. unfold resolve. rewrite lookup_empty. by destruct kw. Qed.

Lemma stationary_instance_solution_space L F ops lin P ps est vis cr nm :
  getattr (stationary_instance L F ops lin P ps est vis cr nm) "solution_space"
  = Ok (Atom (PyVectorSpace (source L))).
Proof. apply getattr_dict. unfold stationary_instance. dict_lookup. Qed.

Lemma stationary_invariants_true (L F : Operator) :
  stationary_invariants L F = true
  <-> source L = range L /\ range L = source F /\
      range F = NumpyVectorSpace 1 /\ linear F = true.
Proof.
  unfold stationary_invariants, eq_space.
  rewrite !andb_true_iff, !bool_decide_eq_true. tauto.
Qed.

(** C3: constructing a stationary discretization from [operator] and [rhs]
    returns an instance exactly when both are operators with
    [operator.source == operator.range == rhs.source], [rhs.range] the
    one-dimensional space and [rhs.linear]; the instance then has
    [solution_space == operator.source], and otherwise the constructor
    raises and no instance exists. *)
Theorem stationary_construction_iff_invariants
    (operator rhs : atom) (products : option (gmap string atom))
    (parameter_space estimator visualizer cache_region name : atom) :
  match StationaryDiscretization__init__ operator rhs products None
          parameter_space estimator visualizer cache_region name with
  | Ok d =>
      stationary_requirements operator rhs /\
      exists L, operator = PyOperator L /\
        getattr d "solution_space" = Ok (Atom (PyVectorSpace (source L)))
  | Err _ => ~ stationary_requirements operator rhs
  end.
Proof.
  destruct (StationaryDiscretization__init__ _ _ _ _ _ _ _ _ _) as [d|e] eqn:Hinit.
  - apply StationaryDiscretization__init__iff in Hinit
      as (L & F & lin & _ & _ & Ha & Hb & _ & Hinv & ->).
    cbn [default] in Ha, Hb. rewrite resolve_empty in Ha, Hb. subst.
    apply stationary_invariants_true in Hinv. split.
    + by exists L, F.
    + exists L. split; [done|]. apply stationary_instance_solution_space.
  - intros (L & F & -> & -> & Hinv).
    apply stationary_invariants_true in Hinv.
    assert (exists d, StationaryDiscretization__init__ (PyOperator L)
              (PyOperator F) products None parameter_space estimator
              visualizer cache_region name = Ok d) as [d Hd]; [|congruence].
    eexists. apply StationaryDiscretization__init__iff.
    exists L, F. eexists. cbn [default].
    rewrite !uniquely_given_empty, !resolve_empty.
    split; [done|]. split; [done|]. split; [done|]. split; [done|].
    split; [|split; [done|reflexivity]].
    apply all_linear_total, Forall_values. intros k a.
    rewrite !lookup_insert. repeat case_decide; rewrite ?lookup_empty;
      by intros [= <-].
Qed.

(** ** The attributes of a constructed instance *)

Lemma base_instance_product self ops lin P est vis cr nm k v :
  P !! k = Some v ->
  __dict__ (base_instance self ops lin P est vis cr nm) !! product_attr k
    = Some (Atom v) /\
  __dict__ (base_instance self ops lin P est vis cr nm) !! norm_attr k
    = Some (Atom (induced_norm v)).
Proof.
  intros Hk. unfold base_instance. apply register_products_lookup.
  - apply NoDup_fst_map_to_list.
  - by apply elem_of_map_to_list.
Qed.

End Construction.

(** Peels the [setattr]s of literal names off a read of a product or norm
    attribute. *)
Ltac peel_product :=
  unfold enable_caching, Parametric_build_parameter_type;
  repeat first
    [ rewrite dict_setattr_ne by (apply not_eq_sym, plain_not_product; plain)
    | rewrite dict_setattr_ne by (apply not_eq_sym, plain_not_norm; plain) ].

Section Tables.
Context `{Framework}.

Lemma stationary_instance_table L F ops lin P ps est vis cr nm :
  let d := stationary_instance L F ops lin P ps est vis cr nm in
  type_of d = Stationary /\
  __dict__ d !! "operator" = Some (Atom (PyOperator L)) /\
  __dict__ d !! "rhs" = Some (Atom (PyOperator F)) /\
  __dict__ d !! "operators" = Some (PyDict ops) /\
  __dict__ d !! "linear" = Some (Atom (PyBool lin)) /\
  __dict__ d !! "products" = Some (PyDict P) /\
  __dict__ d !! "estimator" = Some (Atom est) /\
  __dict__ d !! "visualizer" = Some (Atom vis) /\
  __dict__ d !! "cache_region" = Some (Atom cr) /\
  __dict__ d !! "name" = Some (Atom nm) /\
  __dict__ d !! "parameter_space" = Some (Atom ps) /\
  __dict__ d !! "add_with_arguments" = None /\
  (forall k v, P !! k = Some v ->
     __dict__ d !! product_attr k = Some (Atom v) /\
     __dict__ d !! norm_attr k = Some (Atom (induced_norm v))).
Proof.
  cbn zeta. unfold stationary_instance, stationary_base.
  destruct (base_instance_table
    (setattr (setattr (new Stationary) "operator" (Atom (PyOperator L)))
       "rhs" (Atom (PyOperator F))) ops lin P est vis cr nm)
    as (? & ? & ? & ? & ? & ? & ?).
  split; [unfold Parametric_build_parameter_type; cbn [type_of setattr];
          by rewrite base_instance_type|].
  repeat match goal with |- _ /\ _ => split end;
    try (intros k v Hk; peel_product; by apply base_instance_product).
  all: try (dict_lookup; fail).
  all: unfold Parametric_build_parameter_type;
       rewrite !dict_setattr_ne by discriminate;
       rewrite base_instance_other by first [plain | not_base]; dict_lookup.
Qed.

Lemma instationary_instance_table L I r m stepper ops lin P T nv ps est vis cr nm :
  let d := instationary_instance L I r m stepper ops lin P T nv ps est vis cr nm in
  type_of d = Instationary /\
  __dict__ d !! "operator" = Some (Atom (PyOperator L)) /\
  __dict__ d !! "mass" = Some (Atom m) /\
  __dict__ d !! "rhs" = Some (Atom r) /\
  __dict__ d !! "initial_data" = Some (Atom (PyOperator I)) /\
  __dict__ d !! "operators" = Some (PyDict ops) /\
  __dict__ d !! "linear" = Some (Atom (PyBool lin)) /\
  __dict__ d !! "products" = Some (PyDict P) /\
  __dict__ d !! "estimator" = Some (Atom est) /\
  __dict__ d !! "visualizer" = Some (Atom vis) /\
  __dict__ d !! "cache_region" = Some (Atom cr) /\
  __dict__ d !! "name" = Some (Atom nm) /\
  __dict__ d !! "parameter_space" = Some (Atom ps) /\
  __dict__ d !! "T" = Some (Atom T) /\
  __dict__ d !! "time_stepper" = Some (Atom (PyTimeStepper stepper)) /\
  __dict__ d !! "num_values" = Some (Atom nv) /\
  getattr d "add_with_arguments"
    = Ok (PySet (if bool_decide (is_Some (nt stepper))
                 then ∅ ∪ {[ "time_stepper_nt" ]} else ∅)) /\
  (forall k v, P !! k = Some v ->
     __dict__ d !! product_attr k = Some (Atom v) /\
     __dict__ d !! norm_attr k = Some (Atom (induced_norm v))).
Proof.
  unfold instationary_instance, instationary_base. cbn zeta.
  match goal with
  | |- context [base_instance ?s _ _ _ _ _ _ _] =>
      destruct (base_instance_table s ops lin P est vis cr nm)
        as (? & ? & ? & ? & ? & ? & ?);
      assert (forall n, plain n -> n ∉ base_names ->
                __dict__ (base_instance s ops lin P est vis cr nm) !! n
                = __dict__ s !! n) as Hother
        by (intros; by apply base_instance_other);
      assert (forall k v, P !! k = Some v ->
        __dict__ (base_instance s ops lin P est vis cr nm) !! product_attr k
          = Some (Atom v) /\
        __dict__ (base_instance s ops lin P est vis cr nm) !! norm_attr k
          = Some (Atom (induced_norm v))) as Hprod
        by (intros; by apply base_instance_product);
      assert (type_of (base_instance s ops lin P est vis cr nm) = Instationary)
        as Hty by by rewrite base_instance_type;
      remember (base_instance s ops lin P est vis cr nm) as self0 eqn:E;
      clear E
  end.
  destruct (bool_decide (is_Some (nt stepper))).
  all: split; [done|].
  all: repeat match goal with |- _ /\ _ => split end;
    try (intros k v Hk; peel_product; by apply Hprod).
  all: try (dict_lookup; fail).
  all: try (unfold Parametric_build_parameter_type;
            rewrite !dict_setattr_ne by discriminate;
            rewrite Hother by first [plain | not_base]; dict_lookup).
  - by apply getattr_dict; dict_lookup.
  - apply (getattr_class _ _ (PySet ∅)); [|done].
    unfold Parametric_build_parameter_type.
    rewrite !dict_setattr_ne by discriminate.
    rewrite Hother by first [plain | not_base]. dict_lookup.
Qed.

Lemma constructed_canonical (d : instance) : constructed d <-> canonical d.
Proof.
  split.
  - intros [operator rhs products operators ps est vis cr nm d' Hinit
           |T id operator rhs mass ts nv products operators ps est vis cr nm d' Hinit].
    + apply StationaryDiscretization__init__iff in Hinit
        as (L & F & lin & _ & _ & _ & _ & Hlin & Hinv & ->).
      constructor; try done; by kw_lookup.
    + apply InstationaryDiscretization__init__iff in Hinit
        as (L & I & r & m & stepper & lin & _ & _ & _ & _ & _ & _ & _ & _
            & Hlin & _ & Hinv & ->).
      constructor; try done; by kw_lookup.
  - intros [L F ops lin P ps est vis cr nm Hop Hrhs Hlin Hinv
           |L I r m stepper ops lin P T nv ps est vis cr nm
              Hop Hm Hr Hi Hlin Hinv].
    + apply (constructed_stationary PyNone PyNone (Some P) (Some ops)
               ps est vis cr nm).
      apply StationaryDiscretization__init__iff.
      exists L, F, lin. cbn [default from_option id].
      unfold resolve, uniquely_given.
      cbn [is_none orb]. rewrite Hop, Hrhs. cbn [default from_option id].
      rewrite (insert_id ops "operator") by done.
      rewrite (insert_id ops "rhs") by done.
      by repeat split.
    + apply (constructed_instationary T PyNone PyNone PyNone PyNone
               (PyTimeStepper stepper) nv (Some P) (Some ops) ps est vis cr nm).
      apply InstationaryDiscretization__init__iff.
      exists L, I, r, m, stepper, lin.
      cbn [default from_option id wrap_initial_data].
      unfold resolve, uniquely_given.
      cbn [is_none orb]. rewrite Hop, Hm, Hr, Hi. cbn [default from_option id].
      rewrite (insert_id ops "operator") by done.
      rewrite (insert_id ops "mass") by done.
      rewrite (insert_id ops "rhs") by done.
      rewrite (insert_id ops "initial_data") by done.
      by repeat split.
Qed.
End Tables.

Section Instances.
Context `{Framework}.

Lemma canonical_attributes (d : instance) :
  canonical d ->
  exists ops lin P,
    getattr d "operators" = Ok (PyDict ops) /\
    getattr d "linear" = Ok (Atom (PyBool lin)) /\
    all_linear (values ops) = Ok lin /\
    getattr d "products" = Ok (PyDict P) /\
    (forall on, on ∈ special_operators (type_of d) ->
       exists a, ops !! on = Some a /\ getattr d on = Ok (Atom a)) /\
    (forall k v, P !! k = Some v ->
       getattr d (product_attr k) = Ok (Atom v) /\
       getattr d (norm_attr k) = Ok (Atom (induced_norm v))).
Proof.
  intros [L F ops lin P ps est vis cr nm Hop Hrhs Hlin Hinv
         |L I r m stepper ops lin P T nv ps est vis cr nm
            Hop Hm Hr Hi Hlin Hinv].
  - destruct (stationary_instance_table L F ops lin P ps est vis cr nm)
      as (Hty & ? & ? & ? & ? & ? & _ & _ & _ & _ & _ & _ & Hprod).
    exists ops, lin, P. rewrite Hty.
    split; [by apply getattr_dict|]. split; [by apply getattr_dict|].
    split; [done|]. split; [by apply getattr_dict|]. split.
    + intros on Hon. cbn [special_operators] in Hon.
      rewrite !elem_of_cons, elem_of_nil in Hon. destruct_or!; subst; try done;
        eexists; (split; [eassumption | by apply getattr_dict]).
    + intros k v Hk. split; by apply getattr_dict, Hprod.
  - destruct (instationary_instance_table L I r m stepper ops lin P T nv
                ps est vis cr nm)
      as (Hty & ? & ? & ? & ? & ? & ? & ? & _ & _ & _ & _ & _ & _ & _ & _ & _
          & Hprod).
    exists ops, lin, P. rewrite Hty.
    split; [by apply getattr_dict|]. split; [by apply getattr_dict|].
    split; [done|]. split; [by apply getattr_dict|]. split.
    + intros on Hon. cbn [special_operators] in Hon.
      rewrite !elem_of_cons, elem_of_nil in Hon. destruct_or!; subst; try done;
        eexists; (split; [eassumption | by apply getattr_dict]).
    + intros k v Hk. split; by apply getattr_dict, Hprod.
Qed.

Lemma construct_constructed (c : class) (kwargs : gmap string pyval) (d : instance) :
  construct c kwargs = Ok d -> constructed d.
Proof.
  unfold construct. intros Hc. inv_result. destruct c.
  - by econstructor 1.
  - inv_result. by econstructor 2.
Qed.

Lemma ImmutableInterface_with__constructed self kwargs d :
  ImmutableInterface_with_ self kwargs = Ok d -> constructed d.
Proof.
  unfold ImmutableInterface_with_. intros Hw. inv_result.
  by eapply construct_constructed.
Qed.

Lemma DiscretizationBase_with__constructed self kwargs d :
  DiscretizationBase_with_ self kwargs = Ok d -> constructed d.
Proof.
  unfold DiscretizationBase_with_. intros Hw. inv_result.
  by eapply ImmutableInterface_with__constructed.
Qed.

Lemma with__constructed self kwargs d :
  with_ self kwargs = Ok d -> constructed d.
Proof.
  unfold with_, InstationaryDiscretization_with_. intros Hw.
  destruct (type_of self).
  - by eapply DiscretizationBase_with__constructed.
  - inv_result. by eapply DiscretizationBase_with__constructed.
Qed.
End Instances.

Section Claims.
Context `{Framework}.

Lemma counts_as_linear_true (a : atom) :
  counts_as_linear a = true
  <-> a = PyNone \/ exists o, a = PyOperator o /\ linear o = true.
Proof.
  split.
  - destruct a as [| | | |o| | | | | |]; try done; [by left|].
    intros Hl. right. by exists o.
  - by intros [->|(o & -> & ?)].
Qed.

(** The conjunction is cut short by an operator that is not linear. *)
Lemma all_linear_false (ops : list atom) :
  all_linear ops = Ok false ->
  exists o, PyOperator o ∈ ops /\ linear o = false.
Proof.
  induction ops as [|a ops IH]; simpl; [done|].
  assert (all_linear ops = Ok false ->
          exists o, PyOperator o ∈ a :: ops /\ linear o = false) as Hrest.
  { intros (o & Ho & Hl)%IH. exists o. split; [by right|done]. }
  destruct a as [| | | |o| | | | | |]; try done; cbn; try exact Hrest.
  destruct (linear o) eqn:Hl; cbn; [exact Hrest|].
  intros _. exists o. split; [by left|done].
Qed.

Lemma elem_of_values (m : gmap string atom) (a : atom) :
  a ∈ values m <-> exists k, m !! k = Some a.
Proof.
  unfold values. rewrite list_elem_of_fmap. split.
  - intros ([k a'] & -> & Hka%elem_of_map_to_list). by exists k.
  - intros (k & Hk). exists (k, a). split; [done|].
    by apply elem_of_map_to_list.
Qed.

(** C6: the [linear] flag of a discretization is the conjunction of the
    [linear] flags of all entries of its operators mapping, an entry [None]
    counting as linear: the flag is true exactly when every entry is
    [None] or a linear operator, whichever special operators are absent,
    and false exactly when some entry is an operator that is not
    linear. *)
Theorem linear_flag_is_conjunction (d : instance) :
  constructed d ->
  exists ops lin,
    getattr d "operators" = Ok (PyDict ops) /\
    getattr d "linear" = Ok (Atom (PyBool lin)) /\
    (lin = true <->
     forall k a, ops !! k = Some a ->
       a = PyNone \/ exists o, a = PyOperator o /\ linear o = true) /\
    (lin = false <->
     exists k o, ops !! k = Some (PyOperator o) /\ linear o = false).
Proof.
  intros Hd%constructed_canonical%canonical_attributes.
  destruct Hd as (ops & lin & P & Hops & Hl & Hlin & _).
  exists ops, lin. split; [done|]. split; [done|].
  assert (Htrue : lin = true <->
    forall k a, ops !! k = Some a ->
      a = PyNone \/ exists o, a = PyOperator o /\ linear o = true).
  { rewrite (all_linear_forallb _ _ Hlin), forallb_values.
    split; intros Hall k a Hka; apply counts_as_linear_true; by eapply Hall. }
  split; [exact Htrue|]. split.
  - intros ->. apply all_linear_false in Hlin as (o & Ho & Hnl).
    apply elem_of_values in Ho as (k & Hk). by exists k, o.
  - intros (k & o & Hk & Hnl). destruct lin; [|done].
    destruct (proj1 Htrue eq_refl k _ Hk) as [?|(o' & [= <-] & Hl')];
      congruence.
Qed.

(** C9: when a constructor returns, the operators mapping has an entry for
    every special operator name: the keyword when one is given, else the
    entry of the [operators] argument, else [None]. *)
Theorem operators_mapping_has_special_names :
  (forall sp self operators products estimator visualizer cache_region name
          kwargs d,
     DiscretizationBase__init__ sp self operators products
       estimator visualizer cache_region name kwargs = Ok d ->
     exists ops,
       getattr d "operators" = Ok (PyDict ops) /\
       forall on, on ∈ sp ->
         is_Some (ops !! on) /\
         (forall kw, kwargs !! on = Some kw -> kw <> PyNone ->
                     ops !! on = Some kw) /\
         (kwargs !! on = Some PyNone ->
          ops !! on = Some (default PyNone (default ∅ operators !! on)))) /\
  (forall d, constructed d ->
     exists ops,
       getattr d "operators" = Ok (PyDict ops) /\
       forall on, on ∈ special_operators (type_of d) -> is_Some (ops !! on)).
Proof.
  split.
  - intros sp self operators products est vis cr nm kwargs d Hinit.
    apply DiscretizationBase__init__iff in Hinit
      as (self1 & ops1 & lin & Hloop & _ & ->).
    apply handle_special_operators_spec in Hloop as (_ & _ & Hin & _).
    exists ops1. split.
    + apply getattr_dict. apply base_instance_table.
    + intros on Hon. destruct (Hin on Hon) as (_ & _ & _ & _ & Hops).
      rewrite Hops. split; [by eexists|]. unfold resolved. split.
      * intros kw -> Hkw. by destruct kw.
      * by intros ->.
  - intros d Hd%constructed_canonical%canonical_attributes.
    destruct Hd as (ops & lin & P & Hops & _ & _ & _ & Hsp & _).
    exists ops. split; [done|]. intros on Hon.
    destruct (Hsp on Hon) as (a & -> & _). by eexists.
Qed.

(** C5: in every instance a constructor or [with_] returns, the entry of
    the operators mapping and the attribute agree for every special
    operator; and the base constructor raises when a special operator name
    is an attribute of the instance already. *)
Theorem special_operator_attribute_agrees :
  (forall d on, constructed d ->
     on ∈ special_operators (type_of d) -> special_operator_agrees d on) /\
  (forall self kwargs d on, with_ self kwargs = Ok d ->
     on ∈ special_operators (type_of d) -> special_operator_agrees d on) /\
  (forall sp self operators products estimator visualizer cache_region name
          kwargs on,
     on ∈ sp -> hasattr self on = true ->
     is_ok (DiscretizationBase__init__ sp self operators products
              estimator visualizer cache_region name kwargs) = false).
Proof.
  assert (forall d on, constructed d ->
     on ∈ special_operators (type_of d) -> special_operator_agrees d on) as Hc.
  { intros d on Hd%constructed_canonical%canonical_attributes Hon.
    destruct Hd as (ops & lin & P & Hops & _ & _ & _ & Hsp & _).
    destruct (Hsp on Hon) as (a & Ha & Hattr). by exists ops, a. }
  split; [done|]. split.
  - intros self kwargs d on Hw. apply Hc. by eapply with__constructed.
  - intros sp self operators products est vis cr nm kwargs on Hon Hhas.
    destruct (DiscretizationBase__init__ _ _ _ _ _ _ _ _ _) as [d|e] eqn:Hinit;
      [|done].
    apply DiscretizationBase__init__iff in Hinit
      as (self1 & ops1 & lin & Hloop & _ & _).
    apply handle_special_operators_spec in Hloop as (_ & _ & Hin & _).
    destruct (Hin on Hon) as (Hfresh & _). congruence.
Qed.

(** C10: for every entry [(k, v)] of the [products] argument, the
    constructed instance has the attribute [k_product], which is [v]
    itself, besides the norm [k_norm], and [v] is the entry [k] of its
    products mapping. *)
Theorem product_operator_exposed (k : string) (v : atom) (P : gmap string atom) :
  P !! k = Some v ->
  (forall operator rhs operators parameter_space estimator visualizer
          cache_region name d,
     StationaryDiscretization__init__ operator rhs (Some P) operators
       parameter_space estimator visualizer cache_region name = Ok d ->
     product_exposed d k v) /\
  (forall T initial_data operator rhs mass time_stepper num_values operators
          parameter_space estimator visualizer cache_region name d,
     InstationaryDiscretization__init__ T initial_data operator rhs mass
       time_stepper num_values (Some P) operators
       parameter_space estimator visualizer cache_region name = Ok d ->
     product_exposed d k v).
Proof.
  intros Hk. split.
  - intros operator rhs operators ps est vis cr nm d Hinit.
    apply StationaryDiscretization__init__iff in Hinit
      as (L & F & lin & _ & _ & _ & _ & _ & _ & ->).
    cbn [default from_option id].
    match goal with
    | |- product_exposed (stationary_instance _ _ ?ops _ _ _ _ _ _ _) _ _ =>
        destruct (stationary_instance_table L F ops lin P ps est vis cr nm)
          as (_ & _ & _ & _ & _ & HP & _ & _ & _ & _ & _ & _ & Hprod)
    end.
    destruct (Hprod k v Hk) as [Hp Hn].
    repeat split; try by apply getattr_dict.
    exists P. split; [by apply getattr_dict | done].
  - intros T idata operator rhs mass ts nv operators ps est vis cr nm d Hinit.
    apply InstationaryDiscretization__init__iff in Hinit
      as (L & I & r & m & stepper & lin & _ & _ & _ & _ & _ & _ & _ & _
          & _ & _ & _ & ->).
    cbn [default from_option id].
    match goal with
    | |- product_exposed
           (instationary_instance _ _ _ _ _ ?ops _ _ _ _ _ _ _ _ _) _ _ =>
        destruct (instationary_instance_table L I r m stepper ops lin P T nv
                    ps est vis cr nm)
          as (_ & _ & _ & _ & _ & _ & _ & HP & _ & _ & _ & _ & _ & _ & _ & _
              & _ & Hprod)
    end.
    destruct (Hprod k v Hk) as [Hp Hn].
    repeat split; try by apply getattr_dict.
    exists P. split; [by apply getattr_dict | done].
Qed.
End Claims.

Section Solving.
Context `{Framework}.

Lemma M_bind_Ok {A B} (m : M A) (k : A -> M B) (σ σ1 : state) (a : A) :
  m σ = (Ok a, σ1) -> (m ≫= k) σ = k a σ1.
Proof. unfold mbind, M_bind. by intros ->. Qed.

Lemma M_bind_Err {A B} (m : M A) (k : A -> M B) (σ σ1 : state) (e : exception) :
  m σ = (Err e, σ1) -> (m ≫= k) σ = (Err e, σ1).
Proof. unfold mbind, M_bind. by intros ->. Qed.

Lemma deref_Ok (l : loc) (p : Param) (σ : state) :
  store σ !! l = Some p -> deref l σ = (Ok p, σ).
Proof. unfold deref. by intros ->. Qed.

(** Parsing reads the store: it adds at most one object. *)
Lemma parse_parameter_frame self mu σ r σ1 :
  Parametric_parse_parameter self mu σ = (r, σ1) ->
  log σ1 = log σ /\
  forall l, l ∈ dom (store σ) -> store σ1 !! l = store σ !! l.
Proof.
  unfold Parametric_parse_parameter, alloc.
  destruct (parse_parameter self (store σ) mu) as [[l|p]|e]; intros [= <- <-];
    try done.
  split; [done|]. intros l Hl. cbn [store]. apply lookup_insert_ne.
  intros <-. by apply is_fresh in Hl.
Qed.

(** Logging leaves the store alone. *)
Lemma log_solving_Ok self l p nm σ :
  getattr self "name" = Ok nm -> store σ !! l = Some p ->
  exists σ', log_solving self l σ = (Ok tt, σ') /\ store σ' = store σ.
Proof.
  intros Hnm Hp. unfold log_solving.
  destruct (logging_disabled self); cbn [negb]; [by exists σ|].
  cbv [solving_message lift deref logger_info mbind M_bind mret M_ret].
  rewrite Hnm, Hp. by eexists.
Qed.

Lemma canonical_stationary_inv (d : instance) :
  canonical d -> type_of d = Stationary ->
  exists L F ops lin P ps est vis cr nm,
    d = stationary_instance L F ops lin P ps est vis cr nm.
Proof.
  intros [L F ops lin P ps est vis cr nm _ _ _ _
         |L I r m stepper ops lin P T nv ps est vis cr nm _ _ _ _ _ _] Hty.
  - by exists L, F, ops, lin, P, ps, est, vis, cr, nm.
  - destruct (instationary_instance_table L I r m stepper ops lin P T nv
                ps est vis cr nm) as (Hty' & _). congruence.
Qed.

(** C1: [_solve(mu)] of a stationary discretization parses [mu] first,
    raising what the parser raises, and then returns
    [operator.apply_inverse(rhs.as_source_array(mu), mu)] on the parsed
    parameter; an exception of [apply_inverse] is the outcome as it is. *)
Theorem stationary_solve_applies_inverse (d : instance) :
  constructed d -> type_of d = Stationary ->
  exists L F,
    getattr d "operator" = Ok (Atom (PyOperator L)) /\
    getattr d "rhs" = Ok (Atom (PyOperator F)) /\
    forall mu σ,
      match Parametric_parse_parameter d mu σ with
      | (Err e, σ1) => StationaryDiscretization__solve d mu σ = (Err e, σ1)
      | (Ok l, σ1) =>
          forall p, store σ1 !! l = Some p ->
            let out := StationaryDiscretization__solve d mu σ in
            fst out = (V ← as_source_array F p; apply_inverse L V p) /\
            store (snd out) = store σ1 /\
            (forall V e, as_source_array F p = Ok V ->
                         apply_inverse L V p = Err e -> fst out = Err e)
      end.
Proof.
  intros Hd%constructed_canonical Hty.
  destruct (canonical_stationary_inv d Hd Hty)
    as (L & F & ops & lin & P & ps & est & vis & cr & nm & ->).
  destruct (stationary_instance_table L F ops lin P ps est vis cr nm)
    as (_ & Hop%getattr_dict & Hrhs%getattr_dict & _ & _ & _ & _ & _ & _
        & Hnm%getattr_dict & _).
  exists L, F. split; [done|]. split; [done|]. intros mu σ.
  destruct (Parametric_parse_parameter _ mu σ) as [[l|e] σ1] eqn:Hparse.
  - intros p Hp. cbn zeta. unfold StationaryDiscretization__solve.
    rewrite (M_bind_Ok _ _ _ _ _ Hparse).
    destruct (log_solving_Ok _ l p _ σ1 Hnm Hp) as (σ2 & Hlog & Hst).
    rewrite (M_bind_Ok _ _ _ _ _ Hlog).
    rewrite Hop, Hrhs.
    cbn [mbind result_bind method_apply_inverse method_as_source_array].
    cbv [lift mbind M_bind deref]. rewrite Hst, Hp.
    destruct (as_source_array F p) as [V|e]; cbn.
    + repeat split; try done. by intros V' e [= <-] ->.
    + by repeat split.
  - unfold StationaryDiscretization__solve. by apply M_bind_Err.
Qed.

Lemma canonical_instationary_inv (d : instance) :
  canonical d -> type_of d = Instationary ->
  exists L I r m stepper ops lin P T nv ps est vis cr nm,
    d = instationary_instance L I r m stepper ops lin P T nv ps est vis cr nm.
Proof.
  intros [L F ops lin P ps est vis cr nm _ _ _ _
         |L I r m stepper ops lin P T nv ps est vis cr nm _ _ _ _ _ _] Hty.
  - destruct (stationary_instance_table L F ops lin P ps est vis cr nm)
      as (Hty' & _). congruence.
  - by exists L, I, r, m, stepper, ops, lin, P, T, nv, ps, est, vis, cr, nm.
Qed.

(** C2: [_solve(mu)] of an instationary discretization copies the parsed
    parameter into a new object, sets ['_t'] of the copy to 0, evaluates
    [U0 = initial_data.as_range_array] on the copy and returns what
    [time_stepper.solve] returns for [operator], [rhs], [U0], [mass],
    initial time 0, end time [T], the copy and [num_values]; no object
    that existed when [_solve] was called is changed. *)
Theorem instationary_solve_calls_time_stepper (d : instance) :
  constructed d -> type_of d = Instationary ->
  exists L I r m stepper T nv,
    getattr d "operator" = Ok (Atom (PyOperator L)) /\
    getattr d "initial_data" = Ok (Atom (PyOperator I)) /\
    getattr d "rhs" = Ok (Atom r) /\
    getattr d "mass" = Ok (Atom m) /\
    getattr d "time_stepper" = Ok (Atom (PyTimeStepper stepper)) /\
    getattr d "T" = Ok (Atom T) /\
    getattr d "num_values" = Ok (Atom nv) /\
    forall mu σ l σ1 p,
      Parametric_parse_parameter d mu σ = (Ok l, σ1) ->
      store σ1 !! l = Some p ->
      let clone := fresh (dom (store σ1)) in
      let mu0 : Param := <["_t" := Scalar 0]> p in
      let out := InstationaryDiscretization__solve d mu σ in
      fst out = (as_range_array I mu0 ≫= fun U0 =>
               TimeStepper_solve stepper (Atom (PyOperator L)) (Atom r) U0
                 (Atom m) 0%Z (Atom T) mu0 (Atom nv)) /\
      store (snd out) = <[clone := mu0]> (store σ1) /\
      (clone ∉ dom (store σ1)) /\
      (forall l0, l0 ∈ dom (store σ) -> store (snd out) !! l0 = store σ !! l0).
Proof.
  intros Hd%constructed_canonical Hty.
  destruct (canonical_instationary_inv d Hd Hty)
    as (L & I & r & m & stepper & ops & lin & P & T & nv & ps & est & vis
        & cr & nm & ->).
  destruct (instationary_instance_table L I r m stepper ops lin P T nv
              ps est vis cr nm)
    as (_ & Hop%getattr_dict & Hm%getattr_dict & Hr%getattr_dict
        & Hi%getattr_dict & _ & _ & _ & _ & _ & _ & Hnm%getattr_dict & _
        & HT%getattr_dict & Hts%getattr_dict & Hnv%getattr_dict & _).
  exists L, I, r, m, stepper, T, nv. repeat (split; [done|]).
  intros mu σ l σ1 p Hparse Hp. cbn zeta.
  set (clone := fresh (dom (store σ1))).
  set (mu0 := <["_t" := Scalar 0]> p).
  assert (Hfresh : clone ∉ dom (store σ1)) by apply is_fresh.
  set (σ2 := {| store := <[clone := p]> (store σ1); log := log σ1 |}).
  assert (Hcopy : (Parametric_parse_parameter
            (instationary_instance L I r m stepper ops lin P T nv
               ps est vis cr nm) mu ≫= copy) σ = (Ok clone, σ2)).
  { rewrite (M_bind_Ok _ _ _ _ _ Hparse). unfold copy.
    rewrite (M_bind_Ok _ _ _ _ _ (deref_Ok _ _ _ Hp)). done. }
  assert (Hclone : store σ2 !! clone = Some p) by apply lookup_insert_eq.
  destruct (log_solving_Ok _ clone p _ σ2 Hnm Hclone) as (σ3 & Hlog & Hst).
  unfold InstationaryDiscretization__solve.
  rewrite (M_bind_Ok _ _ _ _ _ Hcopy).
  rewrite (M_bind_Ok _ _ _ _ _ Hlog).
  rewrite Hi, Hts, Hop, Hr, Hm, HT, Hnv.
  cbn [mbind result_bind method_as_range_array method_solve].
  cbv [lift mbind M_bind deref setitem]. rewrite Hst, Hclone.
  cbn [store]. rewrite lookup_insert_eq.
  assert (Hstore : <[clone := mu0]> (<[clone := p]> (store σ1))
                   = <[clone := mu0]> (store σ1)) by apply insert_insert_eq.
  assert (Hframe : forall l0, l0 ∈ dom (store σ) ->
            <[clone := mu0]> (store σ1) !! l0 = store σ !! l0).
  { intros l0 Hl0.
    destruct (parse_parameter_frame _ _ _ _ _ Hparse) as [_ Hsame].
    rewrite lookup_insert_ne; [by apply Hsame|].
    intros <-. apply Hfresh. apply elem_of_dom. rewrite (Hsame _ Hl0).
    by apply elem_of_dom. }
  fold mu0.
  destruct (as_range_array I mu0) as [U0|e]; cbn [result_bind fst snd store];
    subst σ2; cbn [store]; rewrite Hstore; by repeat split.
Qed.
End Solving.

(** Evaluates the lookups of literal keys in maps built by [insert],
    [delete] and [singleton], and the reads [getattr] that are among the
    hypotheses. *)
Ltac eval_lookup :=
  repeat first
    [ rewrite lookup_insert_eq
    | rewrite lookup_singleton_eq
    | rewrite lookup_delete_eq
    | rewrite lookup_empty
    | rewrite lookup_insert_ne by discriminate
    | rewrite lookup_singleton_ne by discriminate
    | rewrite lookup_delete_ne by discriminate
    | match goal with
      | Hattr : getattr ?d ?n = Ok _ |- context [getattr ?d ?n] => rewrite Hattr
      end ].

(** Proves an inclusion between two sets of literal names by evaluation. *)
Ltac solve_subset := apply (bool_decide_unpack _); vm_compute; exact I.

(** Discharges the test that the keys of a keyword dictionary are among
    the constructor's parameters, or among them and a further set. *)
Ltac eval_subset :=
  match goal with
  | |- context [bool_decide (dom ?kw ⊆ ?A ∪ ?S)] =>
      rewrite (bool_decide_eq_true_2 (dom kw ⊆ A ∪ S))
        by (rewrite ?dom_insert_L, ?dom_singleton_L, ?dom_delete_L, ?dom_empty_L;
            etrans; [|apply union_subseteq_l]; solve_subset)
  | |- context [bool_decide (dom ?kw ⊆ ?S)] =>
      rewrite (bool_decide_eq_true_2 (dom kw ⊆ S))
        by (rewrite ?dom_insert_L, ?dom_singleton_L, ?dom_delete_L, ?dom_empty_L;
            solve_subset)
  end.

Ltac eval_with :=
  repeat progress
    (eval_lookup;
     cbn [mbind result_bind fmap result_fmap default from_option id
          set_of dict_of atom_of assert]).



Section Reconfiguration.
Context `{Framework}.

Lemma setdefault_None (kw : gmap string pyval) (key : string) (v : pyval) :
  kw !! key = None -> setdefault kw key v = <[key := v]> kw.
Proof. unfold setdefault. by intros ->. Qed.

Lemma setdefault_Some (kw : gmap string pyval) (key : string) (v w : pyval) :
  kw !! key = Some w -> setdefault kw key v = kw.
Proof. unfold setdefault. by intros ->. Qed.

(** ** Filling the constructor arguments *)

Lemma fill_arguments_spec self args : forall kw kw',
  fill_arguments self args kw = Ok kw' ->
  (forall n v, kw !! n = Some v -> kw' !! n = Some v) /\
  (forall n, kw !! n = None -> n ∉ args -> kw' !! n = None) /\
  (forall n v, kw !! n = None -> n ∈ args -> getattr self n = Ok v ->
               kw' !! n = Some v).
Proof.
  induction args as [|arg args IH]; intros kw kw' Hfill; cbn in Hfill.
  - injection Hfill as <-. repeat split; try done.
    intros n v _ Hn. by apply elem_of_nil in Hn.
  - apply bind_Ok in Hfill as (kw1 & Hstep & Hfill).
    destruct (IH _ _ Hfill) as (Hsome & Hnone & Hget).
    destruct (kw !! arg) as [w|] eqn:Harg.
    + injection Hstep as <-. repeat split.
      * done.
      * intros n Hn [_ Hnot]%not_elem_of_cons. by apply Hnone.
      * intros n v Hn [->|Hin]%elem_of_cons Hattr; [congruence|].
        by apply Hget.
    + apply bind_Ok in Hstep as (w & Hw & [= <-]). repeat split.
      * intros n v Hn. apply Hsome. rewrite lookup_insert_ne; [done|].
        intros <-. congruence.
      * intros n Hn [Hne Hnot]%not_elem_of_cons. apply Hnone; [|done].
        by rewrite lookup_insert_ne.
      * intros n v Hn [->|Hin]%elem_of_cons Hattr.
        -- apply Hsome. rewrite lookup_insert_eq. congruence.
        -- destruct (decide (arg = n)) as [->|Hne].
           ++ apply Hsome. rewrite lookup_insert_eq. congruence.
           ++ apply Hget; [by rewrite lookup_insert_ne|done..].
Qed.

Lemma fill_arguments_total self args : forall kw,
  (forall n, n ∈ args -> is_ok (getattr self n) = true) ->
  exists kw', fill_arguments self args kw = Ok kw'.
Proof.
  induction args as [|arg args IH]; intros kw Hattr; cbn; [by eexists|].
  destruct (kw !! arg) as [w|]; cbn.
  - apply IH. intros n Hn. apply Hattr. by right.
  - destruct (getattr self arg) as [w|e] eqn:Hw.
    + cbn. apply IH. intros n Hn. apply Hattr. by right.
    + specialize (Hattr arg). rewrite Hw in Hattr. discriminate Hattr. by left.
Qed.

Lemma fill_arguments_dom self args kw kw' :
  fill_arguments self args kw = Ok kw' ->
  dom kw ⊆ list_to_set args -> dom kw' ⊆ (list_to_set args : gset string).
Proof.
  intros Hfill Hdom n Hn. apply elem_of_list_to_set.
  destruct (decide (n ∈ args)) as [|Hnot]; [done|].
  destruct (fill_arguments_spec _ _ _ _ Hfill) as (_ & Hnone & _).
  apply elem_of_dom in Hn as [v Hv]. rewrite Hnone in Hv; [done| |done].
  apply not_elem_of_dom. intros Hin. apply Hnot.
  apply Hdom in Hin. by apply elem_of_list_to_set in Hin.
Qed.

(** The generic clone constructs from keywords that are the overrides,
    completed by the attributes. *)
Lemma ImmutableInterface_with__eval (d : instance) (kw : gmap string pyval)
    (S : gset string) :
  getattr d "add_with_arguments" = Ok (PySet S) ->
  dom kw ⊆ list_to_set (init_arguments (type_of d)) ->
  (forall n, n ∈ init_arguments (type_of d) -> is_ok (getattr d n) = true) ->
  exists kw',
    ImmutableInterface_with_ d kw = construct (type_of d) kw' /\
    dom kw' ⊆ list_to_set (init_arguments (type_of d)) /\
    (forall n v, kw !! n = Some v -> kw' !! n = Some v) /\
    (forall n v, kw !! n = None -> n ∈ init_arguments (type_of d) ->
                 getattr d n = Ok v -> kw' !! n = Some v).
Proof.
  intros Hadd Hdom Hattr.
  destruct (fill_arguments_total d _ kw Hattr) as [kw' Hfill].
  exists kw'. destruct (fill_arguments_spec _ _ _ _ Hfill) as (Hsome & _ & Hget).
  split; [|split; [by eapply fill_arguments_dom|by split]].
  unfold ImmutableInterface_with_, with_arguments. rewrite Hadd.
  cbn [mbind result_bind set_of].
  rewrite bool_decide_eq_true_2.
  - cbn [mbind result_bind]. by rewrite Hfill.
  - intros n Hn. apply elem_of_union. left. by apply Hdom.
Qed.
End Reconfiguration.

(** Evaluates the [setdefault]s of the goal from the inside. *)
Ltac eval_setdefault :=
  repeat match goal with
  | |- context [setdefault ?kw ?k ?v] =>
      lazymatch kw with
      | context [setdefault] => fail
      | _ => first [ rewrite (setdefault_None kw k v) by (eval_lookup; reflexivity)
                   | erewrite (setdefault_Some kw k v) by (eval_lookup; reflexivity) ]
      end
  end.

(** Proves that a literal name is in a literal list. *)
Ltac solve_elem :=
  solve [ repeat first [ apply list_elem_of_here | apply list_elem_of_further ] ].

(** Evaluates [construct c kw'] for [kw'] known by its entries: [Hsome]
    gives the entries of the overrides [kw], [Hget] those taken from the
    attributes. *)
Ltac eval_construct Hdom Hsome Hget :=
  unfold construct;
  rewrite (bool_decide_eq_true_2 _ Hdom);
  unfold arg_dict, arg_atom;
  repeat match goal with
  | |- context [?kw' !! ?n] =>
      first
        [ erewrite (Hsome n) by (eval_lookup; reflexivity)
        | erewrite (Hget n) by
            first [ solve_elem | solve [eval_lookup; reflexivity] ] ]
  end;
  cbn [mbind result_bind].

Section Reconfiguration2.
Context `{Framework}.

(** What [with_] of a stationary discretization amounts to when at most
    [rhs] is overridden. *)
Lemma stationary_with_ L F ops lin P ps est vis cr nm (new_rhs : option atom) :
  with_ (stationary_instance L F ops lin P ps est vis cr nm)
    (rhs_override new_rhs)
  = StationaryDiscretization__init__ PyNone (default PyNone new_rhs) (Some P)
      (Some (<["operator" := PyOperator L]>
               (<["rhs" := default (PyOperator F) new_rhs]> ∅) ∪ ops))
      ps est vis cr nm.
Proof.
  destruct (stationary_instance_table L F ops lin P ps est vis cr nm)
    as (Hty & Ha%getattr_dict & Hb%getattr_dict & Hops%getattr_dict & _
        & HP%getattr_dict & Hest%getattr_dict & Hvis%getattr_dict
        & Hcr%getattr_dict & Hnm%getattr_dict & Hps%getattr_dict & Hawa & _).
  assert (Hadd := getattr_class _ _ _ Hawa class_dict_add_with_arguments).
  clear Hawa.
  generalize dependent (stationary_instance L F ops lin P ps est vis cr nm).
  intros d Hty Ha Hb Hops HP Hest Hvis Hcr Hnm Hps Hadd.
  assert (Hattr : forall n, n ∈ init_arguments (type_of d) ->
                            is_ok (getattr d n) = true).
  { rewrite Hty. cbn [init_arguments]. intros n Hn.
    rewrite !elem_of_cons, elem_of_nil in Hn. destruct_or!; subst; try done;
      by eval_lookup. }
  unfold with_. rewrite Hty. unfold DiscretizationBase_with_, with_arguments.
  rewrite Hty. cbn [special_operators special_overrides init_arguments].
  destruct new_rhs as [N|]; cbn [rhs_override].
  all: eval_with; eval_subset; eval_with; cbn [foldl]; eval_setdefault.
  all: match goal with
       | |- ImmutableInterface_with_ ?d0 ?kw = _ =>
           destruct (ImmutableInterface_with__eval d0 kw ∅ Hadd)
             as (kw' & -> & Hdom & Hsome & Hget);
             [rewrite Hty; cbn [init_arguments];
              rewrite ?dom_insert_L, ?dom_singleton_L, ?dom_empty_L;
              solve_subset
             | exact Hattr |]
       end.
  all: rewrite Hty in *; cbn [init_arguments] in *.
  all: eval_construct Hdom Hsome Hget.
  all: reflexivity.
Qed.

(** The same for an instationary discretization, for the method of the
    base class. *)
Lemma instationary_base_with_ L I r m stepper ops lin P T nv ps est vis cr nm
    (new_rhs new_stepper : option atom) :
  DiscretizationBase_with_
    (instationary_instance L I r m stepper ops lin P T nv ps est vis cr nm)
    (instationary_override new_rhs new_stepper)
  = InstationaryDiscretization__init__ T PyNone PyNone (default PyNone new_rhs)
      PyNone (default (PyTimeStepper stepper) new_stepper) nv (Some P)
      (Some (<["operator" := PyOperator L]>
               (<["mass" := m]>
                  (<["rhs" := default r new_rhs]>
                     (<["initial_data" := PyOperator I]> ∅))) ∪ ops))
      ps est vis cr nm.
Proof.
  destruct (instationary_instance_table L I r m stepper ops lin P T nv
              ps est vis cr nm)
    as (Hty & Ha%getattr_dict & Hm%getattr_dict & Hr%getattr_dict
        & Hi%getattr_dict & Hops%getattr_dict & _ & HP%getattr_dict
        & Hest%getattr_dict & Hvis%getattr_dict & Hcr%getattr_dict
        & Hnm%getattr_dict & Hps%getattr_dict & HT%getattr_dict
        & Hts%getattr_dict & Hnv%getattr_dict & Hadd & _).
  generalize dependent
    (instationary_instance L I r m stepper ops lin P T nv ps est vis cr nm).
  intros d Hty Ha Hm Hr Hi Hops HP Hest Hvis Hcr Hnm Hps HT Hts Hnv Hadd.
  assert (Hattr : forall n, n ∈ init_arguments (type_of d) ->
                            is_ok (getattr d n) = true).
  { rewrite Hty. cbn [init_arguments]. intros n Hn.
    rewrite !elem_of_cons, elem_of_nil in Hn. destruct_or!; subst; try done;
      by eval_lookup. }
  unfold DiscretizationBase_with_, with_arguments.
  rewrite Hty. cbn [special_operators special_overrides init_arguments].
  destruct new_rhs as [N|]; destruct new_stepper as [t|];
    cbn [instationary_override].
  all: eval_with; eval_subset; eval_with; cbn [foldl]; eval_setdefault.
  all: match goal with
       | |- ImmutableInterface_with_ ?d0 ?kw = _ =>
           destruct (ImmutableInterface_with__eval d0 kw _ Hadd)
             as (kw' & -> & Hdom & Hsome & Hget);
             [rewrite Hty; cbn [init_arguments];
              rewrite ?dom_insert_L, ?dom_singleton_L, ?dom_empty_L;
              solve_subset
             | exact Hattr |]
       end.
  all: rewrite Hty in *; cbn [init_arguments] in *.
  all: eval_construct Hdom Hsome Hget.
  all: reflexivity.
Qed.
End Reconfiguration2.

Section ReconfigurationClaims.
Context `{Framework}.

Lemma canonical_type (d : instance) :
  canonical d ->
  match type_of d with
  | Stationary =>
      exists L F ops lin P ps est vis cr nm,
        d = stationary_instance L F ops lin P ps est vis cr nm /\
        ops !! "operator" = Some (PyOperator L) /\
        ops !! "rhs" = Some (PyOperator F) /\
        all_linear (values ops) = Ok lin /\
        stationary_invariants L F = true
  | Instationary =>
      exists L I r m stepper ops lin P T nv ps est vis cr nm,
        d = instationary_instance L I r m stepper ops lin P T nv
              ps est vis cr nm /\
        ops !! "operator" = Some (PyOperator L) /\
        ops !! "mass" = Some m /\
        ops !! "rhs" = Some r /\
        ops !! "initial_data" = Some (PyOperator I) /\
        all_linear (values ops) = Ok lin /\
        instationary_invariants L I r m = true
  end.
Proof.
  intros [L F ops lin P ps est vis cr nm Hop Hrhs Hlin Hinv
         |L I r m stepper ops lin P T nv ps est vis cr nm
            Hop Hm Hr Hi Hlin Hinv].
  - destruct (stationary_instance_table L F ops lin P ps est vis cr nm)
      as (-> & _).
    by exists L, F, ops, lin, P, ps, est, vis, cr, nm.
  - destruct (instationary_instance_table L I r m stepper ops lin P T nv
                ps est vis cr nm) as (-> & _).
    by exists L, I, r, m, stepper, ops, lin, P, T, nv, ps, est, vis, cr, nm.
Qed.

(** The special operators read off the attributes are those of the
    mapping already. *)
Lemma merge_stationary (ops : gmap string atom) (a b : atom) :
  ops !! "operator" = Some a -> ops !! "rhs" = Some b ->
  <["operator" := a]> (<["rhs" := b]> ∅) ∪ ops = ops.
Proof.
  intros Ha Hb. rewrite <- !insert_union_l, (left_id_L ∅ (∪)).
  rewrite (insert_id ops "rhs") by done. by apply insert_id.
Qed.

Lemma merge_instationary (ops : gmap string atom) (a m r i : atom) :
  ops !! "operator" = Some a -> ops !! "mass" = Some m ->
  ops !! "rhs" = Some r -> ops !! "initial_data" = Some i ->
  <["operator" := a]>
    (<["mass" := m]> (<["rhs" := r]> (<["initial_data" := i]> ∅))) ∪ ops
  = ops.
Proof.
  intros Ha Hm Hr Hi. rewrite <- !insert_union_l, (left_id_L ∅ (∪)).
  rewrite (insert_id ops "initial_data") by done.
  rewrite (insert_id ops "rhs") by done.
  rewrite (insert_id ops "mass") by done. by apply insert_id.
Qed.

(** The checks [InstationaryDiscretization.with_] makes before it hands
    over to the base class pass when [time_stepper_nt] is not given. *)
Lemma instationary_with__plain L I r m stepper ops lin P T nv ps est vis cr nm
    (new_rhs new_stepper : option atom) :
  let d := instationary_instance L I r m stepper ops lin P T nv
             ps est vis cr nm in
  with_ d (instationary_override new_rhs new_stepper)
  = DiscretizationBase_with_ d (instationary_override new_rhs new_stepper).
Proof.
  cbn zeta.
  destruct (instationary_instance_table L I r m stepper ops lin P T nv
              ps est vis cr nm) as (Hty & Htable).
  destruct Htable as (_ & _ & _ & _ & _ & _ & _ & _ & _ & _ & _ & _ & _ & _
                      & _ & Hadd & _).
  unfold with_. rewrite Hty.
  unfold InstationaryDiscretization_with_, with_arguments. rewrite Hty, Hadd.
  cbn [mbind result_bind set_of init_arguments].
  destruct new_rhs as [N|]; destruct new_stepper as [t|];
    cbn [instationary_override].
  all: eval_subset; eval_with.
  all: rewrite (bool_decide_eq_false_2 (is_Some None)) by (by intros [? ?]).
  all: cbn [negb orb assert mbind result_bind]; reflexivity.
Qed.
End ReconfigurationClaims.

Section ReconfigurationTheorems.
Context `{Framework}.

Lemma with__nothing (d : instance) : constructed d -> with_ d ∅ = Ok d.
Proof.
  intros Hd%constructed_canonical%canonical_type. destruct (type_of d).
  - destruct Hd as (L & F & ops & lin & P & ps & est & vis & cr & nm & ->
                    & Hop & Hrhs & Hlin & Hinv).
    rewrite (stationary_with_ L F ops lin P ps est vis cr nm None).
    cbn [default from_option id]. rewrite merge_stationary by done.
    apply StationaryDiscretization__init__iff. exists L, F, lin.
    cbn [default from_option id]. unfold resolve, uniquely_given.
    cbn [is_none orb]. rewrite Hop, Hrhs. cbn [default from_option id].
    rewrite (insert_id ops "operator") by done.
    rewrite (insert_id ops "rhs") by done.
    by repeat split.
  - destruct Hd as (L & I & r & m & stepper & ops & lin & P & T & nv & ps
                    & est & vis & cr & nm & -> & Hop & Hm & Hr & Hi & Hlin & Hinv).
    rewrite (instationary_with__plain L I r m stepper ops lin P T nv
               ps est vis cr nm None None).
    rewrite (instationary_base_with_ L I r m stepper ops lin P T nv
               ps est vis cr nm None None).
    cbn [default from_option id]. rewrite merge_instationary by done.
    apply InstationaryDiscretization__init__iff.
    exists L, I, r, m, stepper, lin.
    cbn [default from_option id wrap_initial_data].
    unfold resolve, uniquely_given.
    cbn [is_none orb]. rewrite Hop, Hm, Hr, Hi. cbn [default from_option id].
    rewrite (insert_id ops "operator") by done.
    rewrite (insert_id ops "mass") by done.
    rewrite (insert_id ops "rhs") by done.
    rewrite (insert_id ops "initial_data") by done.
    by repeat split.
Qed.

(** C8: [with_()] without overrides returns an instance that is equal to
    the original in every attribute, so in its operators mapping, special
    operators, products, estimator, visualizer and linear flag, and
    [_solve] behaves on it as on the original for every parameter. *)
Theorem with__no_overrides_is_equivalent (d : instance) :
  constructed d ->
  exists d',
    with_ d ∅ = Ok d' /\
    type_of d' = type_of d /\
    (forall name, getattr d' name = getattr d name) /\
    (forall mu σ, _solve d' mu σ = _solve d mu σ).
Proof.
  intros Hd. exists d. by rewrite with__nothing.
Qed.

Lemma resolve_given (N : atom) (O : gmap string atom) (on : string) :
  O !! on = Some N -> resolve N O on = N.
Proof. unfold resolve. intros ->. by destruct N. Qed.

(** C4: [with_(rhs=new_rhs)] returns an instance whose operators mapping
    has [new_rhs] under ['rhs'], whose attribute [rhs] is [new_rhs], and
    whose other entries of the operators mapping are those of the
    original. *)
Theorem with__rhs_replaces_rhs_only (d d' : instance) (new_rhs : atom) :
  constructed d ->
  with_ d {[ "rhs" := Atom new_rhs ]} = Ok d' ->
  exists ops ops',
    getattr d "operators" = Ok (PyDict ops) /\
    getattr d' "operators" = Ok (PyDict ops') /\
    ops' !! "rhs" = Some new_rhs /\
    getattr d' "rhs" = Ok (Atom new_rhs) /\
    forall k, k <> "rhs" -> ops' !! k = ops !! k.
Proof.
  intros Hd%constructed_canonical%canonical_type Hwith.
  destruct (type_of d).
  - destruct Hd as (L & F & ops & lin & P & ps & est & vis & cr & nm & ->
                    & Hop & Hrhs & Hlin & Hinv).
    change ({[ "rhs" := Atom new_rhs ]} : gmap string pyval)
      with (rhs_override (Some new_rhs)) in Hwith.
    rewrite stationary_with_ in Hwith. cbn [default from_option id] in Hwith.
    apply StationaryDiscretization__init__iff in Hwith
      as (L' & F' & lin' & _ & _ & Ha & Hb & _ & _ & ->).
    cbn [default from_option id] in Ha, Hb |- *.
    set (O := <["operator":=PyOperator L]> (<["rhs":=new_rhs]> ∅) ∪ ops) in *.
    assert (HO1 : O !! "operator" = Some (PyOperator L)).
    { unfold O. by rewrite <- insert_union_l, lookup_insert_eq. }
    assert (HO2 : O !! "rhs" = Some new_rhs).
    { unfold O. rewrite <- !insert_union_l.
      by rewrite lookup_insert_ne, lookup_insert_eq. }
    assert (HO3 : forall k, k <> "operator" -> k <> "rhs" -> O !! k = ops !! k).
    { intros k ? ?. unfold O. rewrite <- !insert_union_l.
      rewrite !lookup_insert_ne by done. by rewrite (left_id_L ∅ (∪)). }
    unfold resolve in Ha. cbn [is_none] in Ha. rewrite HO1 in Ha.
    injection Ha as <-. rewrite (resolve_given _ _ _ HO2) in Hb. subst new_rhs.
    destruct (stationary_instance_table L F ops lin P ps est vis cr nm)
      as (_ & _ & _ & Hops%getattr_dict & _).
    match goal with
    | |- context [stationary_instance L F' ?o ?l ?P' ps est vis cr nm] =>
        destruct (stationary_instance_table L F' o l P' ps est vis cr nm)
          as (_ & _ & Hrhs'%getattr_dict & Hops'%getattr_dict & _)
    end.
    eexists _, _. split; [exact Hops|]. split; [exact Hops'|].
    split; [by rewrite lookup_insert_eq|]. split; [done|].
    intros k Hk. rewrite lookup_insert_ne by done.
    destruct (decide (k = "operator")) as [->|].
    + by rewrite lookup_insert_eq.
    + rewrite lookup_insert_ne by done. by apply HO3.
  - destruct Hd as (L & I & r & m & stepper & ops & lin & P & T & nv & ps
                    & est & vis & cr & nm & -> & Hop & Hm & Hr & Hi & Hlin & Hinv).
    change ({[ "rhs" := Atom new_rhs ]} : gmap string pyval)
      with (instationary_override (Some new_rhs) None) in Hwith.
    rewrite instationary_with__plain, instationary_base_with_ in Hwith.
    cbn [default from_option id] in Hwith.
    apply InstationaryDiscretization__init__iff in Hwith
      as (L' & I' & r' & m' & stepper' & lin' & _ & _ & _ & _ & Ha & Hm'
          & Hr' & Hi' & _ & Hts & _ & ->).
    cbn [default from_option id wrap_initial_data] in Ha, Hm', Hr', Hi' |- *.
    set (O := <["operator":=PyOperator L]>
                (<["mass":=m]>
                   (<["rhs":=new_rhs]> (<["initial_data":=PyOperator I]> ∅)))
              ∪ ops) in *.
    assert (HO : forall k,
      O !! k = if decide (k = "rhs") then Some new_rhs else ops !! k).
    { intros k. unfold O. rewrite <- !insert_union_l, (left_id_L ∅ (∪)).
      rewrite !lookup_insert. repeat case_decide; by subst. }
    assert (HOne : forall k, k <> "rhs" -> O !! k = ops !! k).
    { intros k Hk. rewrite HO. by case_decide. }
    assert (HOrhs : O !! "rhs" = Some new_rhs).
    { rewrite HO. by case_decide. }
    unfold resolve in Ha, Hm', Hi'. cbn [is_none] in Ha, Hm', Hi'.
    rewrite HOne in Ha, Hm', Hi' by discriminate.
    rewrite Hop in Ha. rewrite Hm in Hm'. rewrite Hi in Hi'.
    cbn [default from_option id] in Ha, Hm', Hi'.
    injection Ha as <-. injection Hi' as <-. subst m'.
    assert (r' = new_rhs) as ->.
    { rewrite <- Hr'. by apply resolve_given. }
    destruct (instationary_instance_table L I r m stepper ops lin P T nv
                ps est vis cr nm)
      as (_ & _ & _ & _ & _ & Hops%getattr_dict & _).
    match goal with
    | |- context [instationary_instance L I new_rhs m stepper' ?o ?l ?P'
                    T nv ps est vis cr nm] =>
        destruct (instationary_instance_table L I new_rhs m stepper' o l P'
                    T nv ps est vis cr nm)
          as (_ & _ & _ & Hrhs'%getattr_dict & _ & Hops'%getattr_dict & _)
    end.
    eexists _, _. split; [exact Hops|]. split; [exact Hops'|].
    split; [by rewrite lookup_insert_ne, lookup_insert_eq|]. split; [done|].
    intros k Hk. rewrite !lookup_insert. repeat case_decide; subst; try done.
    by apply HOne.
Qed.

(** C7, as the code has it: [with_] of an instationary discretization
    given both [time_stepper] and [time_stepper_nt] fails an assertion;
    given [time_stepper_nt] alone it returns, when the time-stepper has an
    [nt] attribute and [time_stepper.with_(nt=value)] returns a stepper, the
    instance that [with_(time_stepper=...)] returns for that stepper, and
    fails an assertion when the time-stepper has no [nt]. *)
Theorem with__time_stepper_nt (d : instance) (stepper : TimeStepper) :
  constructed d -> type_of d = Instationary ->
  getattr d "time_stepper" = Ok (Atom (PyTimeStepper stepper)) ->
  (forall kwargs,
     is_Some (kwargs !! "time_stepper") ->
     is_Some (kwargs !! "time_stepper_nt") ->
     with_ d kwargs = Err AssertionError) /\
  (forall value stepper',
     is_Some (nt stepper) ->
     TimeStepper_with_ stepper value = Ok stepper' ->
     exists d',
       with_ d {[ "time_stepper_nt" := value ]} = Ok d' /\
       with_ d {[ "time_stepper" := Atom (PyTimeStepper stepper') ]} = Ok d' /\
       getattr d' "time_stepper" = Ok (Atom (PyTimeStepper stepper'))) /\
  (forall value,
     nt stepper = None ->
     with_ d {[ "time_stepper_nt" := value ]} = Err AssertionError).
Proof.
  intros Hd%constructed_canonical%canonical_type Hty Hts. rewrite Hty in Hd.
  destruct Hd as (L & I & r & m & stepper0 & ops & lin & P & T & nv & ps
                  & est & vis & cr & nm & -> & Hop & Hm & Hr & Hi & Hlin & Hinv).
  destruct (instationary_instance_table L I r m stepper0 ops lin P T nv
              ps est vis cr nm)
    as (_ & _ & _ & _ & _ & _ & _ & _ & _ & _ & _ & _ & _ & _
        & Hts0%getattr_dict & _ & Hadd & _).
  rewrite Hts0 in Hts. injection Hts as ->.
  assert (Hnew : forall stepper',
    InstationaryDiscretization__init__ T PyNone PyNone PyNone PyNone
      (PyTimeStepper stepper') nv (Some P) (Some ops) ps est vis cr nm
    = Ok (instationary_instance L I r m stepper' ops lin P T nv
            ps est vis cr nm)).
  { intros stepper'. apply InstationaryDiscretization__init__iff.
    exists L, I, r, m, stepper', lin.
    cbn [default from_option id wrap_initial_data].
    unfold resolve, uniquely_given.
    cbn [is_none orb]. rewrite Hop, Hm, Hr, Hi. cbn [default from_option id].
    rewrite (insert_id ops "operator") by done.
    rewrite (insert_id ops "mass") by done.
    rewrite (insert_id ops "rhs") by done.
    rewrite (insert_id ops "initial_data") by done.
    by repeat split. }
  assert (Hplain : forall stepper',
    with_ (instationary_instance L I r m stepper ops lin P T nv
             ps est vis cr nm)
      {[ "time_stepper" := Atom (PyTimeStepper stepper') ]}
    = Ok (instationary_instance L I r m stepper' ops lin P T nv
            ps est vis cr nm)).
  { intros stepper'.
    change ({[ "time_stepper" := Atom (PyTimeStepper stepper') ]}
              : gmap string pyval)
      with (instationary_override None (Some (PyTimeStepper stepper'))).
    rewrite instationary_with__plain, instationary_base_with_.
    cbn [default from_option id]. rewrite merge_instationary by done.
    apply Hnew. }
  split; [|split].
  - intros kwargs Hboth1 Hboth2. unfold with_. rewrite Hty.
    unfold InstationaryDiscretization_with_, with_arguments. rewrite Hadd.
    cbn [mbind result_bind set_of].
    destruct (bool_decide (dom kwargs ⊆ _)); cbn [assert mbind result_bind];
      [|done].
    by rewrite !bool_decide_eq_true_2 by done.
  - intros value stepper' Hnt Hwith.
    exists (instationary_instance L I r m stepper' ops lin P T nv
              ps est vis cr nm).
    split; [|split; [apply Hplain|]].
    + rewrite <- (Hplain stepper'). unfold with_ at 1. rewrite Hty.
      unfold InstationaryDiscretization_with_ at 1. unfold with_arguments.
      rewrite Hadd, Hty. rewrite (bool_decide_eq_true_2 _ Hnt).
      cbn [mbind result_bind set_of init_arguments].
      eval_subset. eval_with.
      rewrite (bool_decide_eq_false_2 (is_Some None)) by (by intros [? ?]).
      cbn [negb]. rewrite orb_true_r.
      cbn [assert mbind result_bind method_with_]. rewrite Hwith.
      cbn [mbind result_bind].
      rewrite delete_singleton_eq, insert_empty.
      change ({[ "time_stepper" := Atom (PyTimeStepper stepper') ]}
                : gmap string pyval)
        with (instationary_override None (Some (PyTimeStepper stepper'))).
      by rewrite instationary_with__plain.
    + match goal with
      | |- getattr (instationary_instance ?a ?b ?c ?e ?f ?g ?h ?i ?j ?k ?l
                      ?m0 ?n ?o ?p) _ = _ =>
          destruct (instationary_instance_table a b c e f g h i j k l m0 n o p)
            as (_ & _ & _ & _ & _ & _ & _ & _ & _ & _ & _ & _ & _ & _
                & Hts'%getattr_dict & _)
      end.
      exact Hts'.
  - intros value Hnt. unfold with_. rewrite Hty.
    unfold InstationaryDiscretization_with_, with_arguments.
    rewrite Hadd, Hty, Hnt.
    rewrite (bool_decide_eq_false_2 (is_Some None)) by (by intros [? ?]).
    cbn [mbind result_bind set_of init_arguments].
    rewrite dom_singleton_L.
    rewrite (bool_decide_eq_false_2 (_ ⊆ _)); [done|].
    intros Hsub%(bool_decide_pack _). vm_compute in Hsub. exact Hsub.
Qed.
End ReconfigurationTheorems.

(** Decides a closed statement by evaluation. *)
Ltac by_evaluation := apply (bool_decide_unpack _); vm_compute; exact I.

Lemma d_stationary_constructed : constructed Example.d_stationary.
Proof.
  refine (constructed_stationary Example.L Example.F None None
            PyNone PyNone PyNone PyNone (PyStr "d") Example.d_stationary _).
  by_evaluation.
Defined.

Lemma d_fixed_constructed : constructed Example.d_fixed.
Proof.
  refine (constructed_instationary (PyNum 1) Example.u0 Example.L Example.F
            PyNone Example.fixed PyNone (Some Example.h1) None
            PyNone PyNone PyNone PyNone (PyStr "i") Example.d_fixed _).
  by_evaluation.
Defined.

Lemma d_adaptive_constructed : constructed Example.d_adaptive.
Proof.
  refine (constructed_instationary (PyNum 1) Example.u0 Example.L Example.F
            PyNone Example.adaptive PyNone (Some Example.h1) None
            PyNone PyNone PyNone PyNone (PyStr "i") Example.d_adaptive _).
  by_evaluation.
Defined.

(** The claim C7 as stated fails for a time-stepper without [nt]:
    [with_(time_stepper_nt=3)] raises. *)
Lemma time_stepper_nt_refused_without_nt :
  constructed Example.d_adaptive /\
  type_of Example.d_adaptive = Instationary /\
  with_ Example.d_adaptive {[ "time_stepper_nt" := Atom (PyNum 3) ]}
  = Err AssertionError.
Proof.
  split; [exact d_adaptive_constructed|]. split; by_evaluation.
Qed.

(** ** The theorems at concrete instances *)

Lemma stationary_solve_witness :
  constructed Example.d_stationary /\
  type_of Example.d_stationary = Stationary /\
  exists L F,
    getattr Example.d_stationary "operator" = Ok (Atom (PyOperator L)) /\
    getattr Example.d_stationary "rhs" = Ok (Atom (PyOperator F)) /\
    forall mu σ,
      match Parametric_parse_parameter Example.d_stationary mu σ with
      | (Err e, σ1) =>
          StationaryDiscretization__solve Example.d_stationary mu σ = (Err e, σ1)
      | (Ok l, σ1) =>
          forall p, store σ1 !! l = Some p ->
            let out := StationaryDiscretization__solve Example.d_stationary mu σ in
            fst out = (V ← as_source_array F p; apply_inverse L V p) /\
            store (snd out) = store σ1 /\
            (forall V e, as_source_array F p = Ok V ->
                         apply_inverse L V p = Err e -> fst out = Err e)
      end.
Proof.
  split; [exact d_stationary_constructed|]. split; [by_evaluation|].
  apply (stationary_solve_applies_inverse Example.d_stationary);
    [exact d_stationary_constructed | by_evaluation].
Defined.

Lemma instationary_solve_witness :
  constructed Example.d_fixed /\
  type_of Example.d_fixed = Instationary /\
  exists L I r m stepper T nv,
    getattr Example.d_fixed "operator" = Ok (Atom (PyOperator L)) /\
    getattr Example.d_fixed "initial_data" = Ok (Atom (PyOperator I)) /\
    getattr Example.d_fixed "rhs" = Ok (Atom r) /\
    getattr Example.d_fixed "mass" = Ok (Atom m) /\
    getattr Example.d_fixed "time_stepper" = Ok (Atom (PyTimeStepper stepper)) /\
    getattr Example.d_fixed "T" = Ok (Atom T) /\
    getattr Example.d_fixed "num_values" = Ok (Atom nv) /\
    forall mu σ l σ1 p,
      Parametric_parse_parameter Example.d_fixed mu σ = (Ok l, σ1) ->
      store σ1 !! l = Some p ->
      let clone := fresh (dom (store σ1)) in
      let mu0 : Param := <["_t" := Scalar 0]> p in
      let out := InstationaryDiscretization__solve Example.d_fixed mu σ in
      fst out = (as_range_array I mu0 ≫= fun U0 =>
               TimeStepper_solve stepper (Atom (PyOperator L)) (Atom r) U0
                 (Atom m) 0%Z (Atom T) mu0 (Atom nv)) /\
      store (snd out) = <[clone := mu0]> (store σ1) /\
      (clone ∉ dom (store σ1)) /\
      (forall l0, l0 ∈ dom (store σ) -> store (snd out) !! l0 = store σ !! l0).
Proof.
  split; [exact d_fixed_constructed|]. split; [by_evaluation|].
  apply (instationary_solve_calls_time_stepper Example.d_fixed);
    [exact d_fixed_constructed | by_evaluation].
Defined.

Lemma with__rhs_witness :
  constructed Example.d_stationary /\
  with_ Example.d_stationary {[ "rhs" := Atom Example.G ]}
    = Ok Example.d_stationary_G /\
  exists ops ops',
    getattr Example.d_stationary "operators" = Ok (PyDict ops) /\
    getattr Example.d_stationary_G "operators" = Ok (PyDict ops') /\
    ops' !! "rhs" = Some Example.G /\
    getattr Example.d_stationary_G "rhs" = Ok (Atom Example.G) /\
    forall k, k <> "rhs" -> ops' !! k = ops !! k.
Proof.
  split; [exact d_stationary_constructed|].
  assert (Hwith : with_ Example.d_stationary {[ "rhs" := Atom Example.G ]}
                  = Ok Example.d_stationary_G) by by_evaluation.
  split; [exact Hwith|].
  exact (with__rhs_replaces_rhs_only Example.d_stationary
           Example.d_stationary_G Example.G d_stationary_constructed Hwith).
Defined.

Lemma linear_flag_witness :
  constructed Example.d_fixed /\
  exists ops lin,
    getattr Example.d_fixed "operators" = Ok (PyDict ops) /\
    getattr Example.d_fixed "linear" = Ok (Atom (PyBool lin)) /\
    (lin = true <->
     forall k a, ops !! k = Some a ->
       a = PyNone \/ exists o, a = PyOperator o /\ linear o = true) /\
    (lin = false <->
     exists k o, ops !! k = Some (PyOperator o) /\ linear o = false).
Proof.
  split; [exact d_fixed_constructed|].
  exact (linear_flag_is_conjunction Example.d_fixed d_fixed_constructed).
Defined.

Lemma with__no_overrides_witness :
  constructed Example.d_fixed /\
  exists d',
    with_ Example.d_fixed ∅ = Ok d' /\
    type_of d' = type_of Example.d_fixed /\
    (forall name, getattr d' name = getattr Example.d_fixed name) /\
    (forall mu σ, _solve d' mu σ = _solve Example.d_fixed mu σ).
Proof.
  split; [exact d_fixed_constructed|].
  exact (with__no_overrides_is_equivalent Example.d_fixed d_fixed_constructed).
Defined.

Lemma special_operator_witness :
  special_operator_agrees Example.d_stationary "rhs" /\
  special_operator_agrees Example.d_stationary_G "rhs" /\
  is_ok (DiscretizationBase__init__ (special_operators Stationary)
           Example.d_stationary None None PyNone PyNone PyNone (PyStr "d")
           {[ "operator" := Example.L; "rhs" := Example.F ]}) = false.
Proof.
  destruct special_operator_attribute_agrees as (Hc & Hw & Hcoll).
  split; [|split].
  - apply Hc; [exact d_stationary_constructed | by_evaluation].
  - apply (Hw Example.d_stationary {[ "rhs" := Atom Example.G ]});
      by_evaluation.
  - apply (Hcoll _ _ _ _ _ _ _ _ _ "rhs"); by_evaluation.
Defined.

Lemma operators_mapping_witness :
  exists ops,
    getattr Example.d_fixed "operators" = Ok (PyDict ops) /\
    forall on, on ∈ special_operators (type_of Example.d_fixed) ->
      is_Some (ops !! on).
Proof.
  destruct operators_mapping_has_special_names as (_ & Hc).
  exact (Hc Example.d_fixed d_fixed_constructed).
Defined.

Lemma product_operator_witness :
  Example.h1 !! "h1" = Some Example.L /\
  product_exposed Example.d_fixed "h1" Example.L.
Proof.
  assert (Hk : Example.h1 !! "h1" = Some Example.L) by by_evaluation.
  split; [exact Hk|].
  destruct (product_operator_exposed "h1" Example.L Example.h1 Hk)
    as (_ & Hinst).
  apply (Hinst (PyNum 1) Example.u0 Example.L Example.F PyNone
           Example.fixed PyNone None PyNone PyNone PyNone PyNone (PyStr "i")).
  by_evaluation.
Defined.

Lemma with__time_stepper_nt_witness :
  constructed Example.d_fixed /\
  type_of Example.d_fixed = Instationary /\
  getattr Example.d_fixed "time_stepper" = Ok (Atom Example.fixed) /\
  with_ Example.d_fixed
    {[ "time_stepper" := Atom Example.adaptive;
       "time_stepper_nt" := Atom (PyNum 3) ]} = Err AssertionError /\
  exists d',
    with_ Example.d_fixed {[ "time_stepper_nt" := Atom (PyNum 3) ]} = Ok d' /\
    with_ Example.d_fixed
      {[ "time_stepper" := Atom (PyTimeStepper (Example.FixedSteps 3)) ]}
    = Ok d' /\
    getattr d' "time_stepper"
    = Ok (Atom (PyTimeStepper (Example.FixedSteps 3))).
Proof.
  assert (Hty : type_of Example.d_fixed = Instationary) by by_evaluation.
  assert (Hts : getattr Example.d_fixed "time_stepper"
                = Ok (Atom Example.fixed)) by by_evaluation.
  destruct (with__time_stepper_nt Example.d_fixed (Example.FixedSteps 10)
              d_fixed_constructed Hty Hts) as (Hboth & Hnt & _).
  split; [exact d_fixed_constructed|]. split; [exact Hty|].
  split; [exact Hts|]. split.
  - apply Hboth; by_evaluation.
  - apply (Hnt (Atom (PyNum 3)) (Example.FixedSteps 3)); by_evaluation.
Defined.

(** * Further properties *)

Section Readback.
Context `{Framework}.

Lemma stationary_plain_attributes operator rhs products operators
    parameter_space estimator visualizer cache_region name d :
  StationaryDiscretization__init__ operator rhs products operators
    parameter_space estimator visualizer cache_region name = Ok d ->
  getattr d "parameter_space" = Ok (Atom parameter_space) /\
  getattr d "estimator" = Ok (Atom estimator) /\
  getattr d "visualizer" = Ok (Atom visualizer) /\
  getattr d "name" = Ok (Atom name).
Proof.
  intros (L & F & lin & _ & _ & _ & _ & _ & _ & ->)%StationaryDiscretization__init__iff.
  destruct (stationary_instance_table L F
              (<["rhs" := PyOperator F]>
                 (<["operator" := PyOperator L]> (default ∅ operators)))
              lin (default ∅ products)
              parameter_space estimator visualizer cache_region name)
    as (_ & _ & _ & _ & _ & _ & Hest & Hvis & _ & Hnm & Hps & _).
  by repeat split; apply getattr_dict.
Qed.

Lemma instationary_plain_attributes T initial_data operator rhs mass
    time_stepper num_values products operators
    parameter_space estimator visualizer cache_region name d :
  InstationaryDiscretization__init__ T initial_data operator rhs mass
    time_stepper num_values products operators
    parameter_space estimator visualizer cache_region name = Ok d ->
  getattr d "T" = Ok (Atom T) /\
  getattr d "time_stepper" = Ok (Atom time_stepper) /\
  getattr d "num_values" = Ok (Atom num_values) /\
  getattr d "parameter_space" = Ok (Atom parameter_space) /\
  getattr d "estimator" = Ok (Atom estimator) /\
  getattr d "visualizer" = Ok (Atom visualizer) /\
  getattr d "name" = Ok (Atom name).
Proof.
  intros (L & I & r & m & stepper & lin & _ & _ & _ & _ & _ & _ & _ & _ & _
          & -> & _ & ->)%InstationaryDiscretization__init__iff.
  match goal with
  | |- context [instationary_instance L I r m stepper ?ops lin ?P] =>
      destruct (instationary_instance_table L I r m stepper ops lin P
                  T num_values parameter_space estimator visualizer
                  cache_region name)
        as (_ & _ & _ & _ & _ & _ & _ & _ & Hest & Hvis & _ & Hnm & Hps
            & HT & Hts & Hnv & _)
  end.
  by repeat split; apply getattr_dict.
Qed.

Lemma constructed_with_attributes estimator visualizer d :
  constructed_with estimator visualizer d ->
  getattr d "estimator" = Ok (Atom estimator) /\
  getattr d "visualizer" = Ok (Atom visualizer).
Proof.
  intros [(operator & rhs & products & operators & ps & cr & nm & Hinit)
         |(T & i & operator & rhs & mass & ts & nv & products & operators
           & ps & cr & nm & Hinit)].
  - by apply stationary_plain_attributes in Hinit as (_ & ? & ? & _).
  - by apply instationary_plain_attributes in Hinit
      as (_ & _ & _ & _ & ? & ? & _).
Qed.
End Readback.

Section LoopErrors.
Context `{Framework}.

Lemma handle_special_operator_Err kwargs st on e :
  handle_special_operator kwargs st on = Err e ->
  is_Some (kwargs !! on) -> e = AssertionError.
Proof.
  destruct st as [self ops]. unfold handle_special_operator, getitem.
  intros Hstep [kw Hkw]. rewrite Hkw in Hstep.
  destruct (negb (hasattr self on)); cbn in Hstep; [|congruence].
  destruct (is_none kw || _ || _); cbn in Hstep; [|congruence].
  destruct (is_none _ || _); cbn in Hstep; congruence.
Qed.

Lemma handle_special_operators_Err kwargs sp : forall st e,
  handle_special_operators kwargs sp st = Err e ->
  (forall on, on ∈ sp -> is_Some (kwargs !! on)) -> e = AssertionError.
Proof.
  induction sp as [|on sp IH]; intros st e Hloop Hkw; [done|].
  cbn [handle_special_operators] in Hloop.
  destruct (handle_special_operator kwargs st on) as [st'|e'] eqn:Hstep.
  - cbn in Hloop. eapply IH; [done|]. intros on' Hon'. apply Hkw. by right.
  - cbn in Hloop. injection Hloop as <-.
    eapply handle_special_operator_Err; [done|]. apply Hkw. by left.
Qed.

(** What every round has checked when the loop returns. *)
Lemma handle_special_operators_checked kwargs sp : forall self ops st,
  handle_special_operators kwargs sp (self, ops) = Ok st ->
  forall on, on ∈ sp ->
    exists kw, kwargs !! on = Some kw /\
      uniquely_given kw ops on = true /\
      is_none (resolve kw ops on)
        || isinstance_OperatorInterface (resolve kw ops on) = true.
Proof.
  induction sp as [|on sp IH]; intros self ops st Hloop on' Hon'.
  { by apply elem_of_nil in Hon'. }
  cbn [handle_special_operators] in Hloop.
  apply bind_Ok in Hloop as (st1 & Hstep & Hloop).
  apply handle_special_operator_iff in Hstep
    as (_ & (kw & Hkw & Hu) & Hop & ->).
  apply elem_of_cons in Hon' as [->|Hon'].
  - exists kw. by rewrite <- (resolved_resolve kwargs ops on kw Hkw).
  - assert (on <> on') as Hne.
    { intros <-. destruct st as [self' ops'].
      apply handle_special_operators_spec in Hloop as (_ & _ & Hin & _).
      destruct (Hin on Hon') as (Hf & _). by rewrite hasattr_setattr in Hf. }
    destruct (IH _ _ _ Hloop on' Hon') as (kw' & Hkw' & Hu' & Hop').
    exists kw'. split; [done|].
    by rewrite uniquely_given_insert_ne, resolve_insert_ne in *.
Qed.

Lemma DiscretizationBase__init__loop_Err sp self operators products
    estimator visualizer cache_region name kwargs e :
  handle_special_operators kwargs sp (self, default ∅ operators) = Err e ->
  DiscretizationBase__init__ sp self operators products
    estimator visualizer cache_region name kwargs = Err e.
Proof.
  intros Hloop. unfold DiscretizationBase__init__.
  replace (match operators with Some d => d | None => ∅ end)
    with (default ∅ operators) by by destruct operators.
  by rewrite Hloop.
Qed.

(** The base constructor fails an assertion when the loop over the
    special operators cannot have returned. *)
Lemma DiscretizationBase__init__refuses sp self operators products
    estimator visualizer cache_region name kwargs on kw :
  (forall on, on ∈ sp -> is_Some (kwargs !! on)) ->
  on ∈ sp -> kwargs !! on = Some kw ->
  uniquely_given kw (default ∅ operators) on = false \/
  is_none (resolve kw (default ∅ operators) on)
    || isinstance_OperatorInterface (resolve kw (default ∅ operators) on)
    = false ->
  DiscretizationBase__init__ sp self operators products
    estimator visualizer cache_region name kwargs = Err AssertionError.
Proof.
  intros Hall Hon Hkw Hbad. apply DiscretizationBase__init__loop_Err.
  destruct (handle_special_operators _ _ _) as [st|e] eqn:Hloop.
  - destruct (handle_special_operators_checked _ _ _ _ _ Hloop on Hon)
      as (kw' & Hkw' & Hu & Hop).
    assert (kw' = kw) as -> by congruence.
    destruct Hbad; congruence.
  - f_equal. by eapply handle_special_operators_Err.
Qed.

Lemma conflicting_not_unique kw O on :
  conflicting kw O on -> uniquely_given kw O on = false.
Proof.
  intros (Hkw & a & Ha & Hne). unfold uniquely_given. rewrite Ha.
  rewrite bool_decide_eq_true_2 by by eexists.
  rewrite bool_decide_eq_false_2 by congruence.
  by destruct kw.
Qed.

Lemma not_an_operator_refused kw O on :
  not_an_operator kw ->
  is_none (resolve kw O on) || isinstance_OperatorInterface (resolve kw O on)
  = false.
Proof.
  intros (Hkw & Hop). unfold resolve.
  destruct kw; try done. by destruct (Hop o).
Qed.
End LoopErrors.

(** Proves that every name of a literal list of special operators is a
    key of a literal keyword dictionary. *)
Ltac all_keywords :=
  let on := fresh "on" in let Hon := fresh "Hon" in
  intros on Hon; cbn [special_operators] in Hon;
  repeat (apply elem_of_cons in Hon as [->|Hon]; [by eexists; kw_lookup|]);
  by apply elem_of_nil in Hon.

(** Rewrites a base constructor call that fails an assertion in the round
    of the special operator [on]; [reason] proves which check fails. *)
Ltac refused on reason :=
  erewrite (DiscretizationBase__init__refuses _ _ _ _ _ _ _ _ _ on);
  [ done | all_keywords | cbn [special_operators]; solve_elem
  | by kw_lookup | reason ].

Section ConstructorTheorems.
Context `{Framework}.

(** X3: the arguments [parameter_space], [estimator], [visualizer] and
    [name] of either constructor, and [T], [time_stepper] and [num_values]
    of the instationary one, are the values of the attributes of these
    names on the instance that is returned. *)
Theorem constructor_arguments_read_back :
  (forall operator rhs products operators
          parameter_space estimator visualizer cache_region name d,
     StationaryDiscretization__init__ operator rhs products operators
       parameter_space estimator visualizer cache_region name = Ok d ->
     getattr d "parameter_space" = Ok (Atom parameter_space) /\
     getattr d "estimator" = Ok (Atom estimator) /\
     getattr d "visualizer" = Ok (Atom visualizer) /\
     getattr d "name" = Ok (Atom name)) /\
  (forall T initial_data operator rhs mass time_stepper num_values
          products operators
          parameter_space estimator visualizer cache_region name d,
     InstationaryDiscretization__init__ T initial_data operator rhs mass
       time_stepper num_values products operators
       parameter_space estimator visualizer cache_region name = Ok d ->
     getattr d "T" = Ok (Atom T) /\
     getattr d "time_stepper" = Ok (Atom time_stepper) /\
     getattr d "num_values" = Ok (Atom num_values) /\
     getattr d "parameter_space" = Ok (Atom parameter_space) /\
     getattr d "estimator" = Ok (Atom estimator) /\
     getattr d "visualizer" = Ok (Atom visualizer) /\
     getattr d "name" = Ok (Atom name)).
Proof.
  split.
  - intros *. apply stationary_plain_attributes.
  - intros *. apply instationary_plain_attributes.
Qed.

Lemma rhs_invariant_true (L : Operator) (rhs : atom) :
  rhs_invariant L rhs = true <-> rhs_admissible L rhs.
Proof.
  unfold rhs_invariant, rhs_admissible, eq_space. split.
  - destruct rhs as [| | | |F| | | | | |]; try done; [by left|].
    rewrite !andb_true_iff, !bool_decide_eq_true. intros ((? & ?) & ?).
    right. by exists F.
  - intros [->|(F & -> & ? & ? & ?)]; [done|].
    by rewrite !andb_true_iff, !bool_decide_eq_true.
Qed.

Lemma mass_invariant_true (L : Operator) (mass : atom) :
  mass_invariant L mass = true <-> mass_admissible L mass.
Proof.
  unfold mass_invariant, mass_admissible, eq_space. split.
  - destruct mass as [| | | |F| | | | | |]; try done; [by left|].
    rewrite !andb_true_iff, !bool_decide_eq_true. intros ((? & ?) & ?).
    right. by exists F.
  - intros [->|(F & -> & ? & ? & ?)]; [done|].
    by rewrite !andb_true_iff, !bool_decide_eq_true.
Qed.

Lemma instationary_invariants_true (L I : Operator) (rhs mass : atom) :
  instationary_invariants L I rhs mass = true
  <-> source I = NumpyVectorSpace 1 /\ source L = range L /\
      range L = range I /\ rhs_admissible L rhs /\ mass_admissible L mass.
Proof.
  unfold instationary_invariants, eq_space.
  rewrite !andb_true_iff, !bool_decide_eq_true,
    rhs_invariant_true, mass_invariant_true. tauto.
Qed.

Lemma wrap_initial_data_operator (initial_data : atom) (I : Operator) :
  wrap_initial_data initial_data = PyOperator I
  <-> initial_data = PyOperator I \/
      exists U, initial_data = PyVectorArray U /\
                I = VectorOperator U "initial_data".
Proof.
  split.
  - destruct initial_data; try done; cbn; intros [= <-]; eauto.
  - by intros [->|(U & -> & ->)].
Qed.

Lemma instationary_instance_solution_space
    L I r m stepper ops lin P T nv ps est vis cr nm :
  getattr (instationary_instance L I r m stepper ops lin P T nv
             ps est vis cr nm) "solution_space"
  = Ok (Atom (PyVectorSpace (source L))).
Proof.
  apply getattr_dict. unfold instationary_instance. cbn zeta.
  destruct (bool_decide (is_Some (nt stepper))); dict_lookup.
Qed.

(** X4: with every special operator given by its keyword, constructing an
    instationary discretization returns an instance exactly when
    [operator] is an operator, [initial_data] an operator or a
    |VectorArray|, [time_stepper] a time-stepper, and the space and
    linearity conditions the constructor asserts hold, [rhs] and [mass]
    being allowed to be [None]; the instance then has
    [solution_space == operator.source]. *)
Theorem instationary_construction_iff_invariants
    (T initial_data operator rhs mass time_stepper num_values : atom)
    (products : option (gmap string atom))
    (parameter_space estimator visualizer cache_region name : atom) :
  match InstationaryDiscretization__init__ T initial_data operator rhs mass
          time_stepper num_values products None
          parameter_space estimator visualizer cache_region name with
  | Ok d =>
      instationary_requirements initial_data operator rhs mass time_stepper /\
      exists L, operator = PyOperator L /\
        getattr d "solution_space" = Ok (Atom (PyVectorSpace (source L)))
  | Err _ =>
      ~ instationary_requirements initial_data operator rhs mass time_stepper
  end.
Proof.
  destruct (InstationaryDiscretization__init__ _ _ _ _ _ _ _ _ _ _ _ _ _ _)
    as [d|e] eqn:Hinit.
  - apply InstationaryDiscretization__init__iff in Hinit
      as (L & I & r & m & stepper & lin & _ & _ & _ & _ & Ha & Hm & Hr & Hi
          & _ & -> & Hinv & ->).
    cbn [default] in Ha, Hm, Hr, Hi. rewrite resolve_empty in Ha, Hm, Hr, Hi.
    subst. apply instationary_invariants_true in Hinv
      as (? & ? & ? & ? & ?).
    apply wrap_initial_data_operator in Hi. split.
    + by exists L, I, stepper.
    + exists L. split; [done|]. apply instationary_instance_solution_space.
  - intros (L & I & stepper & -> & Hi & -> & HI & HL & HLI & Hr & Hm).
    apply wrap_initial_data_operator in Hi.
    assert (instationary_invariants L I rhs mass = true) as Hinv
      by by apply instationary_invariants_true.
    assert (exists d, InstationaryDiscretization__init__ T initial_data
              (PyOperator L) rhs mass (PyTimeStepper stepper) num_values
              products None parameter_space estimator visualizer
              cache_region name = Ok d) as [d Hd]; [|congruence].
    eexists. apply InstationaryDiscretization__init__iff.
    exists L, I, rhs, mass, stepper. eexists. cbn [default].
    rewrite !uniquely_given_empty, !resolve_empty.
    split; [done|]. split; [done|]. split; [done|]. split; [done|].
    split; [done|]. split; [done|]. split; [done|]. split; [done|].
    split; [|split; [done|split; [done|reflexivity]]].
    apply all_linear_total, Forall_values. intros k a.
    apply rhs_invariant_true, rhs_invariant_valid in Hr.
    apply mass_invariant_true, mass_invariant_valid in Hm.
    rewrite !lookup_insert. repeat case_decide; rewrite ?lookup_empty;
      by intros [= <-].
Qed.

(** X5: when [initial_data] is a |VectorArray| [U], the instance that is
    returned holds [VectorOperator(U, name='initial_data')] as its
    attribute [initial_data] and under ['initial_data'] in its operators
    mapping. *)
Theorem vector_array_initial_data_is_wrapped
    (U : VectorArray)
    (T operator rhs mass time_stepper num_values : atom)
    (products operators : option (gmap string atom))
    (parameter_space estimator visualizer cache_region name : atom)
    (d : instance) :
  InstationaryDiscretization__init__ T (PyVectorArray U) operator rhs mass
    time_stepper num_values products operators
    parameter_space estimator visualizer cache_region name = Ok d ->
  let I := PyOperator (VectorOperator U "initial_data") in
  getattr d "initial_data" = Ok (Atom I) /\
  exists ops, getattr d "operators" = Ok (PyDict ops) /\
              ops !! "initial_data" = Some I.
Proof.
  intros (L & I & r & m & stepper & lin & _ & _ & _ & _ & _ & _ & _ & Hi
          & _ & -> & _ & ->)%InstationaryDiscretization__init__iff.
  cbn [wrap_initial_data resolve is_none] in Hi. rewrite Hi.
  match goal with
  | |- context [instationary_instance L I r m stepper ?ops lin ?P] =>
      destruct (instationary_instance_table L I r m stepper ops lin P
                  T num_values parameter_space estimator visualizer
                  cache_region name)
        as (_ & _ & _ & _ & Hid & Hops & _)
  end.
  cbn zeta. split; [by apply getattr_dict|].
  eexists. split; [by apply getattr_dict|]. by rewrite lookup_insert_eq.
Qed.

(** X6: a constructor fails an assertion when a special operator is given
    by keyword and the [operators] argument holds a different value under
    its name. *)
Theorem special_operator_conflict_is_refused :
  (forall operator rhs products O
          parameter_space estimator visualizer cache_region name,
     conflicting operator O "operator" \/ conflicting rhs O "rhs" ->
     StationaryDiscretization__init__ operator rhs products (Some O)
       parameter_space estimator visualizer cache_region name
     = Err AssertionError) /\
  (forall T initial_data operator rhs mass time_stepper num_values products O
          parameter_space estimator visualizer cache_region name,
     conflicting operator O "operator" \/ conflicting mass O "mass" \/
     conflicting rhs O "rhs" \/
     conflicting (wrap_initial_data initial_data) O "initial_data" ->
     InstationaryDiscretization__init__ T initial_data operator rhs mass
       time_stepper num_values products (Some O)
       parameter_space estimator visualizer cache_region name
     = Err AssertionError).
Proof.
  split.
  - intros * Hbad. unfold StationaryDiscretization__init__.
    destruct Hbad as [Hbad|Hbad]; apply conflicting_not_unique in Hbad.
    + refused "operator" ltac:(by left).
    + refused "rhs" ltac:(by left).
  - intros * Hbad. unfold InstationaryDiscretization__init__.
    fold (wrap_initial_data initial_data).
    destruct Hbad as [Hbad|[Hbad|[Hbad|Hbad]]];
      apply conflicting_not_unique in Hbad.
    + refused "operator" ltac:(by left).
    + refused "mass" ltac:(by left).
    + refused "rhs" ltac:(by left).
    + refused "initial_data" ltac:(by left).
Qed.

(** X7: a constructor fails an assertion when a special operator is given
    by keyword as a value that is neither [None] nor an |Operator|; a
    |VectorArray| as [initial_data] is wrapped first and so is accepted
    by this check. *)
Theorem special_operator_must_be_operator :
  (forall operator rhs products operators
          parameter_space estimator visualizer cache_region name,
     not_an_operator operator \/ not_an_operator rhs ->
     StationaryDiscretization__init__ operator rhs products operators
       parameter_space estimator visualizer cache_region name
     = Err AssertionError) /\
  (forall T initial_data operator rhs mass time_stepper num_values
          products operators
          parameter_space estimator visualizer cache_region name,
     not_an_operator operator \/ not_an_operator mass \/
     not_an_operator rhs \/
     not_an_operator (wrap_initial_data initial_data) ->
     InstationaryDiscretization__init__ T initial_data operator rhs mass
       time_stepper num_values products operators
       parameter_space estimator visualizer cache_region name
     = Err AssertionError).
Proof.
  split.
  - intros * Hbad. unfold StationaryDiscretization__init__.
    destruct Hbad as [Hbad|Hbad].
    + refused "operator" ltac:(right; by apply not_an_operator_refused).
    + refused "rhs" ltac:(right; by apply not_an_operator_refused).
  - intros * Hbad. unfold InstationaryDiscretization__init__.
    fold (wrap_initial_data initial_data).
    destruct Hbad as [Hbad|[Hbad|[Hbad|Hbad]]].
    + refused "operator" ltac:(right; by apply not_an_operator_refused).
    + refused "mass" ltac:(right; by apply not_an_operator_refused).
    + refused "rhs" ltac:(right; by apply not_an_operator_refused).
    + refused "initial_data" ltac:(right; by apply not_an_operator_refused).
Qed.

Lemma all_linear_keywords (m : gmap string atom) :
  (forall k a, m !! k = Some a ->
     is_none a || isinstance_OperatorInterface a = true) ->
  all_linear (values m) = Ok (forallb counts_as_linear (values m)).
Proof. intros Hm. by apply all_linear_total, Forall_values. Qed.

Lemma stationary_without_operator
    (rhs : atom) (products : option (gmap string atom))
    (parameter_space estimator visualizer cache_region name : atom) :
  StationaryDiscretization__init__ PyNone rhs products None
    parameter_space estimator visualizer cache_region name
  = Err (if is_none rhs || isinstance_OperatorInterface rhs
         then AttributeError else AssertionError).
Proof.
  destruct (is_none rhs || isinstance_OperatorInterface rhs) eqn:Hrhs.
  - unfold StationaryDiscretization__init__.
    assert (Ha : resolve PyNone ∅ "operator" = PyNone) by apply resolve_empty.
    assert (Hb : resolve rhs ∅ "rhs" = rhs) by apply resolve_empty.
    pose proof (uniquely_given_empty PyNone "operator") as Hu1.
    pose proof (uniquely_given_empty rhs "rhs") as Hu2.
    erewrite (proj2 (DiscretizationBase__init__iff _ _ _ _ _ _ _ _ _ _)); cycle 1.
    { eexists _, _, _. split; [|split; [|reflexivity]].
      - cbn [special_operators handle_special_operators default].
        loop_run Ha. loop_run Hb. reflexivity.
      - apply all_linear_keywords. intros k a.
        rewrite !lookup_insert. repeat case_decide; rewrite ?lookup_empty;
          by intros [= <-]. }
    cbn [mbind result_bind].
    match goal with
    | |- context [base_instance ?s ?ops ?lin ?P ?e ?v ?c ?n] =>
        fold (stationary_base PyNone rhs ops lin P e v c n);
        destruct (stationary_base_table PyNone rhs ops lin P e v c n)
          as (Hop & _);
        generalize dependent (stationary_base PyNone rhs ops lin P e v c n)
    end.
    intros self0 Hop. by run.
  - unfold StationaryDiscretization__init__.
    refused "rhs"
      ltac:(right; cbn [default]; by rewrite resolve_empty).
Qed.

Lemma instationary_without_operator
    (T initial_data rhs mass time_stepper num_values : atom)
    (products : option (gmap string atom))
    (parameter_space estimator visualizer cache_region name : atom) :
  let valid a := is_none a || isinstance_OperatorInterface a in
  InstationaryDiscretization__init__ T initial_data PyNone rhs mass
    time_stepper num_values products None
    parameter_space estimator visualizer cache_region name
  = Err (if valid mass && valid rhs && valid (wrap_initial_data initial_data)
         then AttributeError else AssertionError).
Proof.
  cbn zeta. unfold InstationaryDiscretization__init__.
  fold (wrap_initial_data initial_data).
  set (i := wrap_initial_data initial_data).
  destruct (is_none mass || isinstance_OperatorInterface mass) eqn:Hmass;
    cbn [andb]; cycle 1.
  { refused "mass"
      ltac:(right; cbn [default]; by rewrite resolve_empty). }
  destruct (is_none rhs || isinstance_OperatorInterface rhs) eqn:Hrhs;
    cbn [andb]; cycle 1.
  { refused "rhs"
      ltac:(right; cbn [default]; by rewrite resolve_empty). }
  destruct (is_none i || isinstance_OperatorInterface i) eqn:Hi; cycle 1.
  { refused "initial_data"
      ltac:(right; cbn [default]; by rewrite resolve_empty). }
  assert (Ha : resolve PyNone ∅ "operator" = PyNone) by apply resolve_empty.
  assert (Hm : resolve mass ∅ "mass" = mass) by apply resolve_empty.
  assert (Hr : resolve rhs ∅ "rhs" = rhs) by apply resolve_empty.
  assert (Hi' : resolve i ∅ "initial_data" = i) by apply resolve_empty.
  pose proof (uniquely_given_empty PyNone "operator") as Hu1.
  pose proof (uniquely_given_empty mass "mass") as Hu2.
  pose proof (uniquely_given_empty rhs "rhs") as Hu3.
  pose proof (uniquely_given_empty i "initial_data") as Hu4.
  erewrite (proj2 (DiscretizationBase__init__iff _ _ _ _ _ _ _ _ _ _)); cycle 1.
  { eexists _, _, _. split; [|split; [|reflexivity]].
    - cbn [special_operators handle_special_operators default].
      loop_run Ha. loop_run Hm. loop_run Hr. loop_run Hi'. reflexivity.
    - apply all_linear_keywords. intros k a.
      rewrite !lookup_insert. repeat case_decide; rewrite ?lookup_empty;
        by intros [= <-]. }
  cbn [mbind result_bind].
  match goal with
  | |- context [base_instance ?s ?ops ?lin ?P ?e ?v ?c ?n] =>
      fold (instationary_base PyNone mass rhs i ops lin P e v c n);
      destruct (instationary_base_table PyNone mass rhs i ops lin P e v c n)
        as (Hop & _);
      generalize dependent (instationary_base PyNone mass rhs i ops lin P e v c n)
  end.
  intros self0 Hop. by run.
Qed.

(** X8: without an operator, given neither by keyword nor in [operators],
    a constructor raises [AttributeError] at [self.operator.source] when
    the other special operators are [None] or |Operators|, and fails the
    assertion of the loop over the special operators before that
    otherwise. *)
Theorem construction_without_operator_raises :
  let valid a := is_none a || isinstance_OperatorInterface a in
  (forall rhs products parameter_space estimator visualizer cache_region name,
     StationaryDiscretization__init__ PyNone rhs products None
       parameter_space estimator visualizer cache_region name
     = Err (if valid rhs then AttributeError else AssertionError)) /\
  (forall T initial_data rhs mass time_stepper num_values products
          parameter_space estimator visualizer cache_region name,
     InstationaryDiscretization__init__ T initial_data PyNone rhs mass
       time_stepper num_values products None
       parameter_space estimator visualizer cache_region name
     = Err (if valid mass && valid rhs && valid (wrap_initial_data initial_data)
            then AttributeError else AssertionError)).
Proof.
  split.
  - intros *. apply stationary_without_operator.
  - intros *. apply instationary_without_operator.
Qed.

(** X9: the operators mapping of a constructed instance holds, under every
    name that is not a special operator of its class, exactly what the
    [operators] argument holds there: additional operators are kept and
    nothing else is added. *)
Theorem additional_operators_are_kept :
  (forall operator rhs products operators
          parameter_space estimator visualizer cache_region name d,
     StationaryDiscretization__init__ operator rhs products operators
       parameter_space estimator visualizer cache_region name = Ok d ->
     exists ops, getattr d "operators" = Ok (PyDict ops) /\
       forall k, k ∉ special_operators Stationary ->
                 ops !! k = default ∅ operators !! k) /\
  (forall T initial_data operator rhs mass time_stepper num_values
          products operators
          parameter_space estimator visualizer cache_region name d,
     InstationaryDiscretization__init__ T initial_data operator rhs mass
       time_stepper num_values products operators
       parameter_space estimator visualizer cache_region name = Ok d ->
     exists ops, getattr d "operators" = Ok (PyDict ops) /\
       forall k, k ∉ special_operators Instationary ->
                 ops !! k = default ∅ operators !! k).
Proof.
  split.
  - intros * (L & F & lin & _ & _ & _ & _ & _ & _
              & ->)%StationaryDiscretization__init__iff.
    match goal with
    | |- context [stationary_instance L F ?ops lin ?P] =>
        destruct (stationary_instance_table L F ops lin P
                    parameter_space estimator visualizer cache_region name)
          as (_ & _ & _ & Hops & _)
    end.
    eexists. split; [by apply getattr_dict|].
    intros k Hk. cbn [special_operators] in Hk.
    rewrite !not_elem_of_cons in Hk. destruct Hk as (? & ? & _).
    by rewrite !lookup_insert_ne.
  - intros * (L & I & r & m & stepper & lin & _ & _ & _ & _ & _ & _ & _ & _
              & _ & -> & _ & ->)%InstationaryDiscretization__init__iff.
    match goal with
    | |- context [instationary_instance L I r m stepper ?ops lin ?P] =>
        destruct (instationary_instance_table L I r m stepper ops lin P
                    T num_values parameter_space estimator visualizer
                    cache_region name)
          as (_ & _ & _ & _ & _ & Hops & _)
    end.
    eexists. split; [by apply getattr_dict|].
    intros k Hk. cbn [special_operators] in Hk.
    rewrite !not_elem_of_cons in Hk. destruct Hk as (? & ? & ? & ? & _).
    by rewrite !lookup_insert_ne.
Qed.

(** X10: a stationary discretization is the same whether [operator] and
    [rhs] are given by keyword, in the [operators] argument, or both:
    when [operators] has neither name and holds only |Operators| and
    [None], the constructor called with the keywords returns an instance
    exactly when it returns that instance with the two added to
    [operators], the keywords being left out or given as well. *)
Theorem special_operators_by_keyword_or_mapping
    (operator rhs : atom) (products : option (gmap string atom))
    (O : gmap string atom)
    (parameter_space estimator visualizer cache_region name : atom)
    (d : instance) :
  O !! "operator" = None -> O !! "rhs" = None ->
  (forall k a, O !! k = Some a -> a = PyNone \/ exists o, a = PyOperator o) ->
  let O' := <["rhs" := rhs]> (<["operator" := operator]> O) in
  let by_keyword :=
    StationaryDiscretization__init__ operator rhs products (Some O)
      parameter_space estimator visualizer cache_region name in
  let by_mapping :=
    StationaryDiscretization__init__ PyNone PyNone products (Some O')
      parameter_space estimator visualizer cache_region name in
  let by_both :=
    StationaryDiscretization__init__ operator rhs products (Some O')
      parameter_space estimator visualizer cache_region name in
  (by_keyword = Ok d <-> by_mapping = Ok d) /\
  (by_keyword = Ok d <-> by_both = Ok d).
Proof.
  intros HO1 HO2 _. cbn zeta.
  rewrite !StationaryDiscretization__init__iff. cbn [default from_option id].
  assert (forall kw, uniquely_given kw O "operator" = true) as Hu1.
  { intros kw. unfold uniquely_given. rewrite HO1.
    rewrite (bool_decide_eq_false_2 (is_Some None)) by by intros [? ?].
    by destruct (is_none kw). }
  assert (forall kw, uniquely_given kw O "rhs" = true) as Hu2.
  { intros kw. unfold uniquely_given. rewrite HO2.
    rewrite (bool_decide_eq_false_2 (is_Some None)) by by intros [? ?].
    by destruct (is_none kw). }
  assert (forall kw, kw = PyNone \/ kw = operator ->
            uniquely_given kw (<["rhs":=rhs]> (<["operator":=operator]> O))
              "operator" = true /\
            resolve kw (<["rhs":=rhs]> (<["operator":=operator]> O))
              "operator" = resolve operator O "operator") as Hop.
  { intros kw Hkw. unfold uniquely_given, resolve.
    rewrite lookup_insert_ne, lookup_insert_eq, HO1 by done. cbn [default].
    destruct Hkw as [->| ->]; cbn.
    - split; [done|]. by destruct operator.
    - rewrite (bool_decide_eq_true_2 (Some operator = Some operator)) by done.
      rewrite orb_true_r. split; [done|]. by destruct operator. }
  assert (forall kw, kw = PyNone \/ kw = rhs ->
            uniquely_given kw (<["rhs":=rhs]> (<["operator":=operator]> O))
              "rhs" = true /\
            resolve kw (<["rhs":=rhs]> (<["operator":=operator]> O))
              "rhs" = resolve rhs O "rhs") as Hrhs.
  { intros kw Hkw. unfold uniquely_given, resolve.
    rewrite lookup_insert_eq, HO2. cbn [default].
    destruct Hkw as [->| ->]; cbn.
    - split; [done|]. by destruct rhs.
    - rewrite (bool_decide_eq_true_2 (Some rhs = Some rhs)) by done.
      rewrite orb_true_r. split; [done|]. by destruct rhs. }
  assert (forall L F,
            resolve operator O "operator" = PyOperator L ->
            resolve rhs O "rhs" = PyOperator F ->
            <["rhs":=PyOperator F]> (<["operator":=PyOperator L]>
              (<["rhs":=rhs]> (<["operator":=operator]> O)))
            = <["rhs":=PyOperator F]> (<["operator":=PyOperator L]> O))
    as Hmap.
  { intros L F _ _. apply map_eq. intros k.
    rewrite !lookup_insert. by repeat case_decide. }
  destruct (Hop PyNone (or_introl eq_refl)) as (Hn1 & Hn2).
  destruct (Hop operator (or_intror eq_refl)) as (Hk1 & Hk2).
  destruct (Hrhs PyNone (or_introl eq_refl)) as (Hn3 & Hn4).
  destruct (Hrhs rhs (or_intror eq_refl)) as (Hk3 & Hk4).
  split; split; intros (L & F & lin & _ & _ & Ha & Hb & Hlin & ? & ->);
    exists L, F, lin;
    try rewrite Hn2 in Ha; try rewrite Hk2 in Ha;
    try rewrite Hn4 in Hb; try rewrite Hk4 in Hb;
    rewrite ?Hn1, ?Hn2, ?Hn3, ?Hn4, ?Hk1, ?Hk2, ?Hk3, ?Hk4, ?Hu1, ?Hu2;
    pose proof (Hmap L F Ha Hb) as E;
    try rewrite E in Hlin; try rewrite E; done.
Qed.
End ConstructorTheorems.

Section DelegationTheorems.
Context `{Framework} `{!Delegates}.

(** X1: [visualize] of a discretization constructed without a visualizer
    raises [NotImplementedError('Discretization has no visualizer.')] and
    changes nothing; constructed with one, it calls the visualizer with
    [U], the discretization itself and the keyword arguments, passes on
    what it raises, and returns [None] whatever the visualizer returns. *)
Theorem visualize_delegates_or_refuses
    (estimator visualizer : atom) (d : instance)
    (U : VectorArray) (kwargs : gmap string pyval) (σ : state) :
  constructed_with estimator visualizer d ->
  visualize d U kwargs σ =
    if is_none visualizer
    then (Err (NotImplementedError "Discretization has no visualizer."), σ)
    else match Visualizer_visualize (Atom visualizer) U d kwargs σ with
         | (Ok _, σ') => (Ok (Atom PyNone), σ')
         | (Err e, σ') => (Err e, σ')
         end.
Proof.
  intros (_ & Hvis)%constructed_with_attributes.
  unfold visualize, lift, mbind, M_bind. rewrite Hvis.
  destruct visualizer; try done.
Qed.

(** X2: [estimate] of a discretization constructed without an estimator
    raises [NotImplementedError('Discretization has no estimator.')] and
    changes nothing; constructed with one, its outcome is that of
    [estimator.estimate(U, mu=mu, discretization=self)], with [mu] passed
    on as given. *)
Theorem estimate_delegates_or_refuses
    (estimator visualizer : atom) (d : instance)
    (U : VectorArray) (mu : option loc) (σ : state) :
  constructed_with estimator visualizer d ->
  estimate d U mu σ =
    if is_none estimator
    then (Err (NotImplementedError "Discretization has no estimator."), σ)
    else Estimator_estimate (Atom estimator) U mu d σ.
Proof.
  intros (Hest & _)%constructed_with_attributes.
  unfold estimate, lift, mbind, M_bind. rewrite Hest.
  destruct estimator; try done.
Qed.
End DelegationTheorems.

Section ReconfigurationExtras.
Context `{Framework}.

(** The reconfigurable fields of a constructed instance: the parameters of
    its constructor and at most ['time_stepper_nt'] besides. *)
Lemma with_arguments_constructed (d : instance) :
  constructed d ->
  exists S : gset string,
    with_arguments d = Ok (list_to_set (init_arguments (type_of d)) ∪ S) /\
    S ⊆ {[ "time_stepper_nt" ]}.
Proof.
  intros Hd%constructed_canonical%canonical_type. unfold with_arguments.
  destruct (type_of d) eqn:Hty.
  - destruct Hd as (L & F & ops & lin & P & ps & est & vis & cr & nm & ->
                    & _).
    destruct (stationary_instance_table L F ops lin P ps est vis cr nm)
      as (_ & _ & _ & _ & _ & _ & _ & _ & _ & _ & _ & Hadd & _).
    rewrite (getattr_class _ _ (PySet ∅) Hadd class_dict_add_with_arguments).
    exists ∅. split; [done|]. set_solver.
  - destruct Hd as (L & I & r & m & stepper & ops & lin & P & T & nv & ps
                    & est & vis & cr & nm & -> & _).
    destruct (instationary_instance_table L I r m stepper ops lin P T nv
                ps est vis cr nm)
      as (_ & _ & _ & _ & _ & _ & _ & _ & _ & _ & _ & _ & _ & _ & _ & _
          & Hadd & _).
    rewrite Hadd. eexists. split; [done|].
    destruct (bool_decide _); set_solver.
Qed.

(** X11: [with_] of a constructed instance fails its first assertion when
    a keyword is neither a parameter of the constructor of the instance's
    class nor ['time_stepper_nt']. *)
Theorem with__rejects_unknown_keys
    (d : instance) (kwargs : gmap string pyval) (k : string) :
  constructed d ->
  is_Some (kwargs !! k) ->
  k ∉ init_arguments (type_of d) -> k <> "time_stepper_nt" ->
  with_ d kwargs = Err AssertionError.
Proof.
  intros Hd Hk Hinit Hnt.
  destruct (with_arguments_constructed d Hd) as (S & Hwa & HS).
  assert (Hsub : ~ dom kwargs ⊆ list_to_set (init_arguments (type_of d)) ∪ S).
  { intros Hsub. apply elem_of_dom in Hk. apply Hsub in Hk.
    apply elem_of_union in Hk as [Hk|Hk].
    - by apply elem_of_list_to_set in Hk.
    - apply HS in Hk. by apply elem_of_singleton in Hk. }
  unfold with_, DiscretizationBase_with_, InstationaryDiscretization_with_.
  rewrite Hwa. cbn [mbind result_bind].
  rewrite (bool_decide_eq_false_2 _ Hsub).
  by destruct (type_of d).
Qed.

Lemma construct_type (c : class) (kwargs : gmap string pyval) (d : instance) :
  construct c kwargs = Ok d -> type_of d = c.
Proof.
  unfold construct. intros Hc. inv_result. destruct c.
  - apply StationaryDiscretization__init__iff in Hc
      as (L & F & lin & _ & _ & _ & _ & _ & _ & ->).
    match goal with
    | |- type_of (stationary_instance ?a ?b ?c ?e ?f ?g ?h ?i ?j ?k) = _ =>
        by destruct (stationary_instance_table a b c e f g h i j k) as (? & _)
    end.
  - inv_result. apply InstationaryDiscretization__init__iff in Hc
      as (L & I & r & m & stepper & lin & _ & _ & _ & _ & _ & _ & _ & _ & _
          & _ & _ & ->).
    match goal with
    | |- type_of (instationary_instance ?a ?b ?c ?e ?f ?g ?h ?i ?j ?k ?l
                    ?m0 ?n ?o ?p) = _ =>
        by destruct (instationary_instance_table a b c e f g h i j k l m0 n o p)
          as (? & _)
    end.
Qed.

Lemma with__type self kwargs d :
  with_ self kwargs = Ok d -> type_of d = type_of self.
Proof.
  assert (forall kw, DiscretizationBase_with_ self kw = Ok d ->
                     type_of d = type_of self) as Hbase.
  { unfold DiscretizationBase_with_, ImmutableInterface_with_. intros kw Hw.
    inv_result. by eapply construct_type. }
  unfold with_, InstationaryDiscretization_with_. intros Hw.
  destruct (type_of self) eqn:Hty.
  - by eapply Hbase.
  - inv_result. by eapply Hbase.
Qed.

(** X12: [with_] never changes the class and never returns an instance
    that breaks what the constructor of the class asserts: whatever the
    overrides, the special operators of a returned instance meet the
    space and linearity conditions, and its time-stepper is one. *)
Theorem with__keeps_class_and_invariants
    (self d : instance) (kwargs : gmap string pyval) :
  with_ self kwargs = Ok d ->
  type_of d = type_of self /\
  match type_of self with
  | Stationary =>
      exists L F,
        getattr d "operator" = Ok (Atom (PyOperator L)) /\
        getattr d "rhs" = Ok (Atom (PyOperator F)) /\
        stationary_requirements (PyOperator L) (PyOperator F)
  | Instationary =>
      exists L I r m stepper,
        getattr d "operator" = Ok (Atom (PyOperator L)) /\
        getattr d "initial_data" = Ok (Atom (PyOperator I)) /\
        getattr d "rhs" = Ok (Atom r) /\
        getattr d "mass" = Ok (Atom m) /\
        getattr d "time_stepper" = Ok (Atom (PyTimeStepper stepper)) /\
        instationary_requirements (PyOperator I) (PyOperator L) r m
          (PyTimeStepper stepper)
  end.
Proof.
  intros Hw. pose proof (with__type _ _ _ Hw) as Hty. split; [done|].
  apply with__constructed, constructed_canonical, canonical_type in Hw.
  rewrite Hty in Hw. destruct (type_of self).
  - destruct Hw as (L & F & ops & lin & P & ps & est & vis & cr & nm & ->
                    & _ & _ & _ & Hinv).
    destruct (stationary_instance_table L F ops lin P ps est vis cr nm)
      as (_ & Hop%getattr_dict & Hrhs%getattr_dict & _).
    exists L, F. split; [done|]. split; [done|].
    apply stationary_invariants_true in Hinv. by exists L, F.
  - destruct Hw as (L & I & r & m & stepper & ops & lin & P & T & nv & ps
                    & est & vis & cr & nm & -> & _ & _ & _ & _ & _ & Hinv).
    destruct (instationary_instance_table L I r m stepper ops lin P T nv
                ps est vis cr nm)
      as (_ & Hop%getattr_dict & Hm%getattr_dict & Hr%getattr_dict
          & Hi%getattr_dict & _ & _ & _ & _ & _ & _ & _ & _ & _
          & Hts%getattr_dict & _).
    exists L, I, r, m, stepper. repeat (split; [done|]).
    apply instationary_invariants_true in Hinv as (? & ? & ? & ? & ?).
    exists L, I, stepper. repeat (split; [done|]). split; [by left|done].
Qed.

Lemma resolve_entry (kw a : atom) (O : gmap string atom) (on : string) :
  O !! on = Some a -> kw = PyNone \/ kw = a ->
  uniquely_given kw O on = true /\ resolve kw O on = a.
Proof.
  intros HO Hkw. unfold uniquely_given, resolve. rewrite HO. cbn [default].
  destruct Hkw as [->| ->]; [done|].
  rewrite (bool_decide_eq_true_2 (Some a = Some a)) by done.
  rewrite orb_true_r. split; [done|]. by destruct a.
Qed.

(** [with_(rhs=N)] of a stationary discretization, evaluated. *)
Lemma stationary_with__rhs L F ops lin P ps est vis cr nm (N : atom) d' :
  ops !! "operator" = Some (PyOperator L) ->
  with_ (stationary_instance L F ops lin P ps est vis cr nm)
    {[ "rhs" := Atom N ]} = Ok d'
  <-> exists F' lin',
    N = PyOperator F' /\
    all_linear (values (<["rhs" := N]> ops)) = Ok lin' /\
    stationary_invariants L F' = true /\
    d' = stationary_instance L F' (<["rhs" := N]> ops) lin' P
           ps est vis cr nm.
Proof.
  intros Hop.
  change ({[ "rhs" := Atom N ]} : gmap string pyval)
    with (rhs_override (Some N)).
  rewrite stationary_with_, StationaryDiscretization__init__iff.
  cbn [default from_option id].
  set (O := <["operator":=PyOperator L]> (<["rhs":=N]> ∅) ∪ ops).
  assert (HO1 : O !! "operator" = Some (PyOperator L)).
  { unfold O. apply lookup_union_Some_l. by rewrite lookup_insert_eq. }
  assert (HO2 : O !! "rhs" = Some N).
  { unfold O. apply lookup_union_Some_l.
    by rewrite lookup_insert_ne, lookup_insert_eq. }
  destruct (resolve_entry PyNone _ O "operator" HO1 (or_introl eq_refl))
    as (Hu1 & Hr1).
  destruct (resolve_entry N _ O "rhs" HO2 (or_intror eq_refl)) as (Hu2 & Hr2).
  rewrite Hu1, Hu2, Hr1, Hr2.
  assert (Hmap : forall F', N = PyOperator F' ->
            <["rhs":=PyOperator F']> (<["operator":=PyOperator L]> O)
            = <["rhs":=N]> ops).
  { intros F' ->. apply map_eq. intros k. unfold O.
    rewrite !lookup_insert. repeat case_decide; subst; try done.
    rewrite lookup_union_r; [done|]. by rewrite !lookup_insert_ne. }
  split.
  - intros (L' & F' & lin' & _ & _ & [= <-] & -> & Hlin & Hinv & ->).
    exists F', lin'. by rewrite Hmap in *.
  - intros (F' & lin' & -> & Hlin & Hinv & ->).
    exists L, F', lin'. by rewrite Hmap.
Qed.

(** [with_(rhs=N)] of an instationary discretization, evaluated. *)
Lemma instationary_with__rhs L I r m stepper ops lin P T nv ps est vis cr nm
    (N : atom) d' :
  ops !! "operator" = Some (PyOperator L) -> ops !! "mass" = Some m ->
  ops !! "initial_data" = Some (PyOperator I) ->
  with_ (instationary_instance L I r m stepper ops lin P T nv
           ps est vis cr nm) {[ "rhs" := Atom N ]} = Ok d'
  <-> exists lin',
    all_linear (values (<["rhs" := N]> ops)) = Ok lin' /\
    instationary_invariants L I N m = true /\
    d' = instationary_instance L I N m stepper (<["rhs" := N]> ops) lin' P
           T nv ps est vis cr nm.
Proof.
  intros Hop Hm Hi.
  change ({[ "rhs" := Atom N ]} : gmap string pyval)
    with (instationary_override (Some N) None).
  rewrite instationary_with__plain, instationary_base_with_,
    InstationaryDiscretization__init__iff.
  cbn [default from_option id wrap_initial_data].
  set (O := <["operator":=PyOperator L]>
              (<["mass":=m]> (<["rhs":=N]>
                 (<["initial_data":=PyOperator I]> ∅))) ∪ ops).
  assert (HO1 : O !! "operator" = Some (PyOperator L)).
  { unfold O. apply lookup_union_Some_l. by rewrite lookup_insert_eq. }
  assert (HO2 : O !! "mass" = Some m).
  { unfold O. apply lookup_union_Some_l.
    by kw_lookup. }
  assert (HO3 : O !! "rhs" = Some N).
  { unfold O. apply lookup_union_Some_l.
    by kw_lookup. }
  assert (HO4 : O !! "initial_data" = Some (PyOperator I)).
  { unfold O. apply lookup_union_Some_l.
    by kw_lookup. }
  destruct (resolve_entry PyNone _ O _ HO1 (or_introl eq_refl)) as (Hu1 & Hr1).
  destruct (resolve_entry PyNone _ O _ HO2 (or_introl eq_refl)) as (Hu2 & Hr2).
  destruct (resolve_entry N _ O _ HO3 (or_intror eq_refl)) as (Hu3 & Hr3).
  destruct (resolve_entry PyNone _ O _ HO4 (or_introl eq_refl)) as (Hu4 & Hr4).
  rewrite Hu1, Hu2, Hu3, Hu4, Hr1, Hr2, Hr3, Hr4.
  assert (Hmap :
    <["initial_data":=PyOperator I]>
      (<["rhs":=N]> (<["mass":=m]> (<["operator":=PyOperator L]> O)))
    = <["rhs":=N]> ops).
  { apply map_eq. intros k. unfold O.
    rewrite !lookup_insert. repeat case_decide; try congruence.
    rewrite lookup_union_r; [done|]. by rewrite !lookup_insert_ne. }
  split.
  - intros (L' & I' & r' & m' & stepper' & lin' & _ & _ & _ & _ & [= <-]
            & <- & <- & [= <-] & Hlin & [= <-] & Hinv & ->).
    exists lin'. by rewrite Hmap in *.
  - intros (lin' & Hlin & Hinv & ->).
    exists L, I, N, m, stepper, lin'. by rewrite Hmap.
Qed.

(** X13: overriding [rhs] and then overriding it back with the original
    value returns the original instance. *)
Theorem with__rhs_round_trip (d d' : instance) (r N : atom) :
  constructed d ->
  getattr d "rhs" = Ok (Atom r) ->
  with_ d {[ "rhs" := Atom N ]} = Ok d' ->
  with_ d' {[ "rhs" := Atom r ]} = Ok d.
Proof.
  intros Hd%constructed_canonical%canonical_type Hr Hw.
  destruct (type_of d).
  - destruct Hd as (L & F & ops & lin & P & ps & est & vis & cr & nm & ->
                    & Hop & Hrhs & Hlin & Hinv).
    destruct (stationary_instance_table L F ops lin P ps est vis cr nm)
      as (_ & _ & Hr'%getattr_dict & _).
    rewrite Hr' in Hr. injection Hr as <-.
    apply stationary_with__rhs in Hw as (F' & lin' & -> & _ & _ & ->);
      [|done].
    apply stationary_with__rhs; [by rewrite lookup_insert_ne|].
    exists F, lin. rewrite insert_insert_eq, (insert_id ops "rhs") by done.
    done.
  - destruct Hd as (L & I & r0 & m & stepper & ops & lin & P & T & nv & ps
                    & est & vis & cr & nm & -> & Hop & Hm & Hr0 & Hi & Hlin
                    & Hinv).
    destruct (instationary_instance_table L I r0 m stepper ops lin P T nv
                ps est vis cr nm)
      as (_ & _ & _ & Hr'%getattr_dict & _).
    rewrite Hr' in Hr. injection Hr as <-.
    apply instationary_with__rhs in Hw as (lin' & _ & _ & ->); [|done..].
    apply instationary_with__rhs; [by rewrite lookup_insert_ne..|].
    exists lin. rewrite insert_insert_eq, (insert_id ops "rhs") by done.
    done.
Qed.

(** X14: on a discretization whose operators mapping holds only
    |Operators| and [None], [with_(rhs=N)] returns an instance exactly when
    [N] meets what the constructor of the class asserts of [rhs] against
    the current operator: for a stationary discretization an |Operator|
    satisfying the space and linearity conditions, for an instationary
    one also [None]. *)
Theorem with__rhs_returns_iff
    (d : instance) (L : Operator) (ops : gmap string atom) (N : atom) :
  constructed d ->
  getattr d "operator" = Ok (Atom (PyOperator L)) ->
  getattr d "operators" = Ok (PyDict ops) ->
  (forall k a, ops !! k = Some a -> a = PyNone \/ exists o, a = PyOperator o) ->
  is_ok (with_ d {[ "rhs" := Atom N ]}) = true
  <-> match type_of d with
      | Stationary => stationary_requirements (PyOperator L) N
      | Instationary => rhs_admissible L N
      end.
Proof.
  intros Hd%constructed_canonical%canonical_type HL Hops Hvalid.
  assert (Hlin : forall F', N = PyNone \/ N = PyOperator F' ->
            all_linear (values (<["rhs" := N]> ops))
            = Ok (forallb counts_as_linear (values (<["rhs" := N]> ops)))).
  { intros F' HN. apply all_linear_keywords. intros k a.
    rewrite lookup_insert. case_decide.
    - intros [= <-]. by destruct HN as [->| ->].
    - intros Hk. by destruct (Hvalid k a Hk) as [->|(o & ->)]. }
  destruct (type_of d).
  - destruct Hd as (L0 & F & ops0 & lin & P & ps & est & vis & cr & nm & ->
                    & Hop & _).
    destruct (stationary_instance_table L0 F ops0 lin P ps est vis cr nm)
      as (_ & HL'%getattr_dict & _ & Hops'%getattr_dict & _).
    rewrite HL' in HL. injection HL as ->.
    rewrite Hops' in Hops. injection Hops as ->.
    split.
    + destruct (with_ _ _) as [d'|e] eqn:Hw; [intros _|done].
      apply stationary_with__rhs in Hw as (F' & lin' & -> & _ & Hinv & _);
        [|done].
      apply stationary_invariants_true in Hinv. by exists L, F'.
    + intros (L' & F' & [= <-] & -> & Hinv).
      apply stationary_invariants_true in Hinv.
      erewrite (proj2 (stationary_with__rhs _ _ _ _ _ _ _ _ _ _ _ _ Hop));
        [done|].
      exists F'. eexists. split; [done|]. split; [|split; [done|reflexivity]].
      apply (Hlin F'). by right.
  - destruct Hd as (L0 & I & r & m & stepper & ops0 & lin & P & T & nv & ps
                    & est & vis & cr & nm & -> & Hop & Hm & _ & Hi & _ & Hinv).
    destruct (instationary_instance_table L0 I r m stepper ops0 lin P T nv
                ps est vis cr nm)
      as (_ & HL'%getattr_dict & _ & _ & _ & Hops'%getattr_dict & _).
    rewrite HL' in HL. injection HL as ->.
    rewrite Hops' in Hops. injection Hops as ->.
    apply instationary_invariants_true in Hinv as (HI & HLL & HLI & _ & Hmass).
    split.
    + destruct (with_ _ _) as [d'|e] eqn:Hw; [intros _|done].
      apply instationary_with__rhs in Hw as (lin' & _ & Hinv & _); [|done..].
      by apply instationary_invariants_true in Hinv as (_ & _ & _ & ? & _).
    + intros HN.
      erewrite (proj2 (instationary_with__rhs _ _ _ _ _ _ _ _ _ _ _ _ _ _ _
                         _ _ Hop Hm Hi)); [done|].
      eexists. split; [|split; [|reflexivity]].
      * destruct HN as [->|(F' & -> & _)]; [apply (Hlin L); by left|].
        apply (Hlin F'). by right.
      * by apply instationary_invariants_true.
Qed.

(** [with_(time_stepper=t)] of an instationary discretization, evaluated. *)
Lemma instationary_with__time_stepper
    L I r m stepper ops lin P T nv ps est vis cr nm (stepper' : TimeStepper) :
  ops !! "operator" = Some (PyOperator L) -> ops !! "mass" = Some m ->
  ops !! "rhs" = Some r -> ops !! "initial_data" = Some (PyOperator I) ->
  all_linear (values ops) = Ok lin ->
  instationary_invariants L I r m = true ->
  with_ (instationary_instance L I r m stepper ops lin P T nv
           ps est vis cr nm)
    {[ "time_stepper" := Atom (PyTimeStepper stepper') ]}
  = Ok (instationary_instance L I r m stepper' ops lin P T nv
          ps est vis cr nm).
Proof.
  intros Hop Hm Hr Hi Hlin Hinv.
  change ({[ "time_stepper" := Atom (PyTimeStepper stepper') ]}
            : gmap string pyval)
    with (instationary_override None (Some (PyTimeStepper stepper'))).
  rewrite instationary_with__plain, instationary_base_with_.
  cbn [default from_option id]. rewrite merge_instationary by done.
  apply InstationaryDiscretization__init__iff.
  exists L, I, r, m, stepper', lin.
  cbn [default from_option id wrap_initial_data].
  unfold resolve, uniquely_given.
  cbn [is_none orb]. rewrite Hop, Hm, Hr, Hi. cbn [default from_option id].
  rewrite (insert_id ops "operator") by done.
  rewrite (insert_id ops "mass") by done.
  rewrite (insert_id ops "rhs") by done.
  rewrite (insert_id ops "initial_data") by done.
  by repeat split.
Qed.

Lemma instationary_instance_frame
    L I r m stepper stepper' ops lin P T nv ps est vis cr nm (name : string) :
  name <> "time_stepper" -> name <> "add_with_arguments" ->
  getattr (instationary_instance L I r m stepper' ops lin P T nv
             ps est vis cr nm) name
  = getattr (instationary_instance L I r m stepper ops lin P T nv
               ps est vis cr nm) name.
Proof.
  intros Hts Hadd. unfold getattr.
  assert (__dict__ (instationary_instance L I r m stepper' ops lin P T nv
                      ps est vis cr nm) !! name
          = __dict__ (instationary_instance L I r m stepper ops lin P T nv
                        ps est vis cr nm) !! name) as ->; [|done].
  unfold instationary_instance, Parametric_build_parameter_type. cbn zeta.
  destruct (bool_decide (is_Some (nt stepper)));
    destruct (bool_decide (is_Some (nt stepper')));
    rewrite !dict_setattr; repeat case_decide; congruence.
Qed.

(** X15: [with_(time_stepper=t)] of an instationary discretization returns,
    for every time-stepper [t], an instance whose time-stepper is [t],
    whose other attributes are those of the original, and on which
    ['time_stepper_nt'] is an additional reconfigurable field exactly when
    [t] has an attribute [nt]. *)
Theorem with__time_stepper_replaces_only_it
    (d : instance) (stepper' : TimeStepper) :
  constructed d -> type_of d = Instationary ->
  exists d',
    with_ d {[ "time_stepper" := Atom (PyTimeStepper stepper') ]} = Ok d' /\
    getattr d' "time_stepper" = Ok (Atom (PyTimeStepper stepper')) /\
    (forall name, name <> "time_stepper" -> name <> "add_with_arguments" ->
                  getattr d' name = getattr d name) /\
    exists S : gset string,
      getattr d' "add_with_arguments" = Ok (PySet S) /\
      ("time_stepper_nt" ∈ S <-> is_Some (nt stepper')).
Proof.
  intros Hd%constructed_canonical%canonical_type Hty. rewrite Hty in Hd.
  destruct Hd as (L & I & r & m & stepper & ops & lin & P & T & nv & ps
                  & est & vis & cr & nm & -> & Hop & Hm & Hr & Hi & Hlin & Hinv).
  eexists. split; [by apply instationary_with__time_stepper|].
  destruct (instationary_instance_table L I r m stepper' ops lin P T nv
              ps est vis cr nm)
    as (_ & _ & _ & _ & _ & _ & _ & _ & _ & _ & _ & _ & _ & _
        & Hts%getattr_dict & _ & Hadd & _).
  split; [done|]. split; [by intros; apply instationary_instance_frame|].
  eexists. split; [exact Hadd|].
  case_bool_decide; set_solver.
Qed.
End ReconfigurationExtras.

Section SolvingExtras.
Context `{Framework}.

Lemma log_solving_line self l p nm σ :
  getattr self "name" = Ok nm -> store σ !! l = Some p ->
  log_solving self l σ
  = (Ok tt,
     {| store := store σ;
        log := (log σ ++
          if logging_disabled self then []
          else ["Solving " +:+ str_value nm +:+ " for " +:+ str_parameter p
                +:+ " ..."])%list |}).
Proof.
  intros Hnm Hp. unfold log_solving.
  destruct (logging_disabled self); cbn [negb].
  - rewrite app_nil_r. by destruct σ.
  - cbv [solving_message lift deref logger_info mbind M_bind mret M_ret].
    by rewrite Hnm, Hp.
Qed.

Lemma snd_bind_ret {A B} (m : M A) (f : A -> B) (σ : state) :
  snd ((m ≫= fun a => mret (f a)) σ) = snd (m σ).
Proof. unfold mbind, M_bind. by destruct (m σ) as [[a|e] σ']. Qed.

(** X16: when the parameter parses, [_solve] writes exactly one line to
    the log, ['Solving {name} for {mu} ...'] with the name of the
    discretization and the parsed parameter (for an instationary
    discretization as it is before ['_t'] is set), and writes nothing when
    logging is disabled; this holds also when the solve raises
    afterwards. *)
Theorem solve_logs_one_line (d : instance) :
  constructed d ->
  exists nm,
    getattr d "name" = Ok (Atom nm) /\
    forall mu σ l σ1 p,
      Parametric_parse_parameter d mu σ = (Ok l, σ1) ->
      store σ1 !! l = Some p ->
      log (snd (_solve d mu σ))
      = (log σ ++
         if logging_disabled d then []
         else ["Solving " +:+ str_value (Atom nm) +:+ " for "
               +:+ str_parameter p +:+ " ..."])%list.
Proof.
  intros Hd%constructed_canonical%canonical_type. unfold _solve.
  destruct (type_of d).
  - destruct Hd as (L & F & ops & lin & P & ps & est & vis & cr & nm & -> & _).
    destruct (stationary_instance_table L F ops lin P ps est vis cr nm)
      as (_ & Hop%getattr_dict & Hrhs%getattr_dict & _ & _ & _ & _ & _ & _
          & Hnm%getattr_dict & _).
    exists nm. split; [done|]. intros mu σ l σ1 p Hparse Hp.
    destruct (parse_parameter_frame _ _ _ _ _ Hparse) as [<- _].
    rewrite snd_bind_ret. unfold StationaryDiscretization__solve.
    rewrite (M_bind_Ok _ _ _ _ _ Hparse).
    rewrite (M_bind_Ok _ _ _ _ _ (log_solving_line _ l p _ σ1 Hnm Hp)).
    rewrite Hop, Hrhs.
    cbn [mbind result_bind method_apply_inverse method_as_source_array].
    cbv [lift mbind M_bind deref]. cbn [store]. rewrite Hp.
    destruct (as_source_array F p) as [V|e]; [|done].
    by destruct (apply_inverse L V p).
  - destruct Hd as (L & I & r & m & stepper & ops & lin & P & T & nv & ps
                    & est & vis & cr & nm & -> & _).
    destruct (instationary_instance_table L I r m stepper ops lin P T nv
                ps est vis cr nm)
      as (_ & Hop%getattr_dict & Hm%getattr_dict & Hr%getattr_dict
          & Hi%getattr_dict & _ & _ & _ & _ & _ & _ & Hnm%getattr_dict & _
          & HT%getattr_dict & Hts%getattr_dict & Hnv%getattr_dict & _).
    exists nm. split; [done|]. intros mu σ l σ1 p Hparse Hp.
    destruct (parse_parameter_frame _ _ _ _ _ Hparse) as [<- _].
    rewrite snd_bind_ret.
    set (clone := fresh (dom (store σ1))).
    set (σ2 := {| store := <[clone := p]> (store σ1); log := log σ1 |}).
    assert (Hcopy : (Parametric_parse_parameter
              (instationary_instance L I r m stepper ops lin P T nv
                 ps est vis cr nm) mu ≫= copy) σ = (Ok clone, σ2)).
    { rewrite (M_bind_Ok _ _ _ _ _ Hparse). unfold copy.
      rewrite (M_bind_Ok _ _ _ _ _ (deref_Ok _ _ _ Hp)). done. }
    assert (Hclone : store σ2 !! clone = Some p) by apply lookup_insert_eq.
    unfold InstationaryDiscretization__solve.
    rewrite (M_bind_Ok _ _ _ _ _ Hcopy).
    rewrite (M_bind_Ok _ _ _ _ _ (log_solving_line _ clone p _ σ2 Hnm Hclone)).
    rewrite Hi, Hts, Hop, Hr, Hm, HT, Hnv.
    cbn [mbind result_bind method_as_range_array method_solve].
    cbv [lift mbind M_bind deref setitem]. cbn [store]. rewrite Hclone.
    cbn [store log]. rewrite lookup_insert_eq.
    destruct (as_range_array I _) as [U0|e]; [|done].
    by destruct (TimeStepper_solve _ _ _ _ _ _ _ _ _).
Qed.
End SolvingExtras.

(** ** The further theorems at concrete instances *)

Lemma d_plotted_constructed_with :
  constructed_with Example.residual Example.plot Example.d_plotted.
Proof.
  left. exists Example.L, Example.F, None, None, PyNone, PyNone, (PyStr "p").
  by_evaluation.
Defined.

Lemma visualize_witness :
  constructed_with Example.residual Example.plot Example.d_plotted /\
  visualize Example.d_plotted [1; 2]%Z ∅ Example.initial
  = (Ok (Atom PyNone), {| store := ∅; log := ["plot"] |}).
Proof.
  split; [exact d_plotted_constructed_with|].
  exact (visualize_delegates_or_refuses Example.residual Example.plot
           Example.d_plotted [1; 2]%Z ∅ Example.initial
           d_plotted_constructed_with).
Defined.

Lemma estimate_witness :
  constructed_with Example.residual Example.plot Example.d_plotted /\
  estimate Example.d_plotted [1; 2]%Z None Example.initial
  = (Ok (Atom (PyNum 0)), Example.initial).
Proof.
  split; [exact d_plotted_constructed_with|].
  exact (estimate_delegates_or_refuses Example.residual Example.plot
           Example.d_plotted [1; 2]%Z None Example.initial
           d_plotted_constructed_with).
Defined.

Lemma constructor_arguments_witness :
  getattr Example.d_stationary "name" = Ok (Atom (PyStr "d")) /\
  getattr Example.d_fixed "T" = Ok (Atom (PyNum 1)) /\
  getattr Example.d_fixed "time_stepper" = Ok (Atom Example.fixed).
Proof.
  assert (Hs : StationaryDiscretization__init__ Example.L Example.F None None
                 PyNone PyNone PyNone PyNone (PyStr "d")
               = Ok Example.d_stationary) by by_evaluation.
  assert (Hi : InstationaryDiscretization__init__ (PyNum 1) Example.u0
                 Example.L Example.F PyNone Example.fixed PyNone
                 (Some Example.h1) None PyNone PyNone PyNone PyNone
                 (PyStr "i")
               = Ok Example.d_fixed) by by_evaluation.
  destruct constructor_arguments_read_back as (Hstat & Hinst).
  destruct (Hstat Example.L Example.F None None PyNone PyNone PyNone PyNone
              (PyStr "d") Example.d_stationary Hs) as (_ & _ & _ & Hnm).
  destruct (Hinst (PyNum 1) Example.u0 Example.L Example.F PyNone
              Example.fixed PyNone (Some Example.h1) None PyNone PyNone
              PyNone PyNone (PyStr "i") Example.d_fixed Hi)
    as (HT & Hts & _).
  split; [exact Hnm|]. split; [exact HT|exact Hts].
Defined.

Lemma vector_array_initial_data_witness :
  getattr Example.d_wrapped "initial_data"
  = Ok (Atom (PyOperator (Example.Wrapped [5; 5]%Z "initial_data"))).
Proof.
  assert (Hw : InstationaryDiscretization__init__ (PyNum 1)
                 (PyVectorArray [5; 5]%Z) Example.L PyNone PyNone
                 Example.fixed PyNone None None
                 PyNone PyNone PyNone PyNone (PyStr "w")
               = Ok Example.d_wrapped) by by_evaluation.
  exact (proj1 (vector_array_initial_data_is_wrapped [5; 5]%Z (PyNum 1)
                  Example.L PyNone PyNone Example.fixed PyNone None None
                  PyNone PyNone PyNone PyNone (PyStr "w")
                  Example.d_wrapped Hw)).
Defined.

Lemma special_operator_conflict_witness :
  conflicting Example.L {[ "operator" := Example.F ]} "operator" /\
  StationaryDiscretization__init__ Example.L Example.F None
    (Some {[ "operator" := Example.F ]})
    PyNone PyNone PyNone PyNone (PyStr "d") = Err AssertionError.
Proof.
  assert (Hc : conflicting Example.L {[ "operator" := Example.F ]} "operator").
  { split; [done|]. exists Example.F. split; [by_evaluation|done]. }
  split; [exact Hc|].
  destruct special_operator_conflict_is_refused as (Hstat & _).
  apply Hstat. by left.
Defined.

Lemma special_operator_must_be_operator_witness :
  not_an_operator (PyNum 3) /\
  StationaryDiscretization__init__ (PyNum 3) Example.F None None
    PyNone PyNone PyNone PyNone (PyStr "d") = Err AssertionError.
Proof.
  assert (Hn : not_an_operator (PyNum 3)) by done.
  split; [exact Hn|].
  destruct special_operator_must_be_operator as (Hstat & _).
  apply Hstat. by left.
Defined.

Lemma additional_operators_witness :
  exists ops,
    getattr Example.d_extra "operators" = Ok (PyDict ops) /\
    forall k, k ∉ special_operators Stationary ->
              ops !! k = default ∅ (Some Example.extra) !! k.
Proof.
  assert (He : StationaryDiscretization__init__ Example.L Example.F None
                 (Some Example.extra)
                 PyNone PyNone PyNone PyNone (PyStr "e")
               = Ok Example.d_extra) by by_evaluation.
  destruct additional_operators_are_kept as (Hstat & _).
  exact (Hstat Example.L Example.F None (Some Example.extra)
           PyNone PyNone PyNone PyNone (PyStr "e") Example.d_extra He).
Defined.

Lemma special_operators_by_keyword_witness :
  StationaryDiscretization__init__ Example.L Example.F None (Some ∅)
    PyNone PyNone PyNone PyNone (PyStr "d") = Ok Example.d_stationary /\
  StationaryDiscretization__init__ PyNone PyNone None
    (Some (<["rhs" := Example.F]> (<["operator" := Example.L]> ∅)))
    PyNone PyNone PyNone PyNone (PyStr "d") = Ok Example.d_stationary.
Proof.
  assert (Hk : StationaryDiscretization__init__ Example.L Example.F None
                 (Some ∅) PyNone PyNone PyNone PyNone (PyStr "d")
               = Ok Example.d_stationary) by by_evaluation.
  split; [exact Hk|].
  assert (Hvalid : forall k a, (∅ : gmap string atom) !! k = Some a ->
                     a = PyNone \/ exists o, a = PyOperator o).
  { intros k a Hka. by rewrite lookup_empty in Hka. }
  pose proof (special_operators_by_keyword_or_mapping Example.L Example.F
                None ∅ PyNone PyNone PyNone PyNone (PyStr "d")
                Example.d_stationary (lookup_empty _) (lookup_empty _)
                Hvalid)
    as Hthm.
  cbn zeta in Hthm. destruct Hthm as ((Hfwd & _) & _). exact (Hfwd Hk).
Defined.

Lemma with__rejects_unknown_keys_witness :
  constructed Example.d_stationary /\
  with_ Example.d_stationary {[ "T" := Atom (PyNum 1) ]} = Err AssertionError.
Proof.
  split; [exact d_stationary_constructed|].
  apply (with__rejects_unknown_keys Example.d_stationary
           {[ "T" := Atom (PyNum 1) ]} "T" d_stationary_constructed).
  - by_evaluation.
  - by_evaluation.
  - discriminate.
Defined.

Lemma with__keeps_class_witness :
  with_ Example.d_stationary {[ "rhs" := Atom Example.G ]}
    = Ok Example.d_stationary_G /\
  type_of Example.d_stationary_G = type_of Example.d_stationary.
Proof.
  assert (Hw : with_ Example.d_stationary {[ "rhs" := Atom Example.G ]}
               = Ok Example.d_stationary_G) by by_evaluation.
  split; [exact Hw|].
  exact (proj1 (with__keeps_class_and_invariants Example.d_stationary
                  Example.d_stationary_G {[ "rhs" := Atom Example.G ]} Hw)).
Defined.

Lemma with__rhs_round_trip_witness :
  constructed Example.d_stationary /\
  getattr Example.d_stationary "rhs" = Ok (Atom Example.F) /\
  with_ Example.d_stationary {[ "rhs" := Atom Example.G ]}
    = Ok Example.d_stationary_G /\
  with_ Example.d_stationary_G {[ "rhs" := Atom Example.F ]}
    = Ok Example.d_stationary.
Proof.
  assert (Hr : getattr Example.d_stationary "rhs" = Ok (Atom Example.F))
    by by_evaluation.
  assert (Hw : with_ Example.d_stationary {[ "rhs" := Atom Example.G ]}
               = Ok Example.d_stationary_G) by by_evaluation.
  split; [exact d_stationary_constructed|]. split; [exact Hr|].
  split; [exact Hw|].
  exact (with__rhs_round_trip Example.d_stationary Example.d_stationary_G
           Example.F Example.G d_stationary_constructed Hr Hw).
Defined.

Lemma with__rhs_returns_iff_witness :
  constructed Example.d_stationary /\
  getattr Example.d_stationary "operator" = Ok (Atom Example.L) /\
  getattr Example.d_stationary "operators" = Ok (PyDict Example.both) /\
  (is_ok (with_ Example.d_stationary {[ "rhs" := Atom Example.G ]}) = true
   <-> match type_of Example.d_stationary with
       | Stationary =>
           stationary_requirements (PyOperator (Example.Identity 2)) Example.G
       | Instationary => rhs_admissible (Example.Identity 2) Example.G
       end).
Proof.
  set (ops := Example.both).
  assert (HL : getattr Example.d_stationary "operator" = Ok (Atom Example.L))
    by by_evaluation.
  assert (Hops : getattr Example.d_stationary "operators" = Ok (PyDict ops))
    by by_evaluation.
  assert (Hvalid : forall k a, ops !! k = Some a ->
                     a = PyNone \/ exists o, a = PyOperator o).
  { intros k a. unfold ops, Example.both. rewrite !lookup_insert.
    repeat case_decide; rewrite ?lookup_empty; intros [= <-];
      right; by eexists. }
  split; [exact d_stationary_constructed|]. split; [exact HL|].
  split; [exact Hops|].
  exact (with__rhs_returns_iff Example.d_stationary (Example.Identity 2) ops
           Example.G d_stationary_constructed HL Hops Hvalid).
Defined.

Lemma with__time_stepper_witness :
  constructed Example.d_fixed /\
  type_of Example.d_fixed = Instationary /\
  exists d',
    with_ Example.d_fixed
      {[ "time_stepper" := Atom (PyTimeStepper Example.Adaptive) ]} = Ok d' /\
    getattr d' "time_stepper" = Ok (Atom (PyTimeStepper Example.Adaptive)) /\
    (forall name, name <> "time_stepper" -> name <> "add_with_arguments" ->
                  getattr d' name = getattr Example.d_fixed name) /\
    exists S : gset string,
      getattr d' "add_with_arguments" = Ok (PySet S) /\
      ("time_stepper_nt" ∈ S <-> is_Some (nt Example.Adaptive)).
Proof.
  assert (Hty : type_of Example.d_fixed = Instationary) by by_evaluation.
  split; [exact d_fixed_constructed|]. split; [exact Hty|].
  exact (with__time_stepper_replaces_only_it Example.d_fixed Example.Adaptive
           d_fixed_constructed Hty).
Defined.

Lemma solve_logs_one_line_witness :
  constructed Example.d_stationary /\
  exists nm,
    getattr Example.d_stationary "name" = Ok (Atom nm) /\
    forall mu σ l σ1 p,
      Parametric_parse_parameter Example.d_stationary mu σ = (Ok l, σ1) ->
      store σ1 !! l = Some p ->
      log (snd (_solve Example.d_stationary mu σ))
      = (log σ ++
         if logging_disabled Example.d_stationary then []
         else ["Solving " +:+ str_value (Atom nm) +:+ " for "
               +:+ str_parameter p +:+ " ..."])%list.
Proof.
  split; [exact d_stationary_constructed|].
  exact (solve_logs_one_line Example.d_stationary d_stationary_constructed).
Defined.
